(** * Citi Bike safety analysis: crash cleaning, station join, proximity

    A shallow embedding of the data pipeline of the repository:

    - [haversine], the loaders, [clean_crash_data] and [analyze_proximity]
      of [crash_data_diagnostic.py];
    - the station join at the end of [inspect_api_data] of
      [citibike_diagnostic.py];
    - [analyze_stations] and the data of the two maps of
      [citibike_analyzer_v2.py].

    Conventions of the embedding.

    - A decoded JSON document is a [pyval].  JSON numbers (Python [int] and
      [float]) are rationals; IEEE rounding, infinities and NaN literals are
      not represented.
    - A Python [dict] is an association list in insertion order.
    - Distances are real numbers.  The formula of [haversine] is read over
      the real numbers, [sin], [cos], [asin] and [sqrt] being the functions
      of the real-number library; what the floating-point evaluation of a
      call returns or raises is a parameter of the proximity analysis
      ([floats]).
    - What pandas does to a column as a whole (parsing, addition) is a
      parameter of the cleaner ([pandas]).
    - The station analyzer follows numbers up to [2^1000] in absolute
      value; beyond, a run ends as [OutOfRange].
    - [print] is a log of [message]s, exceptions are values of [exn]. *)

From Stdlib Require Import Bool Arith ZArith QArith Qreals Reals Lra Lia.
From Stdlib Require Import List String Ascii DecimalString Machin.
Import ListNotations.

Local Open Scope string_scope.
Local Open Scope list_scope.

(** ** Python values *)

#[warnings="-register-all"]
Inductive pyval : Type :=
| PNone
| PBool (b : bool)
| PNum (q : Q)
| PStr (s : string)
| PList (l : list pyval)
| PDict (d : list (string * pyval)).

(** A [dict] with string keys, as [json.load] builds them. *)
Definition dict : Type := list (string * pyval).

(** [d.get(k)]; [None] when the key is absent. *)
Fixpoint dict_get (k : string) (d : dict) : option pyval :=
  match d with
  | [] => None
  | (k', v) :: rest => if String.eqb k k' then Some v else dict_get k rest
  end.

(** [d.get(k)] as a value, [None] being [PNone]; also [d[k]] where the
    key is known to be there. *)
Definition item (k : string) (d : dict) : pyval :=
  match dict_get k d with Some v => v | None => PNone end.

(** [k in d] *)
Definition dict_has (k : string) (d : dict) : bool :=
  match dict_get k d with Some _ => true | None => false end.

(** [d[k] = v]: an existing key keeps its position, a new key goes last. *)
Fixpoint dict_set (k : string) (v : pyval) (d : dict) : dict :=
  match d with
  | [] => [(k, v)]
  | (k', v') :: rest =>
      if String.eqb k k' then (k', v) :: rest else (k', v') :: dict_set k v rest
  end.

(** [{**a, **b}]: a copy of [a] updated with the items of [b] in order. *)
Definition dict_merge (a b : dict) : dict :=
  fold_left (fun acc kv => dict_set (fst kv) (snd kv) acc) b a.

(** [list(d.keys())] *)
Definition dict_keys (d : dict) : list string := map fst d.

(** [bool(v)] *)
Definition truthy (v : pyval) : bool :=
  match v with
  | PNone => false
  | PBool b => b
  | PNum q => negb (Qeq_bool q 0)
  | PStr s => negb (String.eqb s "")
  | PList l => match l with [] => false | _ => true end
  | PDict d => match d with [] => false | _ => true end
  end.

(** [isinstance(v, (int, float))]; [bool] is a subclass of [int]. *)
Definition is_number (v : pyval) : bool :=
  match v with
  | PBool _ | PNum _ => true
  | _ => false
  end.

(** The numeric value of an [int], [float] or [bool]. *)
Definition number_of (v : pyval) : option Q :=
  match v with
  | PBool true => Some 1%Q
  | PBool false => Some 0%Q
  | PNum q => Some q
  | _ => None
  end.

(** Values that can be keys of a [dict] or labels of a column. *)
Definition hashable (v : pyval) : bool :=
  match v with
  | PList _ | PDict _ => false
  | _ => true
  end.

(** [a == b] on hashable values: numbers and booleans compare by value. *)
Definition key_eqb (a b : pyval) : bool :=
  match a, b with
  | PNone, PNone => true
  | PStr s, PStr t => String.eqb s t
  | _, _ =>
      match number_of a, number_of b with
      | Some x, Some y => Qeq_bool x y
      | _, _ => false
      end
  end.

(** Exceptions the modelled code can raise. *)
Inductive exn : Type :=
| KeyError (k : pyval)
| TypeError
| ValueError
| AttributeError
| OverflowError.

(** ** Great-circle distance *)

Local Open Scope R_scope.

(** [math.radians] *)
Definition radians (deg : R) : R := deg * (PI / 180).

(** [haversine(lon1, lat1, lon2, lat2)], in meters. *)
Definition haversine (lon1 lat1 lon2 lat2 : R) : R :=
  let lon1 := radians lon1 in
  let lat1 := radians lat1 in
  let lon2 := radians lon2 in
  let lat2 := radians lat2 in
  let dlon := lon2 - lon1 in
  let dlat := lat2 - lat1 in
  let a := sin (dlat / 2) ^ 2 + cos lat1 * cos lat2 * sin (dlon / 2) ^ 2 in
  let c := 2 * asin (sqrt a) in
  let r := 6371 in
  c * r * 1000.

(** The formula as the design states it, for two points given as
    (latitude, longitude) in degrees on a sphere of radius [earth_radius_km]. *)
Definition earth_radius_km : R := 6371.

Definition great_circle_m (lat1 lon1 lat2 lon2 : R) : R :=
  let a := sin ((radians lat2 - radians lat1) / 2) ^ 2
           + cos (radians lat1) * cos (radians lat2)
             * sin ((radians lon2 - radians lon1) / 2) ^ 2 in
  2 * (earth_radius_km * 1000) * asin (sqrt a).

Local Close Scope R_scope.

(** ** Output and exceptions: a writer over an error monad *)

(** One constructor per [print] of the modelled functions; the payload is
    the data the line shows. *)
Inductive message : Type :=
| MsgCleaning
| MsgDataIsList (n : nat)
| MsgDataIsDict (keys : list string)
| MsgOpenDataFormat
| MsgFoundRows (n : nat)
| MsgFoundColumnNames (names : list pyval)
| MsgNoColumnNames
| ErrNoUsableRows
| ErrUnexpectedFormat
| MsgKeysFound (keys : list string)
| ErrUnexpectedType
| MsgAvailableColumns (cols : list pyval)
| WarnMissingColumns (cols : list string)
| MsgMapping (alias canonical : string)
| ErrStillMissing (cols : list string)
| MsgSampleHeader
| MsgSampleRow (r : list (pyval * pyval))
| WarnDates
| MsgCleaned (n : nat)
| MsgProximityHeader
| MsgNoValidStations
| MsgAverageDistance
| MsgMedianDistance
| MsgWithin (meters : nat) (count total : nat).

Definition M (A : Type) : Type := (list message * (exn + A))%type.

Definition ret {A : Type} (a : A) : M A := ([], inr a).

Definition raise {A : Type} (e : exn) : M A := ([], inl e).

Definition print (m : message) : M unit := ([m], inr tt).

Definition lift {A : Type} (r : exn + A) : M A := ([], r).

Definition bind {A B : Type} (m : M A) (f : A -> M B) : M B :=
  match m with
  | (out, inl e) => (out, inl e)
  | (out, inr a) => let (out', r) := f a in (out ++ out', r)
  end.

Notation "x <- c ;; k" := (bind c (fun x => k))
  (at level 61, c at next level, right associativity).
Notation "c ;;; k" := (bind c (fun _ => k))
  (at level 61, right associativity).

(** [if cond: body] for a body that returns nothing. *)
Definition when (cond : bool) (body : M unit) : M unit :=
  if cond then body else ret tt.

(** ** The station join of [inspect_api_data] *)

(** A [dict] keyed by station identifiers; keys compare with [==]. *)
Definition id_dict : Type := list (pyval * dict).

Fixpoint id_get (k : pyval) (d : id_dict) : option dict :=
  match d with
  | [] => None
  | (k', v) :: rest => if key_eqb k k' then Some v else id_get k rest
  end.

Fixpoint id_set (k : pyval) (v : dict) (d : id_dict) : id_dict :=
  match d with
  | [] => [(k, v)]
  | (k', v') :: rest =>
      if key_eqb k k' then (k', v) :: rest else (k', v') :: id_set k v rest
  end.

(** [{station['station_id']: station for station in info_stations}] *)
Fixpoint station_info_dict (info_stations : list dict) (acc : id_dict)
  : exn + id_dict :=
  match info_stations with
  | [] => inr acc
  | station :: rest =>
      match dict_get "station_id" station with
      | None => inl (KeyError (PStr "station_id"))
      | Some sid =>
          if hashable sid then station_info_dict rest (id_set sid station acc)
          else inl TypeError
      end
  end.

(** The loop over [status_stations] that fills [combined_stations]. *)
Fixpoint combine_loop (info : id_dict) (status_stations : list dict)
    (combined : list dict) : exn + list dict :=
  match status_stations with
  | [] => inr combined
  | status :: rest =>
      let station_id := item "station_id" status in
      if truthy station_id then
        if hashable station_id then
          match id_get station_id info with
          | Some station =>
              combine_loop info rest (combined ++ [dict_merge station status])
          | None => combine_loop info rest combined
          end
        else inl TypeError
      else combine_loop info rest combined
  end.

(** The combined dataset from the two feeds. *)
Definition combined_stations (info_stations status_stations : list dict)
  : exn + list dict :=
  match station_info_dict info_stations [] with
  | inl e => inl e
  | inr info => combine_loop info status_stations []
  end.

(** A feed has a record with identifier [sid] (up to [==]). *)
Definition has_station (sid : pyval) (feed : list dict) : Prop :=
  exists s v, In s feed /\ dict_get "station_id" s = Some v /\ key_eqb sid v = true.

(** The two records carry the same identifier. *)
Definition same_station (i s : dict) : Prop :=
  exists v w, dict_get "station_id" i = Some v
              /\ dict_get "station_id" s = Some w /\ key_eqb w v = true.

(** [c] has the fields of [s], and those of [i] that [s] does not have. *)
Definition overlay (i s c : dict) : Prop :=
  forall k, dict_get k c =
            match dict_get k s with
            | Some v => Some v
            | None => dict_get k i
            end.

(** Feeds on which the join raises nothing: every information record has a
    hashable identifier; every status record is a mapping (its keys are
    distinct) whose identifier, if it has one, is hashable. *)
Definition info_feed_ok (info_stations : list dict) : Prop :=
  Forall (fun i => exists v, dict_get "station_id" i = Some v
                             /\ hashable v = true) info_stations.

(** Every record is a mapping: no key occurs twice. *)
Definition mappings (feed : list dict) : Prop :=
  Forall (fun s => NoDup (dict_keys s)) feed.

Definition status_feed_ok (status_stations : list dict) : Prop :=
  Forall (fun s => NoDup (dict_keys s)
                   /\ hashable (item "station_id" s) = true) status_stations.

(** ** Data frames *)

(** A column label is any hashable value: a string for a named column, a
    number for a positional one. *)
Definition label : Type := pyval.

(** A row keeps its cells with their labels, in column order.  A missing
    cell is [PNone], be it held as [None] or as NaN; a number is a number by
    its value, be it held as an [int] or as a [float].  Which of the two a
    frame built from decoded data holds is told by [frame_records] below. *)
Definition row : Type := list (label * pyval).

Record DataFrame : Type := mkFrame {
  columns : list label;
  rows : list row
}.

(** [pd.DataFrame()] *)
Definition empty_frame : DataFrame := mkFrame [] [].

(** [len(df)] *)
Definition frame_len (df : DataFrame) : nat := List.length (rows df).

(** [c in df.columns] *)
Definition has_col (c : label) (df : DataFrame) : bool :=
  existsb (key_eqb c) (columns df).

(** How many columns carry the label [c]: labels may repeat. *)
Definition col_count (c : label) (df : DataFrame) : nat :=
  List.length (filter (key_eqb c) (columns df)).

(** The cell of a row under label [c], the first one when labels repeat. *)
Fixpoint row_get (c : label) (r : row) : option pyval :=
  match r with
  | [] => None
  | (c', v) :: rest => if key_eqb c c' then Some v else row_get c rest
  end.

(** The cell as a value: a row without the label reads as missing. *)
Definition cell (c : label) (r : row) : pyval :=
  match row_get c r with Some v => v | None => PNone end.

(** Apply [f] to every cell labelled [c]. *)
Definition row_map_at (c : label) (f : pyval -> pyval) (r : row) : row :=
  map (fun e => if key_eqb c (fst e) then (fst e, f (snd e)) else e) r.

(** The row with [v] under label [c]: in every cell labelled [c], or in a
    new last cell. *)
Definition row_set (c : label) (v : pyval) (r : row) : row :=
  if existsb (fun e => key_eqb c (fst e)) r
  then row_map_at c (fun _ => v) r
  else r ++ [(c, v)].

(** [df[c] = values], one value per row computed by [f]: every column
    labelled [c] takes the values, and without such a column a new last
    column is made. *)
Definition set_column (c : label) (f : row -> pyval) (df : DataFrame)
  : DataFrame :=
  mkFrame (if has_col c df then columns df else columns df ++ [c])
          (map (fun r => row_set c (f r) r) (rows df)).

(** [df.rename(columns=mapping)] *)
Definition rename_label (mapping : list (string * string)) (c : label) : label :=
  match c with
  | PStr s =>
      match find (fun e => String.eqb s (fst e)) mapping with
      | Some e => PStr (snd e)
      | None => c
      end
  | _ => c
  end.

Definition rename (mapping : list (string * string)) (df : DataFrame)
  : DataFrame :=
  mkFrame (map (rename_label mapping) (columns df))
          (map (map (fun e => (rename_label mapping (fst e), snd e))) (rows df)).

(** *** Construction from decoded data *)

(** The keys of all records, each once, in order of first appearance. *)
Definition add_key (acc : list string) (k : string) : list string :=
  if existsb (String.eqb k) acc then acc else acc ++ [k].

Definition union_keys (records : list dict) : list string :=
  fold_left (fun acc d => fold_left add_key (dict_keys d) acc) records [].

(** The row of a record under the given columns; an absent field is
    missing.  The cells are the values of the record up to what the note on
    rows leaves open: in a column of numbers a null is held as NaN. *)
Definition record_row (cols : list label) (d : dict) : row :=
  map (fun c =>
         (c, match c with
             | PStr s => match dict_get s d with Some v => v | None => PNone end
             | _ => PNone
             end)) cols.

(** The row of a value sequence under the given columns, padded with
    missing cells. *)
Fixpoint values_row (cols : list label) (vs : list pyval) : row :=
  match cols with
  | [] => []
  | c :: cols' =>
      match vs with
      | [] => (c, PNone) :: values_row cols' []
      | v :: vs' => (c, v) :: values_row cols' vs'
      end
  end.

Fixpoint as_dicts (l : list pyval) : option (list dict) :=
  match l with
  | [] => Some []
  | PDict d :: rest =>
      match as_dicts rest with Some ds => Some (d :: ds) | None => None end
  | _ => None
  end.

Fixpoint as_lists (l : list pyval) : option (list (list pyval)) :=
  match l with
  | [] => Some []
  | PList x :: rest =>
      match as_lists rest with Some xs => Some (x :: xs) | None => None end
  | _ => None
  end.

Definition is_scalar (v : pyval) : bool :=
  match v with
  | PList _ | PDict _ => false
  | _ => true
  end.

(** The positional labels [0 .. n-1]. *)
Definition positions (n : nat) : list label :=
  map (fun i => PNum (inject_Z (Z.of_nat i))) (seq 0 n).

Definition max_width (rs : list (list pyval)) : nat :=
  fold_right (fun r w => Nat.max (List.length r) w) 0%nat rs.

(** What the model takes from pandas as given: the numeric reading of a
    string, the frame built from data outside the shapes modelled below,
    the parsing of a column of dates ([None] when it raises), and the sum
    of two numeric columns, value by value.  What a sum is depends on the
    types pandas has given the columns: a column of whole numbers is
    [int64], whose sums wrap around, a column with a fraction or a missing
    value is [float64], whose sums are rounded. *)
Record pandas : Type := {
  str_to_numeric : string -> option Q;
  DataFrame_other : pyval -> option (list label) -> exn + DataFrame;
  to_datetime : list pyval -> option (list pyval);
  series_add : list pyval -> list pyval -> list pyval
}.

(** [pd.DataFrame(data, columns=names)] for a list that is empty, or made
    of mappings only, of lists only, or of scalars only. *)
Definition DataFrame_new (pd : pandas) (data : pyval)
    (names : option (list label)) : exn + DataFrame :=
  let regular :=
    match names with Some ns => forallb hashable ns | None => true end in
  match data with
  | PList l =>
      if negb regular then DataFrame_other pd data names
      else
        match l with
        | [] => inr (mkFrame (match names with Some ns => ns | None => [] end) [])
        | _ =>
            match as_dicts l with
            | Some ds =>
                let cols := match names with
                            | Some ns => ns
                            | None => map PStr (union_keys ds)
                            end in
                inr (mkFrame cols (map (record_row cols) ds))
            | None =>
                match as_lists l with
                | Some rs =>
                    let width := max_width rs in
                    match names with
                    | None =>
                        inr (mkFrame (positions width)
                                     (map (values_row (positions width)) rs))
                    | Some ns =>
                        if Nat.eqb (List.length ns) width
                        then inr (mkFrame ns (map (values_row ns) rs))
                        else inl ValueError
                    end
                | None =>
                    if forallb is_scalar l then
                      match names with
                      | None =>
                          inr (mkFrame (positions 1)
                                 (map (fun v => values_row (positions 1) [v]) l))
                      | Some ns =>
                          if Nat.eqb (List.length ns) 1
                          then inr (mkFrame ns (map (fun v => values_row ns [v]) l))
                          else inl ValueError
                      end
                    else DataFrame_other pd data names
                end
            end
        end
  | _ => DataFrame_other pd data names
  end.

(** The records a frame holds, read back row by row ([to_dict('records')]
    for string labels). *)
Definition row_record (r : row) : dict :=
  flat_map (fun e => match fst e with PStr s => [(s, snd e)] | _ => [] end) r.

Definition to_records (df : DataFrame) : list dict := map row_record (rows df).

(** *** What a frame built from records holds

    [pd.DataFrame] infers a type for each column from its values.  A column
    of numbers and nulls, with one of each at least, becomes [float64]: its
    nulls are held as NaN (and its whole numbers as floats of the same
    value).  In every other column a null is held as [None]: a column of
    nulls only, or one with a string, a boolean, a list or a mapping in it,
    is an [object] column that keeps what it is given.  The inference is
    modelled for columns whose numbers fit 64 bits; beyond, what pandas does
    depends on whether a number is an [int] or a [float], which [PNum] does
    not tell.  A frame does not tell a null from a field that was absent,
    which pandas holds as NaN in any column: the reading below is for frames
    built from records that all have every field. *)
Inductive held : Type :=
| Held (v : pyval)   (* the value as it is given, a number by its value *)
| HeldNaN.           (* [float('nan')] *)

Definition is_null (v : pyval) : bool :=
  match v with PNone => true | _ => false end.

(** An [int] or a [float]; a [bool] is neither here. *)
Definition is_int_or_float (v : pyval) : bool :=
  match v with PNum _ => true | _ => false end.

Definition fits_int64 (v : pyval) : bool :=
  match v with
  | PNum q =>
      Qle_bool (inject_Z (- 2 ^ 63)) q && Qle_bool q (inject_Z (2 ^ 63 - 1))
  | _ => true
  end.

(** The column has a null and a number, and nothing else. *)
Definition nulls_as_nan (values : list pyval) : bool :=
  existsb is_null values && existsb is_int_or_float values
  && forallb (fun v => is_null v || is_int_or_float v) values.

(** What the column of the given values holds for its cell [v]; [None]
    where the inference is not modelled. *)
Definition held_in (values : list pyval) (v : pyval) : option held :=
  if forallb fits_int64 values
  then Some (if is_null v && nulls_as_nan values then HeldNaN else Held v)
  else None.

(** [df[c]], the values of a column from the first row to the last. *)
Definition column_values (c : label) (df : DataFrame) : list pyval :=
  map (cell c) (rows df).

Fixpoint held_row (df : DataFrame) (r : row) : option (list (string * held)) :=
  match r with
  | [] => Some []
  | (PStr c, v) :: rest =>
      match held_in (column_values (PStr c) df) v, held_row df rest with
      | Some h, Some hs => Some ((c, h) :: hs)
      | _, _ => None
      end
  | _ :: rest => held_row df rest
  end.

Fixpoint all_some {A : Type} (l : list (option A)) : option (list A) :=
  match l with
  | [] => Some []
  | Some a :: rest =>
      match all_some rest with Some l' => Some (a :: l') | None => None end
  | None :: _ => None
  end.

(** The records the frame holds, row by row and field by field
    ([df.to_dict('records')] for string labels). *)
Definition frame_records (df : DataFrame)
  : option (list (list (string * held))) :=
  all_some (map (held_row df) (rows df)).

(** The records as they are given: every value held as it is. *)
Definition as_given (records : list dict) : list (list (string * held)) :=
  map (map (fun kv => (fst kv, Held (snd kv)))) records.

(** ** [clean_crash_data] *)

(** The outcome of the schema inspection at the head of the function:
    a frame to clean, or the early [return pd.DataFrame()]. *)
Inductive normalized : Type :=
| Resolved (df : DataFrame)
| Unresolved.

(** [[col['name'] for col in crashes['columns']]]; [None] when the
    comprehension raises [KeyError] or [TypeError]. *)
Fixpoint extract_names (cols : list pyval) : option (list pyval) :=
  match cols with
  | [] => Some []
  | PDict d :: rest =>
      match dict_get "name" d, extract_names rest with
      | Some n, Some ns => Some (n :: ns)
      | _, _ => None
      end
  | _ => None
  end.

Definition normalize (pd : pandas) (crashes : pyval) : M normalized :=
  match crashes with
  | PList l =>
      print (MsgDataIsList (List.length l)) ;;;
      df <- lift (DataFrame_new pd crashes None) ;;
      ret (Resolved df)
  | PDict d =>
      print (MsgDataIsDict (dict_keys d)) ;;;
      match dict_get "data" d with
      | Some data =>
          df <- lift (DataFrame_new pd data None) ;;
          ret (Resolved df)
      | None =>
          if dict_has "columns" d || dict_has "rows" d then
            print MsgOpenDataFormat ;;;
            match dict_get "rows" d with
            | Some (PList rs) =>
                print (MsgFoundRows (List.length rs)) ;;;
                column_names <-
                  match dict_get "columns" d with
                  | Some (PList cs) =>
                      match extract_names cs with
                      | Some ns => print (MsgFoundColumnNames ns) ;;; ret (Some ns)
                      | None => print MsgNoColumnNames ;;; ret None
                      end
                  | _ => ret None
                  end ;;
                df <- lift (DataFrame_new pd (PList rs) column_names) ;;
                ret (Resolved df)
            | _ => print ErrNoUsableRows ;;; ret Unresolved
            end
          else
            print ErrUnexpectedFormat ;;;
            print (MsgKeysFound (dict_keys d)) ;;;
            ret Unresolved
      end
  | _ => print ErrUnexpectedType ;;; ret Unresolved
  end.

Definition column_mapping : list (string * string) :=
  [ ("crash_date", "date");
    ("crash_time", "time");
    ("latitude", "lat");
    ("longitude", "lon");
    ("number_of_cyclist_injured", "cyclists_injured");
    ("number_of_cyclist_killed", "cyclists_killed");
    ("borough", "borough");
    ("zip_code", "zip");
    ("on_street_name", "street");
    ("cross_street_name", "cross_street");
    ("contributing_factor_vehicle_1", "factor1") ].

Definition required_columns : list string :=
  ["lat"; "lon"; "cyclists_injured"; "cyclists_killed"].

(** [{old: new for old, new in column_mapping.items() if old in df.columns}] *)
Definition rename_dict_of (df : DataFrame) : list (string * string) :=
  filter (fun e => has_col (PStr (fst e)) df) column_mapping.

(** The columns of [column_mapping] found in the frame are renamed. *)
Definition rename_columns (df : DataFrame) : DataFrame :=
  match rename_dict_of df with
  | [] => df
  | rename_dict => rename rename_dict df
  end.

Definition missing_columns (df : DataFrame) : list string :=
  filter (fun c => negb (has_col (PStr c) df)) required_columns.

(** [df[canonical] = df[alias]] under the guard of the source: the alias is
    a column and the canonical name is not. *)
Definition infer_column (alias canonical : string) (df : DataFrame)
  : M DataFrame :=
  if has_col (PStr alias) df && negb (has_col (PStr canonical) df) then
    print (MsgMapping alias canonical) ;;;
    if Nat.eqb (col_count (PStr alias) df) 1
    then ret (set_column (PStr canonical) (cell (PStr alias)) df)
    else raise ValueError
  else ret df.

Definition infer_missing (df : DataFrame) : M DataFrame :=
  match missing_columns df with
  | [] => ret df
  | missing =>
      print (WarnMissingColumns missing) ;;;
      df <- infer_column "latitude" "lat" df ;;
      df <- infer_column "longitude" "lon" df ;;
      df <- infer_column "number_of_cyclist_injured" "cyclists_injured" df ;;
      infer_column "number_of_cyclist_killed" "cyclists_killed" df
  end.

Definition report_still_missing (df : DataFrame) : M unit :=
  match missing_columns df with
  | [] => ret tt
  | missing =>
      print (ErrStillMissing missing) ;;;
      print MsgSampleHeader ;;;
      match rows df with
      | r :: _ => print (MsgSampleRow r)
      | [] => ret tt
      end
  end.

(** [pd.to_numeric(_, errors='coerce')] on one cell. *)
Definition coerce (pd : pandas) (v : pyval) : pyval :=
  match v with
  | PNum q => PNum q
  | PBool true => PNum 1
  | PBool false => PNum 0
  | PStr s => match str_to_numeric pd s with Some q => PNum q | None => PNone end
  | _ => PNone
  end.

(** [df[col] = pd.to_numeric(df[col], errors='coerce')] when the column is
    there; with a repeated label [df[col]] is a frame and [to_numeric]
    raises. *)
Definition to_numeric_column (pd : pandas) (col : string) (df : DataFrame)
  : M DataFrame :=
  if has_col (PStr col) df then
    if Nat.eqb (col_count (PStr col) df) 1
    then ret (mkFrame (columns df)
                      (map (row_map_at (PStr col) (coerce pd)) (rows df)))
    else raise TypeError
  else ret df.

Definition convert_numeric (pd : pandas) (df : DataFrame) : M DataFrame :=
  df <- to_numeric_column pd "lat" df ;;
  df <- to_numeric_column pd "lon" df ;;
  df <- to_numeric_column pd "cyclists_injured" df ;;
  to_numeric_column pd "cyclists_killed" df.

(** [x > 0] on a cell: false on a missing one. *)
Definition positive (v : pyval) : bool :=
  match number_of v with
  | Some q => negb (Qle_bool q 0)
  | None => false
  end.

(** [df[(df['cyclists_injured'] > 0) | (df['cyclists_killed'] > 0)]] *)
Definition filter_cyclists (df : DataFrame) : M DataFrame :=
  if negb (has_col (PStr "cyclists_injured") df)
  then raise (KeyError (PStr "cyclists_injured"))
  else if negb (has_col (PStr "cyclists_killed") df)
  then raise (KeyError (PStr "cyclists_killed"))
  else ret (mkFrame (columns df)
              (filter (fun r => positive (cell (PStr "cyclists_injured") r)
                                || positive (cell (PStr "cyclists_killed") r))
                      (rows df))).

Definition is_missing (v : pyval) : bool :=
  match v with PNone => true | _ => false end.

(** [df.dropna(subset=['lat', 'lon'])] *)
Definition dropna_lat_lon (df : DataFrame) : M DataFrame :=
  match filter (fun c => negb (has_col (PStr c) df)) ["lat"; "lon"] with
  | [] =>
      ret (mkFrame (columns df)
             (filter (fun r => negb (is_missing (cell (PStr "lat") r))
                               && negb (is_missing (cell (PStr "lon") r)))
                     (rows df)))
  | absent => raise (KeyError (PList (map PStr absent)))
  end.

(** The sum of two numeric cells as numbers, without the wrap-around or
    the rounding of a column sum: missing when either is. *)
Definition add_cells (a b : pyval) : pyval :=
  match number_of a, number_of b with
  | Some x, Some y => PNum (x + y)
  | _, _ => PNone
  end.

Definition total_of (r : row) : pyval :=
  add_cells (cell (PStr "cyclists_injured") r) (cell (PStr "cyclists_killed") r).

(** [df[c] = values] for a column of values: the row of index [i] takes
    the value of index [i]. *)
Definition put_column (c : label) (values : list pyval) (rs : list row)
  : list row :=
  map (fun ir => row_set c (nth (fst ir) values PNone) (snd ir))
      (combine (seq 0 (List.length rs)) rs).

(** [df['total_cyclist_casualties'] = df['cyclists_injured'] +
    df['cyclists_killed']] *)
Definition add_total (pd : pandas) (df : DataFrame) : DataFrame :=
  let c := PStr "total_cyclist_casualties" in
  mkFrame (if has_col c df then columns df else columns df ++ [c])
          (put_column c
             (series_add pd (map (cell (PStr "cyclists_injured")) (rows df))
                            (map (cell (PStr "cyclists_killed")) (rows df)))
             (rows df)).

(** Replace the cells of the one column labelled [c] by [vs], row by row. *)
Fixpoint assign_rows (c : label) (vs : list pyval) (rs : list row) {struct rs}
  : list row :=
  match rs, vs with
  | r :: rs', v :: vs' => row_map_at c (fun _ => v) r :: assign_rows c vs' rs'
  | _, _ => rs
  end.

(** The dates are parsed when there is a [date] column; a failure is
    reported and leaves the column as it was. *)
Definition convert_dates (pd : pandas) (df : DataFrame) : M DataFrame :=
  if has_col (PStr "date") df then
    if Nat.eqb (col_count (PStr "date") df) 1 then
      match to_datetime pd (map (cell (PStr "date")) (rows df)) with
      | Some vs =>
          if Nat.eqb (List.length vs) (frame_len df)
          then ret (mkFrame (columns df) (assign_rows (PStr "date") vs (rows df)))
          else print WarnDates ;;; ret df
      | None => print WarnDates ;;; ret df
      end
    else print WarnDates ;;; ret df
  else ret df.

(** The function from the renaming on, for a frame the inspection resolved. *)
Definition clean_frame (pd : pandas) (df : DataFrame) : M DataFrame :=
  let df := rename_columns df in
  print (MsgAvailableColumns (columns df)) ;;;
  df <- infer_missing df ;;
  report_still_missing df ;;;
  df <- convert_numeric pd df ;;
  df <- filter_cyclists df ;;
  df <- dropna_lat_lon df ;;
  let df := add_total pd df in
  df <- convert_dates pd df ;;
  print (MsgCleaned (frame_len df)) ;;;
  ret df.

Definition clean_crash_data (pd : pandas) (crashes : pyval) : M DataFrame :=
  print MsgCleaning ;;;
  n <- normalize pd crashes ;;
  match n with
  | Unresolved => ret empty_frame
  | Resolved df => clean_frame pd df
  end.

(** ** [analyze_proximity] *)

(** A nearest distance: a real number of meters, or [float('inf')]. *)
Inductive dist : Type :=
| Finite (r : R)
| Infinity.

(** The crash table as [analyze_proximity] sees and updates it.  The column
    [distance_to_nearest_station] holds distances, not JSON values, so it is
    kept beside the table: [None] until the column is assigned, and from
    then on it is the column of that name. *)
Record crash_frame : Type := mkCrashes {
  table : DataFrame;
  distance_to_nearest_station : option (list dist)
}.

(** The frame [clean_crash_data] hands over. *)
Definition cleaned (df : DataFrame) : crash_frame := mkCrashes df None.

Definition valid_station (s : dict) : bool :=
  dict_has "lat" s && dict_has "lon" s
  && is_number (item "lat" s) && is_number (item "lon" s).

Definition valid_stations (stations : list dict) : list dict :=
  filter valid_station stations.

(** [crash[c]] on a row of the frame: a scalar, or a sub-series when the
    label repeats. *)
Inductive looked_up : Type :=
| Scalar (v : pyval)
| Several.

Definition crash_item (df : DataFrame) (crash : row) (c : string)
  : exn + looked_up :=
  match col_count (PStr c) df with
  | O => inl (KeyError (PStr c))
  | S O => inr (Scalar (cell (PStr c) crash))
  | _ => inr Several
  end.

(** The float [radians] works on: [None] stands for NaN, the missing cell of
    a numeric column. *)
Definition to_float (x : looked_up) : exn + option R :=
  match x with
  | Scalar PNone => inr None
  | Scalar v =>
      match number_of v with
      | Some q => inr (Some (Q2R q))
      | None => inl TypeError
      end
  | Several => inl TypeError
  end.

Definition ebind {E A B : Type} (r : E + A) (f : A -> E + B) : E + B :=
  match r with
  | inl e => inl e
  | inr a => f a
  end.

(** The floating-point arithmetic of [haversine] is taken as given: what
    a call returns on four numbers, or the exception it raises:
    [ValueError] (math domain error) when rounding has taken the argument
    of [sqrt] below 0 or that of [asin] above 1, [OverflowError] when
    [radians] meets an [int] too large for a float.  The function
    [haversine] above is the same lines read over the real numbers. *)
Record floats : Type := {
  float_haversine : R -> R -> R -> R -> exn + R
}.

(** [haversine] on floats that may be NaN: with a NaN among the arguments
    every step gives NaN and nothing is raised. *)
Definition haversine_nan (fl : floats) (lon1 lat1 lon2 lat2 : option R)
  : exn + option R :=
  match lon1, lat1, lon2, lat2 with
  | Some a, Some b, Some c, Some d =>
      match float_haversine fl a b c d with
      | inr m => inr (Some m)
      | inl e => inl e
      end
  | _, _, _, _ => inr None
  end.

(** [haversine(crash['lon'], crash['lat'], station['lon'], station['lat'])] *)
Definition station_distance (fl : floats) (df : DataFrame) (crash : row)
    (station : dict) : exn + option R :=
  ebind (crash_item df crash "lon") (fun clon =>
  ebind (crash_item df crash "lat") (fun clat =>
  ebind (to_float clon) (fun lon1 =>
  ebind (to_float clat) (fun lat1 =>
  ebind (to_float (Scalar (item "lon" station))) (fun lon2 =>
  ebind (to_float (Scalar (item "lat" station))) (fun lat2 =>
  haversine_nan fl lon1 lat1 lon2 lat2)))))).

(** [if distance < closest_distance: closest_distance = distance]; a
    comparison with NaN is false. *)
Definition closer (distance : option R) (closest_distance : dist) : dist :=
  match distance, closest_distance with
  | Some d, Infinity => Finite d
  | Some d, Finite c => if Rlt_dec d c then Finite d else Finite c
  | None, _ => closest_distance
  end.

(** The inner loop over the valid stations. *)
Fixpoint scan_stations (fl : floats) (df : DataFrame) (crash : row)
    (valid : list dict) (closest_distance : dist) : exn + dist :=
  match valid with
  | [] => inr closest_distance
  | station :: rest =>
      ebind (station_distance fl df crash station) (fun distance =>
      scan_stations fl df crash rest (closer distance closest_distance))
  end.

(** The outer loop over the crashes. *)
Fixpoint scan_crashes (fl : floats) (df : DataFrame) (crashes : list row)
    (valid : list dict) : exn + list dist :=
  match crashes with
  | [] => inr []
  | crash :: rest =>
      ebind (scan_stations fl df crash valid Infinity) (fun closest_distance =>
      ebind (scan_crashes fl df rest valid) (fun distances =>
      inr (closest_distance :: distances)))
  end.

(** [(column <= meters).sum()] *)
Definition within (meters : nat) (distances : list dist) : nat :=
  List.length
    (filter (fun d => match d with
                      | Finite r => if Rle_dec r (INR meters) then true else false
                      | Infinity => false
                      end) distances).

(** The result pairs the crash table after the call with the value the
    call returns ([None] for the bare [return]).  An exception can only
    come before the column is assigned, so it leaves the table as it was. *)
Definition analyze_proximity (fl : floats) (crashes_df : crash_frame)
    (stations : list dict) : M (crash_frame * option crash_frame) :=
  print MsgProximityHeader ;;;
  match valid_stations stations with
  | [] => print MsgNoValidStations ;;; ret (crashes_df, None)
  | valid =>
      distances <-
        lift (scan_crashes fl (table crashes_df) (rows (table crashes_df))
                valid) ;;
      let crashes_df := mkCrashes (table crashes_df) (Some distances) in
      print MsgAverageDistance ;;;
      print MsgMedianDistance ;;;
      let total := frame_len (table crashes_df) in
      print (MsgWithin 100 (within 100 distances) total) ;;;
      print (MsgWithin 250 (within 250 distances) total) ;;;
      print (MsgWithin 500 (within 500 distances) total) ;;;
      ret (crashes_df, Some crashes_df)
  end.

(** The coordinate of a valid station, as a real number. *)
Definition coordinate (k : string) (station : dict) : R :=
  match number_of (item k station) with
  | Some q => Q2R q
  | None => 0%R
  end.

(** The distance from the crash at ([lon], [lat]) to a station, over the
    real numbers. *)
Definition distance_to (lon lat : R) (station : dict) : R :=
  haversine lon lat (coordinate "lon" station) (coordinate "lat" station).

(** What the call of [haversine] returns or raises for the crash at
    ([lon], [lat]) and a station. *)
Definition measured (fl : floats) (lon lat : R) (station : dict) : exn + R :=
  float_haversine fl lon lat (coordinate "lon" station)
                  (coordinate "lat" station).

(** [d] is the least of the distances returned for the crash at ([lon],
    [lat]) and the stations of [valid]: the call returns for every station,
    it returns [d] for one of them and nothing less for any. *)
Definition least_distance (fl : floats) (lon lat : R) (valid : list dict)
    (d : R) : Prop :=
  (exists s, In s valid /\ measured fl lon lat s = inr d)
  /\ (forall s, In s valid ->
        exists m, measured fl lon lat s = inr m /\ (d <= m)%R).

(** The order on nearest distances, [float('inf')] being the greatest. *)
Definition dist_le (a b : dist) : Prop :=
  match a, b with
  | _, Infinity => True
  | Infinity, Finite _ => False
  | Finite x, Finite y => (x <= y)%R
  end.

(** The row of a cleaned crash carries its nearest distance. *)
Definition nearest_recorded (fl : floats) (valid : list dict) (crash : row)
    (d : dist) : Prop :=
  exists lon lat m,
    cell (PStr "lon") crash = PNum lon /\ cell (PStr "lat") crash = PNum lat
    /\ d = Finite m /\ least_distance fl (Q2R lon) (Q2R lat) valid m.

(** The call of [haversine] raises [e] for the crash of the row and some
    station of [valid]. *)
Definition haversine_raises (fl : floats) (valid : list dict) (e : exn)
    (crash : row) : Prop :=
  exists s lon lat,
    In s valid
    /\ cell (PStr "lon") crash = PNum lon /\ cell (PStr "lat") crash = PNum lat
    /\ measured fl (Q2R lon) (Q2R lat) s = inl e.

(** [n] of the distances are at most [meters]: the count of a band, one
    crash after the other, each against the threshold itself. *)
Inductive band_count (meters : nat) : list dist -> nat -> Prop :=
| band_none : band_count meters [] 0
| band_in (r : R) (ds : list dist) (n : nat) :
    (r <= INR meters)%R -> band_count meters ds n ->
    band_count meters (Finite r :: ds) (S n)
| band_out (r : R) (ds : list dist) (n : nat) :
    ~ (r <= INR meters)%R -> band_count meters ds n ->
    band_count meters (Finite r :: ds) n
| band_unreached (ds : list dist) (n : nat) :
    band_count meters ds n -> band_count meters (Infinity :: ds) n.

(** ** An instance of the library, to run the model on concrete data *)

(** Strings of decimal digits read as numbers, dates are kept as they are,
    data outside the modelled shapes is refused, and sums are exact. *)
Definition digits_to_numeric (s : string) : option Q :=
  match s with
  | EmptyString => None
  | _ =>
      match NilEmpty.uint_of_string s with
      | Some u => Some (inject_Z (Z.of_uint u))
      | None => None
      end
  end.

Definition pandas_digits : pandas := {|
  str_to_numeric := digits_to_numeric;
  DataFrame_other := fun _ _ => inl ValueError;
  to_datetime := fun vs => Some vs;
  series_add := fun xs ys =>
    map (fun xy => add_cells (fst xy) (snd xy)) (combine xs ys)
|}.

(** Floats without rounding: [haversine] as the real numbers give it. *)
Definition exact_floats : floats := {|
  float_haversine := fun lon1 lat1 lon2 lat2 =>
    inr (haversine lon1 lat1 lon2 lat2)
|}.

(** Floats that differ from the real numbers in one call, that of the
    crash at longitude 0, latitude 90.1 and the station at longitude 180,
    latitude 89.9: in double precision [a] comes out there as -4.2e-22, and
    [sqrt] raises [ValueError]. *)
Definition polar_floats : floats := {|
  float_haversine := fun lon1 lat1 lon2 lat2 =>
    if Req_dec_T lon1 (Q2R 0) then
      if Req_dec_T lat1 (Q2R 90.1) then
        if Req_dec_T lon2 (Q2R 180) then
          if Req_dec_T lat2 (Q2R 89.9) then inl ValueError
          else inr (haversine lon1 lat1 lon2 lat2)
        else inr (haversine lon1 lat1 lon2 lat2)
      else inr (haversine lon1 lat1 lon2 lat2)
    else inr (haversine lon1 lat1 lon2 lat2)
|}.

(** ** Predicates on inputs, rows and frames *)

(** [cyclists_injured + cyclists_killed > 0] on a row, the sum being that
    of the two counts as numbers. *)
Definition casualties_positive (r : row) : bool := positive (total_of r).

(** The shapes the schema inspection is described as recognizing: a
    sequence of mappings, a mapping with a [data] key, a mapping with both
    [columns] and [rows]. *)
Definition is_dict (v : pyval) : bool :=
  match v with PDict _ => true | _ => false end.

Definition recognized_shape (v : pyval) : bool :=
  match v with
  | PList l => forallb is_dict l
  | PDict d => dict_has "data" d || (dict_has "columns" d && dict_has "rows" d)
  | _ => false
  end.

(** The inputs the inspection gives up on: neither a list nor a mapping,
    or a mapping with no [data] key and no list under [rows]. *)
Definition unresolvable (v : pyval) : bool :=
  match v with
  | PList _ => false
  | PDict d =>
      negb (dict_has "data" d)
      && negb (match dict_get "rows" d with Some (PList _) => true | _ => false end)
  | _ => true
  end.

(** One of the three error lines of the inspection is in the output. *)
Definition reports_schema_error (out : list message) : Prop :=
  In ErrUnexpectedType out \/ In ErrUnexpectedFormat out \/ In ErrNoUsableRows out.

(** A uniform sequence of mappings: every record has the same distinct
    keys in the same order. *)
Definition canonical (records : list dict) : Prop :=
  exists keys, NoDup keys /\ Forall (fun d => dict_keys d = keys) records.

(** No field of the records has a null beside numbers only, and the
    numbers of every field fit 64 bits. *)
Definition no_null_beside_numbers (records : list dict) : bool :=
  forallb (fun k => forallb fits_int64 (map (item k) records)
                    && negb (nulls_as_nan (map (item k) records)))
          (union_keys records).

(** What cleaning leaves in a row: numeric coordinates and a positive
    count of injured or of killed cyclists. *)
Definition numeric_or_missing (v : pyval) : Prop :=
  v = PNone \/ exists q, v = PNum q.

Record cleaned_row (r : row) : Prop := {
  row_lat : exists q, cell (PStr "lat") r = PNum q;
  row_lon : exists q, cell (PStr "lon") r = PNum q;
  row_casualty :
    positive (cell (PStr "cyclists_injured") r)
    || positive (cell (PStr "cyclists_killed") r) = true
}.

(** Every cell of the column is a number or missing. *)
Definition numeric_cells (c : string) (df : DataFrame) : Prop :=
  Forall (fun r => numeric_or_missing (cell (PStr c) r)) (rows df).

(** The two rows agree on every cell but the dates. *)
Definition same_cells (r r' : row) : Prop :=
  forall c, key_eqb c (PStr "date") = false -> cell c r' = cell c r.

(** The two rows agree on every cell but those labelled [c]. *)
Definition same_but (c : label) (r r' : row) : Prop :=
  forall c', key_eqb c' c = false -> cell c' r' = cell c' r.

(** ** Sample data *)

Definition example_info : list dict :=
  [ [("station_id", PStr "72"); ("name", PStr "W 52 St"); ("capacity", PNum 39);
     ("last_updated", PNum 1)];
    [("station_id", PStr "79"); ("name", PStr "Franklin St"); ("capacity", PNum 33)] ].

Definition example_status : list dict :=
  [ [("station_id", PStr "72"); ("num_bikes_available", PNum 5);
     ("last_updated", PNum 2)];
    [("station_id", PStr "83"); ("num_bikes_available", PNum 1)] ].

Definition example_combined : list dict :=
  [ [("station_id", PStr "72"); ("name", PStr "W 52 St"); ("capacity", PNum 39);
     ("last_updated", PNum 2); ("num_bikes_available", PNum 5)] ].

(** Two records with one field: a null, then a number. *)
Definition example_null_records : list dict :=
  [ [("y", PNone)]; [("y", PNum 3)] ].

Definition example_null_frame : DataFrame :=
  mkFrame [PStr "y"] [ [(PStr "y", PNone)]; [(PStr "y", PNum 3)] ].

Definition example_mixed_records : list dict :=
  [ [("lat", PNum 40); ("lon", PNum (-74)); ("borough", PNone)];
    [("lat", PStr "n/a"); ("lon", PNum (-73)); ("borough", PStr "QUEENS")] ].

Definition example_crashes : pyval :=
  PList
    [ PDict [("crash_date", PStr "2024-03-01"); ("latitude", PStr "40");
             ("longitude", PNum (-74)); ("number_of_cyclist_injured", PNum 1);
             ("number_of_cyclist_killed", PNum 0)];
      PDict [("crash_date", PStr "2024-03-02"); ("latitude", PNum 40.01);
             ("longitude", PNum (-74)); ("number_of_cyclist_injured", PNum 0);
             ("number_of_cyclist_killed", PNum 0)] ].

(** The two stations and the crash of the end-to-end scenario. *)
Definition example_stations : list dict :=
  [ [("station_id", PStr "a"); ("lat", PNum 40); ("lon", PNum (-74));
     ("capacity", PNum 10)];
    [("station_id", PStr "b"); ("lat", PNum 40.01); ("lon", PNum (-74));
     ("capacity", PNum 20)] ].

(** The row [clean_crash_data] keeps of [example_crashes]. *)
Definition example_cleaned_row : row :=
  [ (PStr "date", PStr "2024-03-01"); (PStr "lat", PNum 40);
    (PStr "lon", PNum (-74)); (PStr "cyclists_injured", PNum 1);
    (PStr "cyclists_killed", PNum 0); (PStr "total_cyclist_casualties", PNum 1) ].

Definition example_cleaned_frame : DataFrame :=
  mkFrame
    [ PStr "date"; PStr "lat"; PStr "lon"; PStr "cyclists_injured";
      PStr "cyclists_killed"; PStr "total_cyclist_casualties" ]
    [ example_cleaned_row ].

(** The scan of [example_stations] for the crash of
    [example_cleaned_frame], and the table and output it leads to. *)
Definition example_distances : list dist :=
  [ fold_left
      (fun closest station =>
         closer (Some (distance_to (Q2R (-74)) (Q2R 40) station)) closest)
      example_stations Infinity ].

Definition example_annotated : crash_frame :=
  mkCrashes example_cleaned_frame (Some example_distances).

Definition example_report : list message :=
  [ MsgProximityHeader; MsgAverageDistance; MsgMedianDistance;
    MsgWithin 100 (within 100 example_distances) 1;
    MsgWithin 250 (within 250 example_distances) 1;
    MsgWithin 500 (within 500 example_distances) 1 ].

(** A crash beyond the pole and a station at the same place, named from
    the other side. *)
Definition example_polar_frame : DataFrame :=
  mkFrame
    [ PStr "lat"; PStr "lon"; PStr "cyclists_injured"; PStr "cyclists_killed";
      PStr "total_cyclist_casualties" ]
    [ [ (PStr "lat", PNum 90.1); (PStr "lon", PNum 0);
        (PStr "cyclists_injured", PNum 1); (PStr "cyclists_killed", PNum 0);
        (PStr "total_cyclist_casualties", PNum 1) ] ].

Definition example_polar_crashes : pyval :=
  PList
    [ PDict [("lat", PNum 90.1); ("lon", PNum 0);
             ("cyclists_injured", PNum 1); ("cyclists_killed", PNum 0)] ].

Definition example_polar_stations : list dict :=
  [ [("station_id", PStr "p"); ("lat", PNum 89.9); ("lon", PNum 180)] ].

(** Stations without usable coordinates: a string for a latitude, no
    longitude. *)
Definition example_unusable_stations : list dict :=
  [ [("station_id", PStr "a"); ("lat", PStr "40.0"); ("lon", PNum (-74))];
    [("station_id", PStr "b"); ("lat", PNum 40.01)] ].

(** Two crashes with one injured cyclist or more: the first with a
    negative count of killed cyclists, the second with a null one. *)
Definition example_odd_counts : pyval :=
  PList
    [ PDict [("lat", PNum 40.7); ("lon", PNum (-74));
             ("cyclists_injured", PNum 1); ("cyclists_killed", PNum (-1))];
      PDict [("lat", PNum 40.7); ("lon", PNum (-74));
             ("cyclists_injured", PNum 2); ("cyclists_killed", PNone)] ].

(** A crash that comes with both [lat] and its alias [latitude]. *)
Definition example_both_names : pyval :=
  PList
    [ PDict [("lat", PNum 40.7); ("latitude", PNum 40.8); ("lon", PNum (-74));
             ("cyclists_injured", PNum 1); ("cyclists_killed", PNum 0)] ].

(** ** Predicates on the station join *)

(** The status record has a truthy identifier that some information record
    carries: the records the join keeps. *)
Definition matched (info_stations : list dict) (status : dict) : bool :=
  truthy (item "station_id" status)
  && existsb (fun i => match dict_get "station_id" i with
                       | Some v => key_eqb (item "station_id" status) v
                       | None => false
                       end) info_stations.

(** The loop appends, for each status record in turn, its merge when the
    identifier is truthy and known. *)
Definition combine_step (info : id_dict) (status : dict) : list dict :=
  if truthy (item "station_id" status) then
    match id_get (item "station_id" status) info with
    | Some station => [dict_merge station status]
    | None => []
    end
  else [].

(** A second information record for station 72, listed after the first. *)
Definition example_newer_info : dict :=
  [("station_id", PStr "72"); ("name", PStr "W 52 St & 11 Ave");
   ("capacity", PNum 55)].

(** ** Predicates on the cleaner's input and output *)

(** The name a field has after the renaming. *)
Definition canonical_name (k : string) : string :=
  match find (fun e => String.eqb k (fst e)) column_mapping with
  | Some e => snd e
  | None => k
  end.

(** How many of the keys end up under the name [c], and the first that
    does. *)
Definition name_count (ks : list string) (c : string) : nat :=
  List.length (filter (fun k => String.eqb c (canonical_name k)) ks).

Definition source (ks : list string) (c : string) : string :=
  match find (fun k => String.eqb c (canonical_name k)) ks with
  | Some k => k
  | None => c
  end.

(** The numeric reading of the field of a record that ends up under [c]. *)
Definition coerced (pd : pandas) (ks : list string) (c : string) (d : dict)
  : pyval :=
  coerce pd (item (source ks c) d).

(** The records the two filters let through. *)
Definition kept (pd : pandas) (ks : list string) (d : dict) : bool :=
  (positive (coerced pd ks "cyclists_injured" d)
   || positive (coerced pd ks "cyclists_killed" d))
  && (negb (is_missing (coerced pd ks "lat" d))
      && negb (is_missing (coerced pd ks "lon" d))).

(** The row of the cleaned frame that comes from a record. *)
Definition cleaned_from (pd : pandas) (ks : list string) (d : dict) (r : row)
  : Prop :=
  cell (PStr "lat") r = coerced pd ks "lat" d
  /\ cell (PStr "lon") r = coerced pd ks "lon" d
  /\ cell (PStr "cyclists_injured") r = coerced pd ks "cyclists_injured" d
  /\ cell (PStr "cyclists_killed") r = coerced pd ks "cyclists_killed" d.

(** The four numeric conversions on one row. *)
Definition coerce_row (pd : pandas) (r : row) : row :=
  row_map_at (PStr "cyclists_killed") (coerce pd)
    (row_map_at (PStr "cyclists_injured") (coerce pd)
       (row_map_at (PStr "lon") (coerce pd)
          (row_map_at (PStr "lat") (coerce pd) r))).

(** The two filters on one converted row. *)
Definition row_kept (r : row) : bool :=
  (positive (cell (PStr "cyclists_injured") r)
   || positive (cell (PStr "cyclists_killed") r))
  && (negb (is_missing (cell (PStr "lat") r))
      && negb (is_missing (cell (PStr "lon") r))).

(** Two records under the names of the open-data export, and two without
    any count of cyclists. *)
Definition example_crash_records : list dict :=
  [ [("crash_date", PStr "2024-03-01"); ("latitude", PStr "40");
     ("longitude", PNum (-74)); ("number_of_cyclist_injured", PNum 1);
     ("number_of_cyclist_killed", PNum 0)];
    [("crash_date", PStr "2024-03-02"); ("latitude", PNum 40.01);
     ("longitude", PNum (-74)); ("number_of_cyclist_injured", PNum 0);
     ("number_of_cyclist_killed", PNum 0)] ].

Definition example_no_counts : list dict :=
  [ [("latitude", PNum 40); ("longitude", PNum (-74))];
    [("latitude", PNum 40.01); ("longitude", PNum (-74))] ].

(** A table in the form of the open-data export: a list of column
    descriptions and a list of rows. *)
Definition example_export : dict :=
  [ ("columns",
     PList [ PDict [("name", PStr "latitude")];
             PDict [("name", PStr "longitude")];
             PDict [("name", PStr "number_of_cyclist_injured")];
             PDict [("name", PStr "number_of_cyclist_killed")] ]);
    ("rows",
     PList [ PList [PStr "40"; PNum (-74); PNum 1; PNum 0];
             PList [PNum 40.01; PNum (-74); PNum 0; PNum 0] ]) ].

(** The same with a row of five values under four names. *)
Definition example_wide_export : dict :=
  [ ("columns",
     PList [ PDict [("name", PStr "latitude")];
             PDict [("name", PStr "longitude")];
             PDict [("name", PStr "number_of_cyclist_injured")];
             PDict [("name", PStr "number_of_cyclist_killed")] ]);
    ("rows",
     PList [ PList [PStr "40"; PNum (-74); PNum 1; PNum 0; PStr "Brooklyn"];
             PList [PNum 40.01; PNum (-74); PNum 0; PNum 0] ]) ].

(** ** Loading the documents *)

(** How a call can fail: with one of the exceptions above, with another
    exception, named by its class, or with one outside [Exception]. *)
Inductive failure : Type :=
| Raised (e : exn)
| Failed (kind : string)
| Interrupted.

(** What the request of a URL gives ([requests.get], [raise_for_status]
    and [response.json()]): the decoded document, a [RequestException], or
    another exception. *)
Inductive fetched : Type :=
| Fetched (data : pyval)
| RequestFailed
| FetchRaised (f : failure).

(** What [open] and [json.load] give for a path: the decoded document,
    [FileNotFoundError], [json.JSONDecodeError], or another exception. *)
Inductive file_read : Type :=
| FileLoaded (data : pyval)
| FileNotFound
| InvalidJSON
| ReadRaised (f : failure).

Record sources : Type := {
  http_get : string -> fetched;
  read_json : string -> file_read
}.

Inductive load_message : Type :=
| MsgFetchingCrashes (url : string)
| MsgFetchedCrashes (n : nat)
| ErrFetchingCrashes
| MsgLoadingCrashFile (path : string)
| MsgLoadedCrashes (n : nat)
| MsgLoadingStations (path : string)
| MsgLoadedStations (n : nat)
| MsgLoadingCombined (path : string)
| MsgLoadedCombined (n : nat)
| ErrFileNotFound (path : string)
| ErrInvalidJSON (path : string)
| ErrLoading.

(** A loader prints and then returns a value or fails. *)
Definition L (A : Type) : Type := list load_message * (failure + A).

(** The lines printed first, then the computation. *)
Definition after {A : Type} (out : list load_message) (m : L A) : L A :=
  (out ++ fst m, snd m).

(** [len(v)] *)
Definition py_len (v : pyval) : exn + nat :=
  match v with
  | PList l => inr (List.length l)
  | PDict d => inr (List.length d)
  | PStr s => inr (String.length s)
  | _ => inl TypeError
  end.

(** [print(f"... {len(data)} ..."); return data] *)
Definition loaded (report : nat -> load_message) (data : pyval) : L pyval :=
  match py_len data with
  | inr n => ([report n], inr data)
  | inl e => ([], inl (Raised e))
  end.

(** [if path:] on an optional string. *)
Definition given (path : option string) : option string :=
  match path with
  | Some s => if String.eqb s "" then None else Some s
  | None => None
  end.

(** The second half of [load_crash_data]: the local file. *)
Definition load_crash_file (w : sources) (file_path : option string) : L pyval :=
  match given file_path with
  | Some path =>
      after [MsgLoadingCrashFile path]
        match read_json w path with
        | FileLoaded data => loaded MsgLoadedCrashes data
        | FileNotFound => ([ErrFileNotFound path], inr PNone)
        | InvalidJSON => ([ErrInvalidJSON path], inr PNone)
        | ReadRaised f => ([], inl f)
        end
  | None => ([], inr PNone)
  end.

Definition load_crash_data (w : sources) (api_url file_path : option string)
  : L pyval :=
  match given api_url with
  | Some url =>
      after [MsgFetchingCrashes url]
        match http_get w url with
        | Fetched data => loaded MsgFetchedCrashes data
        | RequestFailed => after [ErrFetchingCrashes] (load_crash_file w file_path)
        | FetchRaised f => ([], inl f)
        end
  | None => load_crash_file w file_path
  end.

Definition load_citibike_data (w : sources) (file_path : string) : L pyval :=
  after [MsgLoadingStations file_path]
    match read_json w file_path with
    | FileLoaded data => loaded MsgLoadedStations data
    | FileNotFound => ([ErrFileNotFound file_path], inr PNone)
    | InvalidJSON => ([ErrInvalidJSON file_path], inr PNone)
    | ReadRaised f => ([], inl f)
    end.

(** [load_combined_data] of the analyzer: the same, with a last handler
    for every [Exception]. *)
Definition caught (m : L pyval) : L pyval :=
  match snd m with
  | inl Interrupted => m
  | inl _ => (fst m ++ [ErrLoading], inr PNone)
  | inr _ => m
  end.

Definition load_combined_data (w : sources) (file_path : string) : L pyval :=
  after [MsgLoadingCombined file_path]
    match read_json w file_path with
    | FileLoaded data => caught (loaded MsgLoadedCombined data)
    | FileNotFound => ([ErrFileNotFound file_path], inr PNone)
    | InvalidJSON => ([ErrInvalidJSON file_path], inr PNone)
    | ReadRaised f => caught ([], inl f)
    end.

(** A world in which the request fails and one file holds a number. *)
Definition example_sources : sources := {|
  http_get := fun _ => RequestFailed;
  read_json := fun path =>
    if String.eqb path "crashes.json" then FileLoaded example_crashes
    else if String.eqb path "count.json" then FileLoaded (PNum 42)
    else FileNotFound
|}.

(** A world in which the request is answered and no file can be read. *)
Definition example_online : sources := {|
  http_get := fun _ => Fetched example_crashes;
  read_json := fun _ => ReadRaised (Failed "PermissionError")
|}.

(** ** The station analyzer *)

(** The stations are the mappings of the combined file.  Numbers are exact
    here as everywhere else: sums and quotients are not rounded.  Python's
    numbers are ints without bound and floats up to about 1.8e308: an int
    too large for a float raises [OverflowError] where it is added to a
    float or divided, and a float result beyond the range is [inf].  The
    model does not follow such numbers.  An addition or a division with an
    operand or an exact result outside [-2^1000, 2^1000] ends the run as
    [OutOfRange], which stands for whatever the code does from there;
    within these bounds, well inside the range of floats, the code differs
    from the model by rounding only. *)
Definition float_bound : Q := inject_Z (2 ^ 1000).

Definition in_range (q : Q) : bool :=
  Qle_bool (- float_bound) q && Qle_bool q float_bound.

(** Why a run stops: an exception, or a number the model does not
    follow. *)
Inductive halt : Type :=
| Raises (e : exn)
| OutOfRange.

(** [d.get(k, default)] *)
Definition get_or (k : string) (default : pyval) (d : dict) : pyval :=
  match dict_get k d with Some v => v | None => default end.

Inductive station_message : Type :=
| MsgNetworkHeader
| MsgTotalStations (n : nat)
| MsgActiveStations (n : nat)
| MsgTotalCapacity (q : Q)
| MsgRegularBikes (q : Q)
| MsgEBikes (q : Q)
| MsgTotalBikes (q : Q)
| MsgTotalDocks (q : Q)
| MsgAverageCapacity (q : Q)
| MsgMostBikes (name bikes : pyval)
| MsgLeastBikes (name bikes : pyval)
| MsgMostUtilized (name : pyval) (percent : Q)
| MsgLeastUtilized (name : pyval) (percent : Q)
| MsgRegionsHeader
| MsgRegion (region_id : pyval) (count : nat)
| MsgNothingToPlot
| MsgPlotting (n : nat)
| MsgNothingToMap
| MsgCreatingMap (n : nat).

(** [sum(s.get(k, 0) for s in stations)], from the running total [acc]:
    adding anything but a number raises, and a term or a running total out
    of range is not followed. *)
Fixpoint sum_field (k : string) (stations : list dict) (acc : Q) : halt + Q :=
  match stations with
  | [] => inr acc
  | s :: rest =>
      match number_of (get_or k (PNum 0) s) with
      | Some q =>
          if in_range q && in_range (acc + q)
          then sum_field k rest (acc + q)
          else inl OutOfRange
      | None => inl (Raises TypeError)
      end
  end.

(** The four sums at the head of [analyze_stations], in the order of the
    code. *)
Definition network_totals (stations : list dict) : halt + (Q * Q * Q * Q) :=
  ebind (sum_field "capacity" stations 0) (fun total_capacity =>
  ebind (sum_field "num_bikes_available" stations 0) (fun total_bikes =>
  ebind (sum_field "num_ebikes_available" stations 0) (fun total_ebikes =>
  ebind (sum_field "num_docks_available" stations 0) (fun total_docks =>
  inr (total_capacity, total_bikes, total_ebikes, total_docks))))).

(** [s.get('is_installed', 1) == 1] and the like. *)
Definition installed (s : dict) : bool :=
  key_eqb (get_or "is_installed" (PNum 1) s) (PNum 1).

Definition renting (s : dict) : bool :=
  key_eqb (get_or "is_renting" (PNum 1) s) (PNum 1).

Definition in_service (s : dict) : bool := installed s && renting s.

(** [s.get(k, 0)] where it is a number: the sums have gone through when
    this is used. *)
Definition field_number (k : string) (s : dict) : Q :=
  match number_of (get_or k (PNum 0) s) with
  | Some q => q
  | None => 0
  end.

(** [max(l, key=...)] and [min(l, key=...)] on a list that is not empty:
    the first of the greatest, the first of the least. *)
Fixpoint first_max (key : dict -> Q) (best : dict) (rest : list dict) : dict :=
  match rest with
  | [] => best
  | s :: rest' =>
      first_max key (if negb (Qle_bool (key s) (key best)) then s else best) rest'
  end.

Fixpoint first_min (key : dict -> Q) (best : dict) (rest : list dict) : dict :=
  match rest with
  | [] => best
  | s :: rest' =>
      first_min key (if negb (Qle_bool (key best) (key s)) then s else best) rest'
  end.

(** The value the loop stores under [utilization]. *)
Definition utilization_of (s : dict) : pyval :=
  if negb (Qle_bool (field_number "capacity" s) 0)
  then PNum (field_number "num_bikes_available" s / field_number "capacity" s)
  else PNum 0.

Definition with_utilization (s : dict) : dict :=
  dict_set "utilization" (utilization_of s) s.

(** The quotient of the loop, where there is one, is within range. *)
Definition utilization_in_range (s : dict) : bool :=
  if negb (Qle_bool (field_number "capacity" s) 0)
  then in_range (field_number "num_bikes_available" s
                 / field_number "capacity" s)
  else true.

(** What the loop does to a station of the network: those in service are
    the ones it runs over. *)
Definition store_utilization (s : dict) : dict :=
  if in_service s then with_utilization s else s.

(** [regions[region_id] += 1], with the entry made first when it is new. *)
Fixpoint count_region (r : pyval) (regions : list (pyval * nat))
  : list (pyval * nat) :=
  match regions with
  | [] => [(r, 1%nat)]
  | (k, n) :: rest =>
      if key_eqb r k then (k, S n) :: rest else (k, n) :: count_region r rest
  end.

Fixpoint count_regions (stations : list dict) (regions : list (pyval * nat))
  : exn + list (pyval * nat) :=
  match stations with
  | [] => inr regions
  | s :: rest =>
      let region_id := get_or "region_id" (PStr "Unknown") s in
      if hashable region_id
      then count_regions rest (count_region region_id regions)
      else inl TypeError
  end.

(** [sorted(regions.items(), key=lambda x: x[1], reverse=True)]: by
    falling count, equal counts in the order of the dictionary. *)
Fixpoint insert_by_count (x : pyval * nat) (l : list (pyval * nat))
  : list (pyval * nat) :=
  match l with
  | [] => [x]
  | y :: l' =>
      if Nat.leb (snd y) (snd x) then x :: y :: l' else y :: insert_by_count x l'
  end.

Definition sorted_by_count (l : list (pyval * nat)) : list (pyval * nat) :=
  fold_right insert_by_count [] l.

(** What a call leaves behind: the lines printed, the stations, which the
    call updates in place, and why it stopped if it did not return.  For a
    run that ends as [OutOfRange] the lines and the stations are not told:
    they are given as they were before the call. *)
Record analysis : Type := mkAnalysis {
  printed : list station_message;
  stations_after : list dict;
  raised : option halt
}.

(** The lines about the stations in service, and the stations with their
    utilization stored.  The fields read here are numbers within range:
    the sums have gone through. *)
Definition service_report (stations : list dict)
  : halt + (list station_message * list dict) :=
  match filter in_service stations with
  | [] => inr ([], stations)
  | first :: rest =>
      if forallb utilization_in_range (first :: rest) then
        let bikes := field_number "num_bikes_available" in
        let most_bikes := first_max bikes first rest in
        let least_bikes := first_min bikes first rest in
        let stored := field_number "utilization" in
        let first' := with_utilization first in
        let rest' := map with_utilization rest in
        let most_utilized := first_max stored first' rest' in
        let least_utilized := first_min stored first' rest' in
        inr ([ MsgMostBikes (get_or "name" (PStr "Unknown") most_bikes)
                            (get_or "num_bikes_available" (PNum 0) most_bikes);
               MsgLeastBikes (get_or "name" (PStr "Unknown") least_bikes)
                             (get_or "num_bikes_available" (PNum 0) least_bikes);
               MsgMostUtilized (get_or "name" (PStr "Unknown") most_utilized)
                               (stored most_utilized * 100);
               MsgLeastUtilized (get_or "name" (PStr "Unknown") least_utilized)
                                (stored least_utilized * 100) ],
             map store_utilization stations)
      else inl OutOfRange
  end.

(** The lines about the regions. *)
Definition region_report (stations : list dict)
  : exn + list station_message :=
  if existsb (dict_has "region_id") stations then
    match count_regions stations [] with
    | inr regions =>
        inr (MsgRegionsHeader
             :: map (fun e => MsgRegion (fst e) (snd e)) (sorted_by_count regions))
    | inl e => inl e
    end
  else inr [].

(** The difference of two totals and the average are within the range of
    floats once the totals are within the bounds: the average is a total
    over a count of one at least. *)
Definition analyze_stations (stations : list dict) : analysis :=
  match network_totals stations with
  | inr (total_capacity, total_bikes, total_ebikes, total_docks) =>
      let total_stations := List.length stations in
      let active_stations := List.length (filter installed stations) in
      let totals :=
        [ MsgNetworkHeader;
          MsgTotalStations total_stations;
          MsgActiveStations active_stations;
          MsgTotalCapacity total_capacity;
          MsgRegularBikes (total_bikes - total_ebikes);
          MsgEBikes total_ebikes;
          MsgTotalBikes total_bikes;
          MsgTotalDocks total_docks ]
        ++ (if Nat.ltb 0 active_stations
            then [MsgAverageCapacity
                    (total_capacity / inject_Z (Z.of_nat active_stations))]
            else []) in
      match service_report stations with
      | inr (service, stations') =>
          match region_report stations' with
          | inr regions =>
              mkAnalysis (totals ++ service ++ regions) stations' None
          | inl e => mkAnalysis (totals ++ service) stations' (Some (Raises e))
          end
      | inl h => mkAnalysis [] stations (Some h)
      end
  | inl h => mkAnalysis [] stations (Some h)
  end.

(** *** The data of the two maps *)

(** [v > 0] *)
Definition py_positive (v : pyval) : halt + bool :=
  match number_of v with
  | Some q => inr (negb (Qle_bool q 0))
  | None => inl (Raises TypeError)
  end.

(** [a / b] for a divisor that is not zero: anything but two numbers
    raises, and numbers or a quotient out of range are not followed. *)
Definition py_div (a b : pyval) : halt + Q :=
  match number_of a, number_of b with
  | Some x, Some y =>
      if in_range x && in_range y && in_range (x / y)
      then inr (x / y)
      else inl OutOfRange
  | _, _ => inl (Raises TypeError)
  end.

(** [bikes / capacity if capacity > 0 else 0] *)
Definition checked_utilization (s : dict) : halt + Q :=
  let capacity := get_or "capacity" (PNum 0) s in
  let bikes := get_or "num_bikes_available" (PNum 0) s in
  ebind (py_positive capacity) (fun positive_capacity =>
  if positive_capacity then py_div bikes capacity else inr 0).

Definition availability_colour (u : Q) : string :=
  if negb (Qle_bool u (7 # 10)) then "green"
  else if negb (Qle_bool (3 # 10) u) then "red"
  else "orange".

(** [max(20, station.get('capacity', 10) / 2)] *)
Definition marker_size (s : dict) : halt + Q :=
  ebind (py_div (get_or "capacity" (PNum 10) s) (PNum 2)) (fun half =>
  inr (if negb (Qle_bool half 20) then half else 20)).

Fixpoint traverse {E A B : Type} (f : A -> E + B) (l : list A) : E + list B :=
  match l with
  | [] => inr []
  | a :: rest =>
      ebind (f a) (fun b => ebind (traverse f rest) (fun bs => inr (b :: bs)))
  end.

(** What [plot_stations] hands to [plt.scatter]. *)
Record scatter : Type := mkScatter {
  lons : list pyval;
  lats : list pyval;
  colors : list string;
  sizes : list Q
}.

Definition plotted (s : dict) : bool := installed s && valid_station s.

Definition plot_marker (s : dict) : halt + (string * Q) :=
  ebind (checked_utilization s) (fun u =>
  ebind (marker_size s) (fun size =>
  inr (availability_colour u, size))).

(** [plot_stations] up to the drawing: [None] for the bare [return]. *)
Definition plot_data (stations : list dict)
  : list station_message * (halt + option scatter) :=
  match filter plotted stations with
  | [] => ([MsgNothingToPlot], inr None)
  | valid =>
      ([MsgPlotting (List.length valid)],
       ebind (traverse plot_marker valid) (fun markers =>
       inr (Some (mkScatter (map (item "lon") valid) (map (item "lat") valid)
                            (map fst markers) (map snd markers)))))
  end.

(** One entry of [map_data]. *)
Definition map_entry (s : dict) : halt + dict :=
  let capacity := get_or "capacity" (PNum 0) s in
  let bikes_available := get_or "num_bikes_available" (PNum 0) s in
  let is_active := in_service s in
  ebind (checked_utilization s) (fun u =>
  let status_color :=
    if negb is_active then "gray"%string else availability_colour u in
  inr [ ("name", get_or "name" (PStr "Unknown Station") s);
        ("lat", item "lat" s);
        ("lon", item "lon" s);
        ("id", get_or "station_id" (PStr "Unknown") s);
        ("bikes", bikes_available);
        ("ebikes", get_or "num_ebikes_available" (PNum 0) s);
        ("docks", get_or "num_docks_available" (PNum 0) s);
        ("capacity", capacity);
        ("status", PStr (if is_active then "Active" else "Inactive"));
        ("color", PStr status_color) ]).

(** [create_interactive_map] of the analyzer up to the page: the list
    written into it, [None] for the bare [return]. *)
Definition map_data (stations : list dict)
  : list station_message * (halt + option (list dict)) :=
  match valid_stations stations with
  | [] => ([MsgNothingToMap], inr None)
  | valid =>
      ([MsgCreatingMap (List.length valid)],
       ebind (traverse map_entry valid) (fun entries => inr (Some entries)))
  end.

(** Three stations: one in service, one not installed, one without
    coordinates and with a region. *)
Definition example_network : list dict :=
  [ [("station_id", PStr "72"); ("name", PStr "W 52 St"); ("lat", PNum 40.767);
     ("lon", PNum (-73.993)); ("capacity", PNum 40);
     ("num_bikes_available", PNum 30); ("num_ebikes_available", PNum 4);
     ("num_docks_available", PNum 10)];
    [("station_id", PStr "79"); ("name", PStr "Franklin St"); ("lat", PNum 40.719);
     ("lon", PNum (-74.006)); ("capacity", PNum 30);
     ("num_bikes_available", PNum 3); ("is_installed", PNum 0)];
    [("station_id", PStr "82"); ("name", PStr "St James Pl");
     ("capacity", PNum 20); ("num_bikes_available", PNum 10);
     ("region_id", PStr "71")] ].

(** A station whose capacity is a string. *)
Definition example_bad_capacity : list dict :=
  [ [("station_id", PStr "72"); ("lat", PNum 40.767); ("lon", PNum (-73.993));
     ("capacity", PStr "40"); ("num_bikes_available", PNum 30)] ].

(** *** Predicates on the stations *)

Definition count_fields : list string :=
  ["capacity"; "num_bikes_available"; "num_ebikes_available";
   "num_docks_available"].

(** The four fields that are summed are numbers, where they are there. *)
Definition countable (s : dict) : Prop :=
  forall k, In k count_fields -> is_number (get_or k (PNum 0) s) = true.

Definition region_of (s : dict) : pyval := get_or "region_id" (PStr "Unknown") s.

(** The fields of a station apart from the stored utilization. *)
Definition same_fields (s s' : dict) : Prop :=
  forall k, k <> "utilization"%string -> dict_get k s' = dict_get k s.

(** What the analysis leaves in a station. *)
Definition utilization_stored (s s' : dict) : Prop :=
  if in_service s
  then dict_get "utilization" s' = Some (utilization_of s) /\ same_fields s s'
  else s' = s.

(** The number stored for a station in service. *)
Definition stored_utilization (s : dict) : Q :=
  field_number "utilization" (with_utilization s).

Definition bikes_available (s : dict) : Q :=
  field_number "num_bikes_available" s.

Definition station_name (s : dict) : pyval := get_or "name" (PStr "Unknown") s.

(** The number of stations in a region, and the count a table of regions
    holds for one. *)
Definition stations_in (stations : list dict) (region : pyval) : nat :=
  List.length (filter (fun s => key_eqb (region_of s) region) stations).

Definition region_count (regions : list (pyval * nat)) (region : pyval) : nat :=
  match find (fun e => key_eqb region (fst e)) regions with
  | Some e => snd e
  | None => 0%nat
  end.

(** No two entries of a table are for the same key. *)
Definition distinct_regions (regions : list (pyval * nat)) : Prop :=
  ForallOrdPairs (fun a b => key_eqb (fst a) (fst b) = false) regions
  /\ Forall (fun e => hashable (fst e) = true) regions.

(** A station the two maps cannot colour: its capacity is not a number,
    or it is positive and the bikes are not a number. *)
Definition uncoloured (s : dict) : bool :=
  negb (is_number (get_or "capacity" (PNum 0) s))
  || (positive (get_or "capacity" (PNum 0) s)
      && negb (is_number (get_or "num_bikes_available" (PNum 0) s))).

(** An entry of the map and the station it is for. *)
Definition mapped (s entry : dict) : Prop :=
  dict_keys entry
  = ["name"; "lat"; "lon"; "id"; "bikes"; "ebikes"; "docks"; "capacity";
     "status"; "color"]
  /\ item "lat" entry = item "lat" s /\ is_number (item "lat" entry) = true
  /\ item "lon" entry = item "lon" s /\ is_number (item "lon" entry) = true
  /\ item "id" entry = get_or "station_id" (PStr "Unknown") s
  /\ item "status" entry = PStr (if in_service s then "Active" else "Inactive")
  /\ (item "color" entry = PStr "gray" <-> in_service s = false).

(** What the plot is drawn from, for stations that are plotted. *)
Definition drawn (stations : list dict) (plot : scatter) : Prop :=
  lons plot = map (item "lon") stations
  /\ lats plot = map (item "lat") stations
  /\ List.length (colors plot) = List.length stations
  /\ List.length (sizes plot) = List.length stations
  /\ Forall (fun c => In c ["green"; "red"; "orange"]%string) (colors plot)
  /\ Forall (fun size => (20 <= size)%Q) (sizes plot).

(** The data of the two maps for the three stations. *)
Definition example_map_entries : list dict :=
  Eval cbv in
    match snd (map_data example_network) with
    | inr (Some entries) => entries
    | _ => []
    end.

Definition example_plot : scatter :=
  Eval cbv in
    match snd (plot_data example_network) with
    | inr (Some plot) => plot
    | _ => mkScatter [] [] [] []
    end.

(** * Properties *)

(** ** The distance formula *)

Section Haversine.

Local Open Scope R_scope.

Lemma sin_half_swap (x y : R) : sin ((x - y) / 2) ^ 2 = sin ((y - x) / 2) ^ 2.
Proof.
  replace ((x - y) / 2) with (- ((y - x) / 2)) by lra.
  rewrite sin_neg. ring.
Qed.

Lemma haversine_formula (lon1 lat1 lon2 lat2 : R) :
  haversine lon1 lat1 lon2 lat2 = great_circle_m lat1 lon1 lat2 lon2.
Proof.
  unfold haversine, great_circle_m, earth_radius_km. cbv zeta. ring.
Qed.

Lemma haversine_sym (a b c d : R) : haversine a b c d = haversine c d a b.
Proof.
  unfold haversine. cbv zeta.
  rewrite (sin_half_swap (radians d) (radians b)).
  rewrite (sin_half_swap (radians c) (radians a)).
  rewrite (Rmult_comm (cos (radians b)) (cos (radians d))).
  reflexivity.
Qed.

Lemma haversine_same (lon lat : R) : haversine lon lat lon lat = 0.
Proof.
  unfold haversine. cbv zeta.
  replace (radians lat - radians lat) with 0 by ring.
  replace (radians lon - radians lon) with 0 by ring.
  replace (0 / 2) with 0 by lra.
  rewrite sin_0.
  replace (0 ^ 2 + cos (radians lat) * cos (radians lat) * 0 ^ 2) with 0 by ring.
  rewrite sqrt_0, asin_0. ring.
Qed.

(** Two decimals past the classical 3.14159 bounds, from the Machin-like
    series 2 atan(1/3) + atan(1/7). *)
Lemma PI_lower : 3.1415923 < PI.
Proof.
  pose proof (PI_2_3_7_ineq 3) as [Hlo _].
  unfold sum_f_R0, tg_alt, PI_2_3_7_tg, Ratan_seq in Hlo.
  change (2 * 3)%nat with 6%nat in Hlo.
  cbn [Nat.mul Nat.add] in Hlo.
  rewrite ?S_INR in Hlo. cbn [INR] in Hlo.
  lra.
Qed.

Lemma PI_upper : PI < 3.1415928.
Proof.
  pose proof (PI_2_3_7_ineq 3) as [_ Hhi].
  unfold sum_f_R0, tg_alt, PI_2_3_7_tg, Ratan_seq in Hhi.
  change (2 * 3)%nat with 6%nat in Hhi.
  cbn [Nat.mul Nat.add] in Hhi.
  rewrite ?S_INR in Hhi. cbn [INR] in Hhi.
  lra.
Qed.

(** From (0, 0) to latitude 90 on the same meridian: a quarter of a great
    circle. *)
Lemma haversine_quarter : haversine 0 0 0 90 = PI / 2 * 6371000.
Proof.
  unfold haversine, radians. cbv zeta.
  replace (0 * (PI / 180)) with 0 by ring.
  replace ((90 * (PI / 180) - 0) / 2) with (PI / 4) by lra.
  replace ((0 - 0) / 2) with 0 by lra.
  replace (90 * (PI / 180)) with (PI / 2) by lra.
  rewrite sin_PI4, sin_0, cos_0, cos_PI2.
  assert (Hs : 0 < sqrt 2) by (apply sqrt_lt_R0; lra).
  replace ((1 / sqrt 2) ^ 2 + 1 * 0 * 0 ^ 2) with (/ (sqrt 2 * sqrt 2))
    by (field; lra).
  rewrite sqrt_sqrt by lra.
  rewrite sqrt_inv, asin_inv_sqrt2. lra.
Qed.

(** C2. [haversine] is the stated great-circle formula on a sphere of
    radius 6371 km, in meters; it is 0 between a point and itself (here the
    point 40.7128, -74.0060), it is symmetric in its two points, and from
    (0, 0) to (0, 90) it is within one meter of 10007543 m. *)
Theorem C2_haversine_formula_zero_symmetric_quarter :
  (forall lon1 lat1 lon2 lat2 : R,
      haversine lon1 lat1 lon2 lat2 = great_circle_m lat1 lon1 lat2 lon2)
  /\ haversine 40.7128 (-74.0060) 40.7128 (-74.0060) = 0
  /\ (forall a b c d : R, haversine a b c d = haversine c d a b)
  /\ Rabs (haversine 0 0 0 90 - 10007543) < 1.
Proof.
  split; [exact haversine_formula|].
  split; [apply haversine_same|].
  split; [exact haversine_sym|].
  rewrite haversine_quarter.
  pose proof PI_lower. pose proof PI_upper.
  apply Rabs_def1; lra.
Qed.

End Haversine.

(** ** Dictionaries *)

Lemma dict_get_set_same (k : string) (v : pyval) (d : dict) :
  dict_get k (dict_set k v d) = Some v.
Proof.
  induction d as [|[k' v'] d IH]; simpl.
  - now rewrite String.eqb_refl.
  - destruct (String.eqb k k') eqn:E; simpl; rewrite E; auto.
Qed.

Lemma dict_get_set_other (k k' : string) (v : pyval) (d : dict) :
  k <> k' -> dict_get k' (dict_set k v d) = dict_get k' d.
Proof.
  intros Hne. induction d as [|[k0 v0] d IH]; simpl.
  - destruct (String.eqb k' k) eqn:E; auto.
    apply String.eqb_eq in E. congruence.
  - destruct (String.eqb k k0) eqn:E; simpl.
    + apply String.eqb_eq in E. subst k0.
      destruct (String.eqb k' k) eqn:E'; auto.
      apply String.eqb_eq in E'. congruence.
    + now rewrite IH.
Qed.

Lemma dict_get_In (k : string) (v : pyval) (d : dict) :
  dict_get k d = Some v -> In (k, v) d.
Proof.
  induction d as [|[k' v'] d IH]; simpl; [discriminate|].
  destruct (String.eqb k k') eqn:E.
  - apply String.eqb_eq in E. intros [= ->]. subst. now left.
  - intros H. right. auto.
Qed.

Lemma dict_get_None_notin (k : string) (d : dict) :
  dict_get k d = None -> ~ In k (dict_keys d).
Proof.
  induction d as [|[k' v'] d IH]; simpl; [tauto|].
  destruct (String.eqb k k') eqn:E; [discriminate|].
  apply String.eqb_neq in E. intros H [Heq|Hin]; [congruence|].
  now apply IH.
Qed.

(** Updating with the items of a mapping: its values win, the other keys
    keep theirs. *)
Lemma dict_get_merge (k : string) (a b : dict) :
  NoDup (dict_keys b) ->
  dict_get k (dict_merge a b) =
  match dict_get k b with
  | Some v => Some v
  | None => dict_get k a
  end.
Proof.
  unfold dict_merge. revert a.
  induction b as [|[k' v'] b IH]; intros a Hnd; simpl; [reflexivity|].
  inversion Hnd as [|? ? Hnotin Hnd']; subst.
  rewrite IH by assumption.
  destruct (String.eqb k k') eqn:E.
  - apply String.eqb_eq in E. subst k'.
    destruct (dict_get k b) eqn:G.
    + apply dict_get_In in G. exfalso. apply Hnotin.
      unfold dict_keys. change k with (fst (k, p)). now apply in_map.
    + apply dict_get_set_same.
  - apply String.eqb_neq in E.
    destruct (dict_get k b); [reflexivity|].
    apply dict_get_set_other. congruence.
Qed.

(** ** Equality of keys *)

Lemma key_eqb_sym (a b : pyval) : key_eqb a b = key_eqb b a.
Proof.
  destruct a as [|[]| | | |], b as [|[]| | | |]; simpl;
    try reflexivity; try apply Qeq_bool_comm; apply String.eqb_sym.
Qed.

Lemma key_eqb_trans (a b c : pyval) :
  key_eqb a b = true -> key_eqb b c = true -> key_eqb a c = true.
Proof.
  destruct a as [|[]| | | |], b as [|[]| | | |], c as [|[]| | | |]; simpl;
    try discriminate; try reflexivity;
    try (intros H1 H2; apply (Qeq_bool_trans _ _ _ H1 H2));
    try (intros H1 H2; apply String.eqb_eq in H1; apply String.eqb_eq in H2;
         apply String.eqb_eq; congruence).
Qed.

Lemma key_eqb_refl (a : pyval) : hashable a = true -> key_eqb a a = true.
Proof.
  destruct a as [|[]| | | |]; simpl; try discriminate; intros _;
    try reflexivity; try apply Qeq_bool_refl; apply String.eqb_refl.
Qed.

Lemma key_eqb_hashable (a b : pyval) : key_eqb a b = true -> hashable b = true.
Proof.
  destruct a as [|[]| | | |], b as [|[]| | | |]; simpl; try discriminate; reflexivity.
Qed.

Lemma Qeq_bool_zero_compat (x y : Q) :
  (x == y)%Q -> Qeq_bool x 0 = Qeq_bool y 0.
Proof.
  intros H.
  destruct (Qeq_bool x 0) eqn:Ex, (Qeq_bool y 0) eqn:Ey; auto.
  - apply Qeq_bool_iff in Ex. apply Qeq_bool_neq in Ey.
    exfalso. apply Ey. now rewrite <- H.
  - apply Qeq_bool_iff in Ey. apply Qeq_bool_neq in Ex.
    exfalso. apply Ex. now rewrite H.
Qed.

(** Equal keys are both true or both false as conditions. *)
Lemma truthy_key_eqb (a b : pyval) :
  key_eqb a b = true -> truthy a = truthy b.
Proof.
  destruct a as [|[]| | | |], b as [|[]| | | |]; simpl;
    try discriminate; try reflexivity; intros H;
    try (apply String.eqb_eq in H; now subst);
    apply Qeq_bool_iff in H; apply Qeq_bool_zero_compat in H;
    first [rewrite H; reflexivity | rewrite <- H; reflexivity].
Qed.

(** ** The station join *)

Lemma id_get_set (q k : pyval) (v : dict) (d : id_dict) :
  id_get q (id_set k v d) = if key_eqb q k then Some v else id_get q d.
Proof.
  induction d as [|[k' v'] d IH]; simpl; [reflexivity|].
  destruct (key_eqb k k') eqn:Ekk; simpl.
  - destruct (key_eqb q k') eqn:Eqk.
    + rewrite key_eqb_sym in Ekk.
      now rewrite (key_eqb_trans _ _ _ Eqk Ekk).
    + destruct (key_eqb q k) eqn:Eq; [|reflexivity].
      now rewrite (key_eqb_trans _ _ _ Eq Ekk) in Eqk.
  - rewrite IH. destruct (key_eqb q k') eqn:Eqk; [|reflexivity].
    destruct (key_eqb q k) eqn:Eq; [|reflexivity].
    rewrite key_eqb_sym in Eq.
    now rewrite (key_eqb_trans _ _ _ Eq Eqk) in Ekk.
Qed.

(** What is found under an identifier is a record of the feed with that
    identifier. *)
Lemma station_info_dict_sound (info : list dict) :
  forall (acc d : id_dict) (q : pyval) (st : dict),
    station_info_dict info acc = inr d ->
    id_get q d = Some st ->
    (In st info /\
     exists v, dict_get "station_id" st = Some v /\ key_eqb q v = true)
    \/ id_get q acc = Some st.
Proof.
  induction info as [|station rest IH]; intros acc d q st Hd Hq; simpl in Hd.
  - injection Hd as <-. now right.
  - destruct (dict_get "station_id" station) as [sid|] eqn:Hsid; [|discriminate].
    destruct (hashable sid); [|discriminate].
    destruct (IH _ _ _ _ Hd Hq) as [[Hin Hv]|Hacc].
    + left. split; [now right | exact Hv].
    + rewrite id_get_set in Hacc.
      destruct (key_eqb q sid) eqn:E; [|now right].
      injection Hacc as <-. left. split; [now left|]. now exists sid.
Qed.

Lemma station_info_dict_complete (info : list dict) :
  forall (acc d : id_dict) (q : pyval),
    station_info_dict info acc = inr d ->
    has_station q info \/ id_get q acc <> None ->
    id_get q d <> None.
Proof.
  induction info as [|station rest IH]; intros acc d q Hd Hq; simpl in Hd.
  - injection Hd as <-. destruct Hq as [(s & v & [] & _)|Hq]. exact Hq.
  - destruct (dict_get "station_id" station) as [sid|] eqn:Hsid; [|discriminate].
    destruct (hashable sid); [|discriminate].
    apply (IH _ _ _ Hd).
    rewrite id_get_set.
    destruct Hq as [(s & v & [Hs|Hs] & Hv & Hk)|Hq].
    + subst s. right. rewrite Hsid in Hv. injection Hv as <-.
      now rewrite Hk.
    + left. now exists s, v.
    + right. destruct (key_eqb q sid); [discriminate | exact Hq].
Qed.

Lemma station_info_dict_total (info : list dict) :
  forall acc : id_dict,
    Forall (fun i => exists v, dict_get "station_id" i = Some v
                               /\ hashable v = true) info ->
    exists d, station_info_dict info acc = inr d.
Proof.
  induction info as [|station rest IH]; intros acc Hall; simpl.
  - now exists acc.
  - inversion Hall as [|? ? (v & Hv & Hh) Hrest]; subst.
    rewrite Hv, Hh. now apply IH.
Qed.

(** A record of the result was there before the loop or is the merge of a
    status record with the information record of its identifier. *)
Lemma combine_loop_sound (info : id_dict) (sts : list dict) :
  forall (acc res : list dict) (c : dict),
    combine_loop info sts acc = inr res ->
    In c res ->
    In c acc \/
    exists s i, In s sts /\ truthy (item "station_id" s) = true
                /\ id_get (item "station_id" s) info = Some i
                /\ c = dict_merge i s.
Proof.
  induction sts as [|status rest IH]; intros acc res c Hres Hc; simpl in Hres.
  - injection Hres as <-. now left.
  - destruct (truthy (item "station_id" status)) eqn:Ht.
    + destruct (hashable (item "station_id" status)); [|discriminate].
      destruct (id_get (item "station_id" status) info) as [station|] eqn:Hg.
      * destruct (IH _ _ _ Hres Hc) as [Hacc|(s & i & Hs & H)].
        -- apply in_app_or in Hacc. destruct Hacc as [Hacc|[<-|[]]]; [now left|].
           right. exists status, station. repeat split; auto. now left.
        -- right. exists s, i. split; [now right | exact H].
      * destruct (IH _ _ _ Hres Hc) as [Hacc|(s & i & Hs & H)]; [now left|].
        right. exists s, i. split; [now right | exact H].
    + destruct (IH _ _ _ Hres Hc) as [Hacc|(s & i & Hs & H)]; [now left|].
      right. exists s, i. split; [now right | exact H].
Qed.

Lemma combine_loop_complete (info : id_dict) (sts : list dict) :
  forall (acc res : list dict),
    combine_loop info sts acc = inr res ->
    (forall c, In c acc -> In c res)
    /\ (forall s i, In s sts -> truthy (item "station_id" s) = true ->
                    id_get (item "station_id" s) info = Some i ->
                    In (dict_merge i s) res).
Proof.
  induction sts as [|status rest IH]; intros acc res Hres; simpl in Hres.
  - injection Hres as <-. split; [auto | intros s i []].
  - destruct (truthy (item "station_id" status)) eqn:Ht.
    + destruct (hashable (item "station_id" status)); [|discriminate].
      destruct (id_get (item "station_id" status) info) as [station|] eqn:Hg;
        destruct (IH _ _ Hres) as [Hkeep Hnew]; split.
      * intros c Hc. apply Hkeep, in_or_app. now left.
      * intros s i [<-|Hs] Hts Hgs.
        -- rewrite Hg in Hgs. injection Hgs as <-.
           apply Hkeep, in_or_app. right. now left.
        -- now apply Hnew.
      * exact Hkeep.
      * intros s i [<-|Hs] Hts Hgs; [congruence | now apply Hnew].
    + destruct (IH _ _ Hres) as [Hkeep Hnew]. split; [exact Hkeep|].
      intros s i [<-|Hs] Hts Hgs; [congruence | now apply Hnew].
Qed.

Lemma combine_loop_total (info : id_dict) (sts : list dict) :
  forall acc : list dict,
    Forall (fun s => hashable (item "station_id" s) = true) sts ->
    exists res, combine_loop info sts acc = inr res.
Proof.
  induction sts as [|status rest IH]; intros acc Hall; simpl.
  - now exists acc.
  - inversion Hall as [|? ? Hh Hrest]; subst.
    rewrite Hh.
    destruct (truthy (item "station_id" status)); [|now apply IH].
    destruct (id_get (item "station_id" status) info); now apply IH.
Qed.

(** A truthy identifier is the value of the key, not the default. *)
Lemma truthy_item (k : string) (s : dict) :
  truthy (item k s) = true -> dict_get k s = Some (item k s).
Proof.
  unfold item. destruct (dict_get k s); [reflexivity | discriminate].
Qed.

Lemma status_feed_ok_mappings (status : list dict) :
  status_feed_ok status -> mappings status.
Proof.
  unfold status_feed_ok, mappings. intros H.
  apply Forall_impl with (2 := H). now intros s [Hnd _].
Qed.

Lemma status_feed_ok_hashable (status : list dict) :
  status_feed_ok status ->
  Forall (fun s => hashable (item "station_id" s) = true) status.
Proof.
  unfold status_feed_ok. intros H.
  apply Forall_impl with (2 := H). now intros s [_ Hh].
Qed.

Lemma overlay_merge (i s : dict) :
  NoDup (dict_keys s) -> overlay i s (dict_merge i s).
Proof. intros Hnd k. now apply dict_get_merge. Qed.

(** The records of the join, one by one. *)
Lemma combined_stations_sound (info status combined : list dict) (c : dict) :
  combined_stations info status = inr combined ->
  In c combined ->
  exists i s, In i info /\ In s status
              /\ truthy (item "station_id" s) = true
              /\ same_station i s /\ c = dict_merge i s.
Proof.
  unfold combined_stations.
  destruct (station_info_dict info []) as [e|d] eqn:Hd; [discriminate|].
  intros Hc Hin.
  destruct (combine_loop_sound _ _ _ _ _ Hc Hin) as [[]|(s & i & Hs & Ht & Hg & ->)].
  destruct (station_info_dict_sound _ _ _ _ _ Hd Hg) as [[Hi (v & Hv & Hk)]|Hacc];
    [|discriminate].
  exists i, s. repeat split; auto.
  exists v, (item "station_id" s). repeat split; auto using truthy_item.
Qed.

Lemma combined_stations_complete (info status combined : list dict) (s : dict) :
  combined_stations info status = inr combined ->
  In s status ->
  truthy (item "station_id" s) = true ->
  has_station (item "station_id" s) info ->
  exists i, In i info /\ same_station i s /\ In (dict_merge i s) combined.
Proof.
  unfold combined_stations.
  destruct (station_info_dict info []) as [e|d] eqn:Hd; [discriminate|].
  intros Hc Hs Ht Hinfo.
  assert (Hg : id_get (item "station_id" s) d <> None)
    by (apply (station_info_dict_complete _ _ _ _ Hd); now left).
  destruct (id_get (item "station_id" s) d) as [i|] eqn:Hi; [|congruence].
  destruct (station_info_dict_sound _ _ _ _ _ Hd Hi) as [[Hin (v & Hv & Hk)]|Hacc];
    [|discriminate].
  exists i. repeat split; auto.
  - exists v, (item "station_id" s). repeat split; auto using truthy_item.
  - now apply (proj2 (combine_loop_complete _ _ _ _ Hc)).
Qed.

(** C5 (amended). On feeds the join accepts, the combined dataset has a
    record for an identifier exactly when the identifier is in both feeds
    and is truthy (not empty, not zero, not null); an identifier of one
    feed only has no combined record. *)
Theorem C5_join_truthy_identifiers_of_both_feeds :
  forall info status : list dict,
    info_feed_ok info -> status_feed_ok status ->
    exists combined,
      combined_stations info status = inr combined
      /\ forall sid : pyval,
          has_station sid combined <->
          truthy sid = true /\ has_station sid info /\ has_station sid status.
Proof.
  intros info status Hinfo Hstatus.
  pose proof (status_feed_ok_mappings _ Hstatus) as Hmap.
  assert (Hrun : exists combined, combined_stations info status = inr combined).
  { unfold combined_stations.
    destruct (station_info_dict_total info [] Hinfo) as [d ->].
    apply combine_loop_total. now apply status_feed_ok_hashable. }
  destruct Hrun as [combined Hc]. exists combined. split; [exact Hc|].
  intros sid. split.
  - intros (c & v & Hin & Hv & Hk).
    destruct (combined_stations_sound _ _ _ _ Hc Hin)
      as (i & s & Hi & Hs & Ht & (vi & w & Hvi & Hw & Hwi) & ->).
    assert (Hnd : NoDup (dict_keys s))
      by (unfold mappings in Hmap; rewrite Forall_forall in Hmap; auto).
    rewrite (dict_get_merge _ _ _ Hnd), Hw in Hv. injection Hv as <-.
    rewrite (truthy_item _ _ Ht) in Hw. injection Hw as Hw.
    repeat split.
    + rewrite (truthy_key_eqb _ _ Hk). now rewrite <- Hw.
    + exists i, vi. repeat split; auto. exact (key_eqb_trans _ _ _ Hk Hwi).
    + exists s, w. repeat split; auto. rewrite <- Hw. now apply truthy_item.
  - intros (Ht & (i & vi & Hi & Hvi & Hki) & (s & w & Hs & Hw & Hkw)).
    assert (Hitem : item "station_id" s = w) by (unfold item; now rewrite Hw).
    assert (Htw : truthy (item "station_id" s) = true)
      by (rewrite Hitem, <- (truthy_key_eqb _ _ Hkw); exact Ht).
    assert (Hinfo' : has_station (item "station_id" s) info).
    { exists i, vi. repeat split; auto. rewrite Hitem.
      apply key_eqb_trans with sid; [now rewrite key_eqb_sym | exact Hki]. }
    destruct (combined_stations_complete _ _ _ _ Hc Hs Htw Hinfo')
      as (i' & _ & _ & Hin).
    assert (Hnd : NoDup (dict_keys s))
      by (unfold mappings in Hmap; rewrite Forall_forall in Hmap; auto).
    exists (dict_merge i' s), w. repeat split; auto.
    now rewrite (dict_get_merge _ _ _ Hnd), Hw.
Qed.

(** C10. In a combined record, a field the status record has carries the
    status value, and a field only the information record has carries the
    information value; every status record with a truthy identifier of the
    information feed gives such a record. *)
Theorem C10_status_value_wins_other_fields_kept :
  forall info status combined : list dict,
    mappings status ->
    combined_stations info status = inr combined ->
    (forall c, In c combined ->
       exists i s, In i info /\ In s status /\ same_station i s /\ overlay i s c)
    /\ (forall s, In s status ->
          truthy (item "station_id" s) = true ->
          has_station (item "station_id" s) info ->
          exists i c, In i info /\ same_station i s
                      /\ In c combined /\ overlay i s c).
Proof.
  intros info status combined Hmap Hc.
  unfold mappings in Hmap. rewrite Forall_forall in Hmap. split.
  - intros c Hin.
    destruct (combined_stations_sound _ _ _ _ Hc Hin)
      as (i & s & Hi & Hs & _ & Hsame & ->).
    exists i, s. repeat split; auto. apply overlay_merge; auto.
  - intros s Hs Ht Hinfo.
    destruct (combined_stations_complete _ _ _ _ Hc Hs Ht Hinfo)
      as (i & Hi & Hsame & Hin).
    exists i, (dict_merge i s). repeat split; auto. apply overlay_merge; auto.
Qed.

Lemma example_info_ok : info_feed_ok example_info.
Proof.
  unfold info_feed_ok, example_info.
  repeat (apply Forall_cons || apply Forall_nil);
    eexists; split; reflexivity.
Defined.

Lemma example_status_mappings : mappings example_status.
Proof.
  unfold mappings, example_status.
  repeat (apply Forall_cons || apply Forall_nil);
    repeat (apply NoDup_cons || apply NoDup_nil); simpl; intuition discriminate.
Defined.

Lemma example_status_ok : status_feed_ok example_status.
Proof.
  unfold status_feed_ok, example_status.
  repeat (apply Forall_cons || apply Forall_nil);
    (split; [|reflexivity]);
    repeat (apply NoDup_cons || apply NoDup_nil); simpl; intuition discriminate.
Defined.

Lemma C5_witness_two_feeds :
  exists combined,
    combined_stations example_info example_status = inr combined
    /\ forall sid : pyval,
        has_station sid combined <->
        truthy sid = true /\ has_station sid example_info
        /\ has_station sid example_status.
Proof.
  apply (C5_join_truthy_identifiers_of_both_feeds example_info example_status).
  - exact example_info_ok.
  - exact example_status_ok.
Defined.

(** C5, as stated, fails: the empty identifier is in both feeds and the
    guard [if station_id and ...] leaves it out of the combined dataset. *)
Lemma C5_counterexample_empty_identifier :
  combined_stations
    [[("station_id", PStr ""); ("name", PStr "Depot")]]
    [[("station_id", PStr ""); ("num_bikes_available", PNum 3)]] = inr []
  /\ has_station (PStr "") [[("station_id", PStr ""); ("name", PStr "Depot")]]
  /\ has_station (PStr "")
       [[("station_id", PStr ""); ("num_bikes_available", PNum 3)]].
Proof.
  split; [reflexivity|].
  split; eexists; eexists; (split; [now left|]); split; reflexivity.
Qed.

Lemma C10_witness_two_feeds :
  (forall c, In c example_combined ->
     exists i s, In i example_info /\ In s example_status
                 /\ same_station i s /\ overlay i s c)
  /\ (forall s, In s example_status ->
        truthy (item "station_id" s) = true ->
        has_station (item "station_id" s) example_info ->
        exists i c, In i example_info /\ same_station i s
                    /\ In c example_combined /\ overlay i s c).
Proof.
  apply (C10_status_value_wins_other_fields_kept
           example_info example_status example_combined).
  - exact example_status_mappings.
  - reflexivity.
Defined.

(** ** The monad *)

Lemma bind_inr {A B : Type} (m : M A) (f : A -> M B) (out : list message) (b : B) :
  bind m f = (out, inr b) ->
  exists o1 a o2, m = (o1, inr a) /\ f a = (o2, inr b) /\ out = o1 ++ o2.
Proof.
  destruct m as [o1 [e|a]]; simpl; [discriminate|].
  destruct (f a) as [o2 r] eqn:E. intros [= <- ->].
  now exists o1, a, o2.
Qed.

Lemma bind_print {B : Type} (m : message) (k : M B) (out : list message) (r : exn + B) :
  (print m ;;; k) = (out, r) -> exists o, k = (o, r) /\ out = m :: o.
Proof.
  unfold print, bind. destruct k as [o r']. intros [= <- <-]. now exists o.
Qed.

Lemma bind_ret {A B : Type} (a : A) (f : A -> M B) : bind (ret a) f = f a.
Proof. unfold bind, ret. now destruct (f a). Qed.

Lemma bind_value {A B : Type} (m : M A) (f : A -> M B) (o : list message) (a : A) :
  m = (o, inr a) -> bind m f = (o ++ fst (f a), snd (f a)).
Proof. intros ->. unfold bind. now destruct (f a). Qed.

Lemma bind_raise {A B : Type} (m : M A) (f : A -> M B) (o : list message) (e : exn) :
  m = (o, inl e) -> bind m f = (o, inl e).
Proof. now intros ->. Qed.

(** ** Rows *)

Lemma row_get_map_at (c : label) (f : pyval -> pyval) (r : row) :
  row_get c (row_map_at c f r) = option_map f (row_get c r).
Proof.
  induction r as [|[k v] r IH]; simpl; [reflexivity|].
  destruct (key_eqb c k) eqn:E; simpl; rewrite E; auto.
Qed.

Lemma row_get_map_at_other (c c' : label) (f : pyval -> pyval) (r : row) :
  key_eqb c' c = false ->
  row_get c' (row_map_at c f r) = row_get c' r.
Proof.
  intros Hne. induction r as [|[k v] r IH]; simpl; [reflexivity|].
  destruct (key_eqb c' k) eqn:E'.
  - destruct (key_eqb c k) eqn:E; simpl; rewrite E'; [|reflexivity].
    rewrite key_eqb_sym in E.
    now rewrite (key_eqb_trans _ _ _ E' E) in Hne.
  - destruct (key_eqb c k); simpl; rewrite E'; exact IH.
Qed.

Lemma row_get_app (c : label) (r : row) (e : label * pyval) :
  row_get c (r ++ [e]) =
  match row_get c r with
  | Some v => Some v
  | None => if key_eqb c (fst e) then Some (snd e) else None
  end.
Proof.
  induction r as [|[k v] r IH]; simpl.
  - now destruct e.
  - destruct (key_eqb c k); auto.
Qed.

Lemma row_get_existsb (c : label) (r : row) :
  existsb (fun e => key_eqb c (fst e)) r = false <-> row_get c r = None.
Proof.
  induction r as [|[k v] r IH]; simpl; [tauto|].
  destruct (key_eqb c k); simpl; [split; discriminate | exact IH].
Qed.

Lemma cell_map_at (c : label) (f : pyval -> pyval) (r : row) :
  cell c (row_map_at c f r) =
  match row_get c r with Some v => f v | None => PNone end.
Proof.
  unfold cell. rewrite row_get_map_at. now destruct (row_get c r).
Qed.

Lemma cell_map_at_other (c c' : label) (f : pyval -> pyval) (r : row) :
  key_eqb c' c = false -> cell c' (row_map_at c f r) = cell c' r.
Proof.
  intros H. unfold cell. now rewrite row_get_map_at_other.
Qed.

Lemma cell_row_set_same (c : label) (v : pyval) (r : row) :
  hashable c = true -> cell c (row_set c v r) = v.
Proof.
  intros Hh. unfold row_set.
  destruct (existsb (fun e => key_eqb c (fst e)) r) eqn:E.
  - rewrite cell_map_at. destruct (row_get c r) eqn:G; [reflexivity|].
    apply row_get_existsb in G. congruence.
  - apply row_get_existsb in E. unfold cell.
    rewrite row_get_app, E. simpl. now rewrite key_eqb_refl.
Qed.

Lemma cell_row_set_other (c c' : label) (v : pyval) (r : row) :
  key_eqb c' c = false -> cell c' (row_set c v r) = cell c' r.
Proof.
  intros Hne. unfold row_set.
  destruct (existsb (fun e => key_eqb c (fst e)) r).
  - now apply cell_map_at_other.
  - unfold cell. rewrite row_get_app. simpl. rewrite Hne.
    now destruct (row_get c' r).
Qed.

(** A coerced cell is a number or missing. *)
Lemma coerce_numeric (pd : pandas) (v : pyval) :
  coerce pd v = PNone \/ exists q, coerce pd v = PNum q.
Proof.
  destruct v as [|[]|q|s|l|d]; simpl; eauto.
  destruct (str_to_numeric pd s); eauto.
Qed.

Lemma positive_spec (v : pyval) :
  positive v = true -> exists q, number_of v = Some q /\ (0 < q)%Q.
Proof.
  unfold positive. destruct (number_of v) as [q|]; [|discriminate].
  intros H. exists q. split; [reflexivity|].
  apply negb_true_iff in H. apply Qnot_le_lt. intros Hle.
  apply Qle_bool_iff in Hle. congruence.
Qed.

(** ** The steps of the cleaner *)

Lemma to_numeric_column_inr (pd : pandas) (col : string) (df df' : DataFrame)
    (out : list message) :
  to_numeric_column pd col df = (out, inr df') ->
  columns df' = columns df
  /\ (has_col (PStr col) df = true -> col_count (PStr col) df = 1%nat)
  /\ rows df' = map (fun r => if has_col (PStr col) df
                              then row_map_at (PStr col) (coerce pd) r
                              else r) (rows df).
Proof.
  unfold to_numeric_column.
  destruct (has_col (PStr col) df) eqn:Hc.
  - destruct (Nat.eqb (col_count (PStr col) df) 1) eqn:Hn; [|discriminate].
    apply Nat.eqb_eq in Hn. intros [= <- <-]. simpl. auto.
  - intros [= <- <-]. repeat split; [discriminate|].
    now rewrite map_id.
Qed.

Lemma to_numeric_column_makes (pd : pandas) (col : string) (df df' : DataFrame)
    (out : list message) :
  to_numeric_column pd col df = (out, inr df') ->
  has_col (PStr col) df = true ->
  numeric_cells col df'.
Proof.
  intros H Hc. destruct (to_numeric_column_inr _ _ _ _ _ H) as (_ & _ & Hrows).
  unfold numeric_cells. rewrite Hrows, Hc. apply Forall_forall.
  intros r' Hr'. apply in_map_iff in Hr'. destruct Hr' as (r & <- & _).
  rewrite cell_map_at. destruct (row_get (PStr col) r); [|now left].
  apply coerce_numeric.
Qed.

Lemma to_numeric_column_keeps (pd : pandas) (col c : string) (df df' : DataFrame)
    (out : list message) :
  to_numeric_column pd col df = (out, inr df') ->
  String.eqb c col = false ->
  numeric_cells c df -> numeric_cells c df'.
Proof.
  intros H Hne Hnum. destruct (to_numeric_column_inr _ _ _ _ _ H) as (_ & _ & Hrows).
  unfold numeric_cells in *. rewrite Hrows. rewrite Forall_forall in *.
  intros r' Hr'. apply in_map_iff in Hr'. destruct Hr' as (r & <- & Hr).
  destruct (has_col (PStr col) df); [|now apply Hnum].
  rewrite cell_map_at_other by exact Hne. now apply Hnum.
Qed.

Lemma convert_numeric_inr (pd : pandas) (df df' : DataFrame) (out : list message) :
  convert_numeric pd df = (out, inr df') ->
  columns df' = columns df
  /\ (has_col (PStr "lat") df = true ->
      col_count (PStr "lat") df = 1%nat /\ numeric_cells "lat" df')
  /\ (has_col (PStr "lon") df = true ->
      col_count (PStr "lon") df = 1%nat /\ numeric_cells "lon" df').
Proof.
  unfold convert_numeric. intros H.
  apply bind_inr in H. destruct H as (o1 & df1 & o1' & H1 & H & _).
  apply bind_inr in H. destruct H as (o2 & df2 & o2' & H2 & H & _).
  apply bind_inr in H. destruct H as (o3 & df3 & o3' & H3 & H4 & _).
  destruct (to_numeric_column_inr _ _ _ _ _ H1) as (C1 & N1 & _).
  destruct (to_numeric_column_inr _ _ _ _ _ H2) as (C2 & N2 & _).
  destruct (to_numeric_column_inr _ _ _ _ _ H3) as (C3 & _ & _).
  destruct (to_numeric_column_inr _ _ _ _ _ H4) as (C4 & _ & _).
  split; [congruence|]. split; intros Hc.
  - split; [now apply N1|].
    apply (to_numeric_column_keeps _ _ _ _ _ _ H4); [reflexivity|].
    apply (to_numeric_column_keeps _ _ _ _ _ _ H3); [reflexivity|].
    apply (to_numeric_column_keeps _ _ _ _ _ _ H2); [reflexivity|].
    now apply (to_numeric_column_makes _ _ _ _ _ H1).
  - assert (Hc1 : has_col (PStr "lon") df1 = true)
      by (unfold has_col in *; now rewrite C1).
    split.
    + unfold col_count in *. rewrite <- C1. now apply N2.
    + apply (to_numeric_column_keeps _ _ _ _ _ _ H4); [reflexivity|].
      apply (to_numeric_column_keeps _ _ _ _ _ _ H3); [reflexivity|].
      now apply (to_numeric_column_makes _ _ _ _ _ H2).
Qed.

Lemma filter_cyclists_inr (df df' : DataFrame) (out : list message) :
  filter_cyclists df = (out, inr df') ->
  columns df' = columns df
  /\ rows df' =
     filter (fun r => positive (cell (PStr "cyclists_injured") r)
                      || positive (cell (PStr "cyclists_killed") r)) (rows df).
Proof.
  unfold filter_cyclists.
  destruct (has_col (PStr "cyclists_injured") df); simpl; [|discriminate].
  destruct (has_col (PStr "cyclists_killed") df); simpl; [|discriminate].
  intros [= <- <-]. simpl. auto.
Qed.

Lemma dropna_lat_lon_inr (df df' : DataFrame) (out : list message) :
  dropna_lat_lon df = (out, inr df') ->
  has_col (PStr "lat") df = true /\ has_col (PStr "lon") df = true
  /\ columns df' = columns df
  /\ rows df' =
     filter (fun r => negb (is_missing (cell (PStr "lat") r))
                      && negb (is_missing (cell (PStr "lon") r))) (rows df).
Proof.
  unfold dropna_lat_lon. simpl.
  destruct (has_col (PStr "lat") df), (has_col (PStr "lon") df); simpl;
    try discriminate.
  intros [= <- <-]. simpl. auto.
Qed.

Lemma assign_rows_same_cells (vs : list pyval) (rs : list row) :
  Forall2 same_cells rs (assign_rows (PStr "date") vs rs).
Proof.
  revert vs. induction rs as [|r rs IH]; intros vs; simpl; [constructor|].
  destruct vs as [|v vs].
  - constructor; [now intros c Hc|].
    clear IH. induction rs; constructor; auto. now intros c Hc.
  - constructor; [|apply IH].
    intros c Hc. now apply cell_map_at_other.
Qed.

Lemma same_cells_refl (rs : list row) : Forall2 same_cells rs rs.
Proof. induction rs; constructor; auto. now intros c Hc. Qed.

Lemma convert_dates_inr (pd : pandas) (df df' : DataFrame) (out : list message) :
  convert_dates pd df = (out, inr df') ->
  columns df' = columns df /\ Forall2 same_cells (rows df) (rows df').
Proof.
  unfold convert_dates.
  destruct (has_col (PStr "date") df).
  - destruct (Nat.eqb (col_count (PStr "date") df) 1).
    + destruct (to_datetime pd _) as [vs|].
      * destruct (Nat.eqb (List.length vs) (frame_len df)).
        -- intros [= <- <-]. simpl. split; [reflexivity|].
           apply assign_rows_same_cells.
        -- intros [= <- <-]. split; [reflexivity | apply same_cells_refl].
      * intros [= <- <-]. split; [reflexivity | apply same_cells_refl].
    + intros [= <- <-]. split; [reflexivity | apply same_cells_refl].
  - intros [= <- <-]. split; [reflexivity | apply same_cells_refl].
Qed.

Lemma cleaned_row_same_cells (r r' : row) :
  same_cells r r' -> cleaned_row r -> cleaned_row r'.
Proof.
  intros Hs [Hlat Hlon Hc].
  assert (E1 := Hs (PStr "lat") eq_refl).
  assert (E2 := Hs (PStr "lon") eq_refl).
  assert (E3 := Hs (PStr "cyclists_injured") eq_refl).
  assert (E4 := Hs (PStr "cyclists_killed") eq_refl).
  constructor; rewrite ?E1, ?E2, ?E3, ?E4; auto.
Qed.

Lemma cleaned_row_same_but_total (r r' : row) :
  same_but (PStr "total_cyclist_casualties") r r' ->
  cleaned_row r -> cleaned_row r'.
Proof.
  intros Hs [Hlat Hlon Hc].
  assert (E1 := Hs (PStr "lat") eq_refl).
  assert (E2 := Hs (PStr "lon") eq_refl).
  assert (E3 := Hs (PStr "cyclists_injured") eq_refl).
  assert (E4 := Hs (PStr "cyclists_killed") eq_refl).
  constructor; rewrite ?E1, ?E2, ?E3, ?E4; auto.
Qed.

(** Putting a column leaves the cells of the other columns as they are. *)
Lemma put_column_same_but (c : label) (values : list pyval) (rs : list row) :
  Forall2 (same_but c) rs (put_column c values rs).
Proof.
  unfold put_column. generalize 0%nat.
  induction rs as [|r rs IH]; intros start; simpl; constructor.
  - intros c' Hc'. now apply cell_row_set_other.
  - apply IH.
Qed.

Lemma col_count_add_total (pd : pandas) (c : label) (df : DataFrame) :
  key_eqb c (PStr "total_cyclist_casualties") = false ->
  col_count c (add_total pd df) = col_count c df.
Proof.
  intros Hne. unfold col_count, add_total. simpl.
  destruct (has_col _ df); [reflexivity|].
  rewrite filter_app. simpl. rewrite Hne. now rewrite app_nil_r.
Qed.

Lemma Forall2_Forall_transfer {A B : Type} (R : A -> B -> Prop)
    (P : A -> Prop) (Q : B -> Prop) (l : list A) (l' : list B) :
  Forall2 R l l' -> (forall x y, R x y -> P x -> Q y) ->
  Forall P l -> Forall Q l'.
Proof.
  intros HR Himp. induction HR; intros HP; constructor;
    inversion HP; subst; eauto.
Qed.

(** What a frame looks like when the cleaner returns it. *)
Lemma clean_frame_inr (pd : pandas) (df0 df : DataFrame) (out : list message) :
  clean_frame pd df0 = (out, inr df) ->
  Forall cleaned_row (rows df)
  /\ col_count (PStr "lat") df = 1%nat
  /\ col_count (PStr "lon") df = 1%nat.
Proof.
  unfold clean_frame. cbv zeta. intros H.
  apply bind_print in H. destruct H as (o & H & _).
  apply bind_inr in H. destruct H as (o1 & df2 & o1' & _ & H & _).
  apply bind_inr in H. destruct H as (o2 & [] & o2' & _ & H & _).
  apply bind_inr in H. destruct H as (o3 & df3 & o3' & Hnum & H & _).
  apply bind_inr in H. destruct H as (o4 & df4 & o4' & Hfil & H & _).
  apply bind_inr in H. destruct H as (o5 & df5 & o5' & Hdrop & H & _).
  apply bind_inr in H. destruct H as (o6 & df7 & o6' & Hdate & H & _).
  apply bind_print in H. destruct H as (o7 & H & _).
  injection H as _ <-.
  destruct (convert_numeric_inr _ _ _ _ Hnum) as (C3 & Nlat & Nlon).
  destruct (filter_cyclists_inr _ _ _ Hfil) as (C4 & R4).
  destruct (dropna_lat_lon_inr _ _ _ Hdrop) as (Hlat & Hlon & C5 & R5).
  destruct (convert_dates_inr _ _ _ _ Hdate) as (C7 & R7).
  assert (Hlat2 : has_col (PStr "lat") df2 = true)
    by (unfold has_col in *; now rewrite <- C3, <- C4).
  assert (Hlon2 : has_col (PStr "lon") df2 = true)
    by (unfold has_col in *; now rewrite <- C3, <- C4).
  destruct (Nlat Hlat2) as (K1 & P1). destruct (Nlon Hlon2) as (K2 & P2).
  split; [|split].
  - apply (Forall2_Forall_transfer _ _ _ _ _ R7 cleaned_row_same_cells).
    unfold add_total. simpl rows.
    apply (Forall2_Forall_transfer _ _ _ _ _
             (put_column_same_but (PStr "total_cyclist_casualties") _ (rows df5))
             cleaned_row_same_but_total).
    apply Forall_forall. intros r Hr.
    rewrite R5 in Hr. apply filter_In in Hr. destruct Hr as (Hr & Hna).
    rewrite R4 in Hr. apply filter_In in Hr. destruct Hr as (Hr & Hpos).
    apply andb_true_iff in Hna. destruct Hna as (Hna1 & Hna2).
    unfold numeric_cells in P1, P2. rewrite Forall_forall in P1, P2.
    constructor; auto.
    + destruct (P1 r Hr) as [E|E]; [|exact E]. now rewrite E in Hna1.
    + destruct (P2 r Hr) as [E|E]; [|exact E]. now rewrite E in Hna2.
  - unfold col_count in *. rewrite C7.
    change (List.length (filter (key_eqb (PStr "lat"))
                                (columns (add_total pd df5))))
      with (col_count (PStr "lat") (add_total pd df5)).
    rewrite col_count_add_total by reflexivity.
    unfold col_count. now rewrite C5, C4, C3.
  - unfold col_count in *. rewrite C7.
    change (List.length (filter (key_eqb (PStr "lon"))
                                (columns (add_total pd df5))))
      with (col_count (PStr "lon") (add_total pd df5)).
    rewrite col_count_add_total by reflexivity.
    unfold col_count. now rewrite C5, C4, C3.
Qed.

Lemma clean_crash_data_inr (pd : pandas) (crashes : pyval) (df : DataFrame)
    (out : list message) :
  clean_crash_data pd crashes = (out, inr df) ->
  Forall cleaned_row (rows df)
  /\ (rows df <> [] ->
      col_count (PStr "lat") df = 1%nat /\ col_count (PStr "lon") df = 1%nat).
Proof.
  unfold clean_crash_data. intros H.
  apply bind_print in H. destruct H as (o & H & _).
  apply bind_inr in H. destruct H as (o1 & n & o2 & _ & H & _).
  destruct n as [df0|].
  - destruct (clean_frame_inr _ _ _ _ H) as (Hrows & Hc). auto.
  - injection H as _ <-. simpl. split; [constructor | congruence].
Qed.

Lemma cleaned_row_sum (r : row) (a b : Q) :
  cleaned_row r ->
  number_of (cell (PStr "cyclists_injured") r) = Some a ->
  number_of (cell (PStr "cyclists_killed") r) = Some b ->
  (0 <= a)%Q -> (0 <= b)%Q -> (0 < a + b)%Q.
Proof.
  intros [_ _ Hc] Ha Hb Hage Hbge.
  apply orb_true_iff in Hc. destruct Hc as [Hc|Hc];
    apply positive_spec in Hc; destruct Hc as (q & Hq & Hpos).
  - rewrite Ha in Hq. injection Hq as <-.
    change (0 + 0 < a + b)%Q. now apply Qplus_lt_le_compat.
  - rewrite Hb in Hq. injection Hq as <-.
    rewrite Qplus_comm.
    change (0 + 0 < b + a)%Q. now apply Qplus_lt_le_compat.
Qed.



(** The cleaner keeps both records of [example_odd_counts], whatever the
    library does elsewhere, with the totals the library's addition gives. *)
Lemma clean_odd_counts (pd : pandas) :
  clean_crash_data pd example_odd_counts =
  ([MsgCleaning; MsgDataIsList 2;
    MsgAvailableColumns [PStr "lat"; PStr "lon"; PStr "cyclists_injured";
                         PStr "cyclists_killed"];
    MsgCleaned 2],
   inr (mkFrame
          [PStr "lat"; PStr "lon"; PStr "cyclists_injured";
           PStr "cyclists_killed"; PStr "total_cyclist_casualties"]
          [ [(PStr "lat", PNum 40.7); (PStr "lon", PNum (-74));
             (PStr "cyclists_injured", PNum 1);
             (PStr "cyclists_killed", PNum (-1));
             (PStr "total_cyclist_casualties",
              nth 0 (series_add pd [PNum 1; PNum 2] [PNum (-1); PNone]) PNone)];
            [(PStr "lat", PNum 40.7); (PStr "lon", PNum (-74));
             (PStr "cyclists_injured", PNum 2);
             (PStr "cyclists_killed", PNone);
             (PStr "total_cyclist_casualties",
              nth 1 (series_add pd [PNum 1; PNum 2] [PNum (-1); PNone])
                  PNone)] ])).
Proof. reflexivity. Qed.


(** ** The two alias steps *)

Lemma rename_label_nil (c : label) : rename_label [] c = c.
Proof. now destruct c. Qed.

Lemma rename_columns_columns (df : DataFrame) :
  columns (rename_columns df)
  = map (rename_label (rename_dict_of df)) (columns df).
Proof.
  unfold rename_columns.
  destruct (rename_dict_of df) as [|e rd]; [|reflexivity].
  rewrite <- (map_id (columns df)) at 1.
  apply map_ext. intros c. now rewrite rename_label_nil.
Qed.

Lemma has_col_In (s : string) (df : DataFrame) :
  In (PStr s) (columns df) -> has_col (PStr s) df = true.
Proof.
  intros Hin. unfold has_col. apply existsb_exists.
  exists (PStr s). split; [exact Hin | apply String.eqb_refl].
Qed.

Lemma key_eqb_PStr (s : string) (c : label) :
  key_eqb (PStr s) c = true -> c = PStr s.
Proof.
  destruct c as [|[]| |t| |]; simpl; try discriminate.
  intros H. apply String.eqb_eq in H. now subst.
Qed.

(** A column that carries the name of an alias is renamed: after the
    renaming no column has a name that [column_mapping] maps to another. *)
Lemma rename_label_not_alias (df : DataFrame) (alias : string) (c : label) :
  In c (columns df) ->
  (exists canonical, In (alias, canonical) column_mapping) ->
  forallb (fun e => negb (String.eqb alias (snd e))) column_mapping = true ->
  key_eqb (PStr alias) (rename_label (rename_dict_of df) c) = false.
Proof.
  intros Hc (canonical & Hmap) Hvalues.
  destruct c as [|[]| |s| |]; try reflexivity.
  unfold rename_label.
  destruct (find (fun e => String.eqb s (fst e)) (rename_dict_of df)) as [e|] eqn:Hf.
  - apply find_some in Hf. destruct Hf as (He & _).
    unfold rename_dict_of in He. apply filter_In in He. destruct He as (He & _).
    rewrite forallb_forall in Hvalues. specialize (Hvalues e He).
    simpl. now apply negb_true_iff in Hvalues.
  - simpl. destruct (String.eqb alias s) eqn:E; [|reflexivity].
    apply String.eqb_eq in E. subst s.
    assert (Hin : In (alias, canonical) (rename_dict_of df)).
    { unfold rename_dict_of. apply filter_In. split; [exact Hmap|].
      simpl. now apply has_col_In. }
    pose proof (find_none _ _ Hf _ Hin) as Hno. simpl in Hno.
    now rewrite String.eqb_refl in Hno.
Qed.

Lemma rename_columns_no_alias (df : DataFrame) (alias : string) :
  (exists canonical, In (alias, canonical) column_mapping) ->
  forallb (fun e => negb (String.eqb alias (snd e))) column_mapping = true ->
  has_col (PStr alias) (rename_columns df) = false.
Proof.
  intros Hmap Hvalues. unfold has_col. rewrite rename_columns_columns.
  destruct (existsb _ _) eqn:E; [|reflexivity].
  apply existsb_exists in E. destruct E as (c' & Hc' & Hk).
  apply in_map_iff in Hc'. destruct Hc' as (c & <- & Hc).
  now rewrite (rename_label_not_alias _ _ _ Hc Hmap Hvalues) in Hk.
Qed.

Lemma infer_column_absent (alias canonical : string) (df : DataFrame) :
  has_col (PStr alias) df = false -> infer_column alias canonical df = ret df.
Proof. intros H. unfold infer_column. now rewrite H. Qed.

(** The guarded copies never run: the renaming has already taken every
    alias away, so the inference leaves the frame as it is. *)
Lemma infer_missing_after_rename (df : DataFrame) :
  exists out, infer_missing (rename_columns df) = (out, inr (rename_columns df)).
Proof.
  unfold infer_missing.
  destruct (missing_columns (rename_columns df)) as [|m ms];
    [now exists []|].
  assert (Hno : forall alias canonical,
             In (alias, canonical)
                [("latitude", "lat"); ("longitude", "lon");
                 ("number_of_cyclist_injured", "cyclists_injured");
                 ("number_of_cyclist_killed", "cyclists_killed")] ->
             infer_column alias canonical (rename_columns df)
             = ret (rename_columns df)).
  { intros alias canonical Hin. apply infer_column_absent.
    simpl in Hin.
    repeat (destruct Hin as [[= <- <-]|Hin];
            [apply rename_columns_no_alias;
             [eexists; simpl; eauto 12 | reflexivity]|]).
    destruct Hin. }
  rewrite (Hno "latitude" "lat"), bind_ret by (simpl; auto).
  rewrite (Hno "longitude" "lon"), bind_ret by (simpl; auto).
  rewrite (Hno "number_of_cyclist_injured" "cyclists_injured"), bind_ret
    by (simpl; auto).
  rewrite (Hno "number_of_cyclist_killed" "cyclists_killed") by (simpl; auto).
  eexists. reflexivity.
Qed.

Lemma filter_two {A : Type} (p : A -> bool) (x y : A) (l : list A) :
  In x l -> In y l -> x <> y -> p x = true -> p y = true ->
  (2 <= List.length (filter p l))%nat.
Proof.
  intros Hx Hy Hne Px Py.
  induction l as [|a l IH]; [destruct Hx|]. simpl.
  destruct Hx as [-> |Hx], Hy as [-> |Hy].
  - congruence.
  - rewrite Px. simpl.
    assert (In y (filter p l)) by (apply filter_In; auto).
    destruct (filter p l); [contradiction | simpl; lia].
  - rewrite Py. simpl.
    assert (In x (filter p l)) by (apply filter_In; auto).
    destruct (filter p l); [contradiction | simpl; lia].
  - specialize (IH Hx Hy). destruct (p a); simpl; lia.
Qed.

Lemma filter_map_length {A B : Type} (p : B -> bool) (f : A -> B) (l : list A) :
  List.length (filter p (map f l))
  = List.length (filter (fun a => p (f a)) l).
Proof.
  induction l as [|a l IH]; simpl; [reflexivity|].
  destruct (p (f a)); simpl; now rewrite IH.
Qed.

(** Renaming onto a name that is a column already gives two columns of
    that name. *)
Lemma rename_columns_two_lat (df : DataFrame) :
  has_col (PStr "lat") df = true ->
  has_col (PStr "latitude") df = true ->
  (2 <= col_count (PStr "lat") (rename_columns df))%nat.
Proof.
  intros Hlat Hlatitude.
  unfold has_col in Hlat, Hlatitude.
  apply existsb_exists in Hlat. destruct Hlat as (c1 & H1 & K1).
  apply existsb_exists in Hlatitude. destruct Hlatitude as (c2 & H2 & K2).
  apply key_eqb_PStr in K1, K2. subst c1 c2.
  unfold col_count. rewrite rename_columns_columns, filter_map_length.
  apply (filter_two _ (PStr "lat") (PStr "latitude")); auto; try discriminate.
  - unfold rename_label.
    destruct (find (fun e => String.eqb "lat" (fst e)) (rename_dict_of df))
      as [e|] eqn:Hf; [|reflexivity].
    apply find_some in Hf. destruct Hf as (He & Hk).
    unfold rename_dict_of in He. apply filter_In in He. destruct He as (He & _).
    simpl in He. repeat (destruct He as [<-|He]; [discriminate Hk|]). destruct He.
  - unfold rename_label.
    destruct (find (fun e => String.eqb "latitude" (fst e)) (rename_dict_of df))
      as [e|] eqn:Hf.
    + apply find_some in Hf. destruct Hf as (He & Hk).
      unfold rename_dict_of in He. apply filter_In in He. destruct He as (He & _).
      simpl in He.
      repeat (destruct He as [<-|He]; [first [discriminate Hk | reflexivity]|]).
      destruct He.
    + exfalso.
      assert (Hin : In ("latitude", "lat") (rename_dict_of df)).
      { unfold rename_dict_of. apply filter_In. split; [simpl; auto|].
        simpl. now apply has_col_In. }
      pose proof (find_none _ _ Hf _ Hin) as Hno. discriminate Hno.
Qed.

Lemma col_count_absent (c : label) (df : DataFrame) :
  has_col c df = false -> col_count c df = 0%nat.
Proof.
  unfold has_col, col_count.
  induction (columns df) as [|a l IH]; simpl; [reflexivity|].
  destruct (key_eqb c a); simpl; [discriminate | exact IH].
Qed.

(** Whatever else the frame holds, a frame with both [lat] and [latitude]
    makes the cleaner raise [TypeError]. *)
Lemma clean_frame_both_names_raises (pd : pandas) (df : DataFrame) :
  has_col (PStr "lat") df = true ->
  has_col (PStr "latitude") df = true ->
  exists out, clean_frame pd df = (out, inl TypeError).
Proof.
  intros Hlat Hlatitude.
  pose proof (rename_columns_two_lat _ Hlat Hlatitude) as Htwo.
  destruct (infer_missing_after_rename df) as (o1 & Hinfer).
  assert (Hnum : convert_numeric pd (rename_columns df) = ([], inl TypeError)).
  { unfold convert_numeric, to_numeric_column.
    assert (Hc : has_col (PStr "lat") (rename_columns df) = true).
    { destruct (has_col (PStr "lat") (rename_columns df)) eqn:E; [reflexivity|].
      apply col_count_absent in E. lia. }
    rewrite Hc.
    destruct (Nat.eqb (col_count (PStr "lat") (rename_columns df)) 1) eqn:E;
      [apply Nat.eqb_eq in E; lia | reflexivity]. }
  assert (Hrep : exists o2, report_still_missing (rename_columns df) = (o2, inr tt)).
  { unfold report_still_missing.
    destruct (missing_columns _); [now exists []|].
    destruct (rows (rename_columns df)); eexists; reflexivity. }
  destruct Hrep as (o2 & Hrep).
  unfold clean_frame. cbv zeta.
  rewrite (bind_value _ _ _ _ (eq_refl : print _ = (_, inr tt))).
  rewrite (bind_value _ _ _ _ Hinfer).
  rewrite (bind_value _ _ _ _ Hrep).
  rewrite (bind_raise _ _ _ _ Hnum).
  eexists. reflexivity.
Qed.

(** C4. On a record that has both [lat] and [latitude] the renaming gives
    the frame two columns labelled [lat], and the numeric conversion of
    [df['lat']] raises [TypeError]: no record is cleaned, and the value of
    [lat] is not preserved. *)
Theorem C4_alias_renamed_onto_present_name_raises :
  forall pd : pandas,
    clean_crash_data pd example_both_names =
    ([MsgCleaning; MsgDataIsList 1;
      MsgAvailableColumns [PStr "lat"; PStr "lat"; PStr "lon";
                           PStr "cyclists_injured"; PStr "cyclists_killed"]],
     inl TypeError).
Proof. intros pd. reflexivity. Qed.

(** ** The schema inspection *)

#[local] Arguments bind : simpl never.
#[local] Arguments DataFrame_new : simpl never.
#[local] Arguments print : simpl never.

Lemma dict_has_false (k : string) (d : dict) :
  dict_has k d = false -> dict_get k d = None.
Proof. unfold dict_has. now destruct (dict_get k d). Qed.

(** A step that builds a frame does not end in [Unresolved]. *)
Lemma resolved_not_unresolved (r : exn + DataFrame) (out : list message) :
  (df <- lift r ;; ret (Resolved df)) <> (out, inr Unresolved).
Proof. destruct r; discriminate. Qed.

(** The inspection gives up on the [unresolvable] inputs only. *)
Lemma normalize_unresolved (pd : pandas) (v : pyval) (out : list message) :
  normalize pd v = (out, inr Unresolved) -> unresolvable v = true.
Proof.
  destruct v as [| | | |l|d]; simpl; try reflexivity.
  - intros H. apply bind_print in H. destruct H as (o & H & _).
    now apply resolved_not_unresolved in H.
  - intros H. apply bind_print in H. destruct H as (o & H & _).
    unfold dict_has at 1.
    destruct (dict_get "data" d) as [data|].
    + now apply resolved_not_unresolved in H.
    + simpl. destruct (dict_has "columns" d || dict_has "rows" d) eqn:Hany.
      * apply bind_print in H. destruct H as (o' & H & _).
        destruct (dict_get "rows" d) as [[| | | |rs|]|]; try reflexivity.
        apply bind_print in H. destruct H as (o'' & H & _).
        apply bind_inr in H. destruct H as (? & ? & ? & _ & H & _).
        now apply resolved_not_unresolved in H.
      * assert (Hrows : dict_get "rows" d = None); [|now rewrite Hrows].
        apply orb_false_iff in Hany. now apply dict_has_false.
Qed.

(** C8 (amended). An input that is neither a list nor a mapping, or a
    mapping with no [data] key and no list under [rows], makes the
    inspection give up: an error line is printed and the cleaner returns
    the empty frame without raising. *)
Theorem C8_unresolvable_input_gives_empty_frame :
  forall (pd : pandas) (v : pyval),
    unresolvable v = true ->
    exists out : list message,
      normalize pd v = (out, inr Unresolved)
      /\ reports_schema_error out
      /\ clean_crash_data pd v = (MsgCleaning :: out, inr empty_frame).
Proof.
  intros pd v Hv. unfold reports_schema_error, clean_crash_data.
  destruct v as [| |q|s|l|d]; simpl in Hv; try discriminate;
    try (exists [ErrUnexpectedType]; simpl; intuition reflexivity).
  apply andb_true_iff in Hv. destruct Hv as (Hdata & Hrows).
  apply negb_true_iff in Hdata, Hrows. apply dict_has_false in Hdata.
  simpl. rewrite Hdata.
  destruct (dict_has "columns" d || dict_has "rows" d).
  - exists [MsgDataIsDict (dict_keys d); MsgOpenDataFormat; ErrNoUsableRows].
    destruct (dict_get "rows" d) as [[| | | |rs|]|]; try discriminate;
      simpl; intuition reflexivity.
  - exists [MsgDataIsDict (dict_keys d); ErrUnexpectedFormat;
            MsgKeysFound (dict_keys d)].
    simpl; intuition reflexivity.
Qed.

Lemma C8_witness_mapping_without_rows :
  exists out : list message,
    normalize pandas_digits (PDict [("columns", PList [PDict [("name", PStr "lat")]])])
    = (out, inr Unresolved)
    /\ reports_schema_error out
    /\ clean_crash_data pandas_digits
         (PDict [("columns", PList [PDict [("name", PStr "lat")]])])
       = (MsgCleaning :: out, inr empty_frame).
Proof.
  apply (C8_unresolvable_input_gives_empty_frame pandas_digits
           (PDict [("columns", PList [PDict [("name", PStr "lat")]])])).
  reflexivity.
Defined.

(** A list of numbers is taken for a table of one column. *)
Lemma normalize_list_of_numbers (pd : pandas) :
  normalize pd (PList [PNum 1; PNum 2]) =
  ([MsgDataIsList 2],
   inr (Resolved (mkFrame [PNum 0] [[(PNum 0, PNum 1)]; [(PNum 0, PNum 2)]]))).
Proof. reflexivity. Qed.

Lemma clean_list_of_numbers (pd : pandas) :
  snd (clean_crash_data pd (PList [PNum 1; PNum 2]))
  = inl (KeyError (PStr "cyclists_injured")).
Proof. reflexivity. Qed.

(** C8, as stated, fails: a list of numbers matches none of the three
    shapes, and the inspection neither gives up on it nor reports it; the
    frame it builds has no [cyclists_injured] column, and the cleaner
    raises [KeyError] on it. *)
Lemma C8_counterexample_list_of_numbers :
  recognized_shape (PList [PNum 1; PNum 2]) = false
  /\ (~ exists (pd : pandas) (out : list message),
          normalize pd (PList [PNum 1; PNum 2]) = (out, inr Unresolved))
  /\ (~ exists (pd : pandas) (out : list message) (df : DataFrame),
          clean_crash_data pd (PList [PNum 1; PNum 2]) = (out, inr df)).
Proof.
  split; [reflexivity|]. split.
  - intros (pd & out & H). rewrite normalize_list_of_numbers in H. discriminate H.
  - intros (pd & out & df & H).
    pose proof (clean_list_of_numbers pd) as E. rewrite H in E. discriminate E.
Qed.

(** ** Frames from records *)

Lemma add_key_in (acc : list string) (k : string) :
  In k acc -> add_key acc k = acc.
Proof.
  intros Hin. unfold add_key.
  assert (E : existsb (String.eqb k) acc = true).
  { apply existsb_exists. exists k. split; [exact Hin | apply String.eqb_refl]. }
  now rewrite E.
Qed.

Lemma add_key_notin (acc : list string) (k : string) :
  ~ In k acc -> add_key acc k = acc ++ [k].
Proof.
  intros Hnotin. unfold add_key.
  destruct (existsb (String.eqb k) acc) eqn:E; [|reflexivity].
  apply existsb_exists in E. destruct E as (x & Hx & Heq).
  apply String.eqb_eq in Heq. now subst.
Qed.

Lemma fold_add_key_fresh (ks : list string) :
  forall acc, NoDup (acc ++ ks) -> fold_left add_key ks acc = acc ++ ks.
Proof.
  induction ks as [|k ks IH]; intros acc Hnd; simpl.
  - now rewrite app_nil_r.
  - rewrite add_key_notin.
    + rewrite IH; rewrite <- app_assoc; [reflexivity | exact Hnd].
    + apply NoDup_remove_2 in Hnd. intros Hin. apply Hnd.
      apply in_or_app. now left.
Qed.

Lemma fold_add_key_known (ks acc : list string) :
  incl ks acc -> fold_left add_key ks acc = acc.
Proof.
  induction ks as [|k ks IH]; intros Hincl; simpl; [reflexivity|].
  rewrite add_key_in by (apply Hincl; now left).
  apply IH. intros x Hx. apply Hincl. now right.
Qed.

Lemma union_keys_uniform (keys : list string) (records : list dict) :
  NoDup keys -> records <> [] ->
  Forall (fun d => dict_keys d = keys) records ->
  union_keys records = keys.
Proof.
  intros Hnd Hne Hall. unfold union_keys.
  destruct records as [|d rest]; [congruence|]. simpl.
  inversion Hall as [|? ? Hd Hrest]; subst.
  rewrite (fold_add_key_fresh (dict_keys d) []) by exact Hnd. simpl.
  clear Hall Hne. induction rest as [|d' rest IH]; simpl; [reflexivity|].
  inversion Hrest as [|? ? Hd' Hrest']; subst.
  rewrite Hd'. rewrite fold_add_key_known by apply incl_refl.
  now apply IH.
Qed.

Lemma as_dicts_map (records : list dict) :
  as_dicts (map PDict records) = Some records.
Proof.
  induction records as [|d rest IH]; simpl; [reflexivity|]. now rewrite IH.
Qed.

Lemma row_record_record_row (ks : list string) (d : dict) :
  row_record (record_row (map PStr ks) d) = map (fun k => (k, item k d)) ks.
Proof.
  unfold row_record, record_row, item.
  induction ks as [|k ks IH]; simpl; [reflexivity|]. now rewrite IH.
Qed.

Lemma items_of_keys (d : dict) :
  NoDup (dict_keys d) -> map (fun k => (k, item k d)) (dict_keys d) = d.
Proof.
  induction d as [|[k v] d IH]; intros Hnd; simpl; [reflexivity|].
  inversion Hnd as [|? ? Hnotin Hnd']; subst.
  unfold item at 1. simpl. rewrite String.eqb_refl. f_equal.
  rewrite <- (IH Hnd') at 2. apply map_ext_in.
  intros k' Hk'. unfold item. simpl.
  destruct (String.eqb k' k) eqn:E; [|reflexivity].
  apply String.eqb_eq in E. now subst.
Qed.

Lemma record_row_strings (ks : list string) (d : dict) :
  record_row (map PStr ks) d = map (fun k => (PStr k, item k d)) ks.
Proof. unfold record_row. rewrite map_map. reflexivity. Qed.

Lemma cell_record_row (ks : list string) (d : dict) (k : string) :
  In k ks -> cell (PStr k) (record_row (map PStr ks) d) = item k d.
Proof.
  rewrite record_row_strings. unfold cell.
  induction ks as [|k' ks IH]; intros Hin; [contradiction|]. simpl.
  destruct (String.eqb k k') eqn:E.
  - apply String.eqb_eq in E. now subst.
  - destruct Hin as [-> |Hin]; [now rewrite String.eqb_refl in E | now apply IH].
Qed.

(** The column of a field in the frame of uniform records. *)
Lemma column_values_records (ks : list string) (records : list dict)
    (k : string) :
  In k ks ->
  column_values (PStr k)
    (mkFrame (map PStr ks) (map (record_row (map PStr ks)) records))
  = map (item k) records.
Proof.
  intros Hin. unfold column_values. simpl. rewrite map_map.
  apply map_ext. intros d. now apply cell_record_row.
Qed.

Lemma held_in_as_given (values : list pyval) (v : pyval) :
  forallb fits_int64 values = true -> nulls_as_nan values = false ->
  held_in values v = Some (Held v).
Proof.
  intros Hfit Hnan. unfold held_in. now rewrite Hfit, Hnan, andb_false_r.
Qed.

Lemma held_row_as_given (df : DataFrame) (ks : list string) (d : dict) :
  Forall (fun k => held_in (column_values (PStr k) df) (item k d)
                   = Some (Held (item k d))) ks ->
  held_row df (map (fun k => (PStr k, item k d)) ks)
  = Some (map (fun k => (k, Held (item k d))) ks).
Proof.
  induction 1 as [|k ks Hk _ IH]; simpl; [reflexivity|].
  now rewrite Hk, IH.
Qed.

Lemma all_some_map {A B : Type} (f : A -> option B) (g : A -> B) (l : list A) :
  (forall a, In a l -> f a = Some (g a)) ->
  all_some (map f l) = Some (map g l).
Proof.
  induction l as [|a l IH]; intros H; simpl; [reflexivity|].
  rewrite (H a (or_introl eq_refl)), IH; [reflexivity|].
  intros b Hb. apply H. now right.
Qed.

(** The frame of uniform records without a null beside numbers holds the
    records as they are given. *)
Lemma frame_records_uniform (keys : list string) (records : list dict) :
  NoDup keys ->
  Forall (fun d => dict_keys d = keys) records ->
  forallb (fun k => forallb fits_int64 (map (item k) records)
                    && negb (nulls_as_nan (map (item k) records))) keys = true ->
  frame_records
    (mkFrame (map PStr keys) (map (record_row (map PStr keys)) records))
  = Some (as_given records).
Proof.
  intros Hnd Hall Hgiven. unfold frame_records, as_given. simpl rows.
  rewrite map_map. apply all_some_map. intros d Hd.
  rewrite Forall_forall in Hall. pose proof (Hall d Hd) as Hkeys.
  rewrite record_row_strings, held_row_as_given.
  - f_equal.
    transitivity (map (fun kv : string * pyval => (fst kv, Held (snd kv)))
                      (map (fun k => (k, item k d)) (dict_keys d))).
    + rewrite Hkeys, map_map. reflexivity.
    + rewrite items_of_keys; [reflexivity | now rewrite Hkeys].
  - apply Forall_forall. intros k Hk.
    rewrite column_values_records by exact Hk.
    rewrite forallb_forall in Hgiven. specialize (Hgiven k Hk).
    apply andb_prop in Hgiven. destruct Hgiven as (Hfit & Hnan).
    apply held_in_as_given; [exact Hfit | now apply negb_true_iff].
Qed.



(** The frame of the two records [{'y': None}, {'y': 3}], whatever the
    library does elsewhere. *)
Lemma normalize_null_records (pd : pandas) :
  normalize pd (PList (map PDict example_null_records))
  = ([MsgDataIsList 2], inr (Resolved example_null_frame)).
Proof. reflexivity. Qed.


(** ** The nearest-station scan *)

Section Proximity.

Local Open Scope R_scope.

Lemma dist_le_refl (a : dist) : dist_le a a.
Proof. destruct a; simpl; [lra | exact I]. Qed.

Lemma dist_le_trans (a b c : dist) : dist_le a b -> dist_le b c -> dist_le a c.
Proof. destruct a, b, c; simpl; try tauto; lra. Qed.

(** One comparison of the inner loop keeps the lesser of the two. *)
Lemma closer_spec (d : R) (closest : dist) :
  dist_le (closer (Some d) closest) closest
  /\ dist_le (closer (Some d) closest) (Finite d)
  /\ (closer (Some d) closest = closest \/ closer (Some d) closest = Finite d).
Proof.
  destruct closest as [c|]; simpl.
  - destruct (Rlt_dec d c); simpl; repeat split; auto; lra.
  - repeat split; auto; lra.
Qed.

(** A valid station has numbers for coordinates. *)
Lemma valid_station_numbers (s : dict) :
  valid_station s = true ->
  to_float (Scalar (item "lon" s)) = inr (Some (coordinate "lon" s))
  /\ to_float (Scalar (item "lat" s)) = inr (Some (coordinate "lat" s)).
Proof.
  unfold valid_station, coordinate. intros H.
  repeat (apply andb_true_iff in H; destruct H as (H & ?)).
  split.
  - destruct (item "lon" s) as [|[]| | | |]; try discriminate; reflexivity.
  - destruct (item "lat" s) as [|[]| | | |]; try discriminate; reflexivity.
Qed.

Lemma station_distance_cleaned (fl : floats) (df : DataFrame) (crash : row)
    (s : dict) (lon lat : Q) :
  col_count (PStr "lon") df = 1%nat -> col_count (PStr "lat") df = 1%nat ->
  cell (PStr "lon") crash = PNum lon -> cell (PStr "lat") crash = PNum lat ->
  valid_station s = true ->
  station_distance fl df crash s
  = match measured fl (Q2R lon) (Q2R lat) s with
    | inr m => inr (Some m)
    | inl e => inl e
    end.
Proof.
  intros Hclon Hclat Hlon Hlat Hs.
  destruct (valid_station_numbers _ Hs) as (Eslon & Eslat).
  unfold station_distance, crash_item.
  rewrite Hclon, Hclat, Eslon, Eslat, Hlon, Hlat. reflexivity.
Qed.

(** The inner loop, from any starting value.  When every call returns,
    the result is below the start and below every distance returned, and
    it is the start or one of these distances; when a call raises, so does
    the loop. *)
Lemma scan_stations_spec (fl : floats) (df : DataFrame) (crash : row)
    (lon lat : Q) (valid : list dict) :
  col_count (PStr "lon") df = 1%nat -> col_count (PStr "lat") df = 1%nat ->
  cell (PStr "lon") crash = PNum lon -> cell (PStr "lat") crash = PNum lat ->
  Forall (fun s => valid_station s = true) valid ->
  forall closest : dist,
    (exists res : dist,
       scan_stations fl df crash valid closest = inr res
       /\ dist_le res closest
       /\ (forall s, In s valid ->
             exists m, measured fl (Q2R lon) (Q2R lat) s = inr m
                       /\ dist_le res (Finite m))
       /\ (res = closest
           \/ exists s m, In s valid
                          /\ measured fl (Q2R lon) (Q2R lat) s = inr m
                          /\ res = Finite m))
    \/ (exists e s,
          scan_stations fl df crash valid closest = inl e
          /\ In s valid /\ measured fl (Q2R lon) (Q2R lat) s = inl e).
Proof.
  intros Hclon Hclat Hlon Hlat.
  induction valid as [|s valid IH]; intros Hvalid closest; simpl.
  - left. exists closest. repeat split; auto using dist_le_refl. intros s [].
  - inversion Hvalid as [|? ? Hs Hrest]; subst.
    rewrite (station_distance_cleaned _ _ _ _ _ _ Hclon Hclat Hlon Hlat Hs).
    destruct (measured fl (Q2R lon) (Q2R lat) s) as [e|d] eqn:Hd; simpl ebind.
    2:{ destruct (IH Hrest (closer (Some d) closest))
        as [(res & Hres & Hle & Hall & Hone)|(e & s' & Hres & Hs' & Hnone)].
      * destruct (closer_spec d closest) as (Hc1 & Hc2 & Hc3).
        left. exists res. split; [exact Hres|]. split; [|split].
        -- exact (dist_le_trans _ _ _ Hle Hc1).
        -- intros s' [<-|Hs'].
           ++ exists d. split; [exact Hd | exact (dist_le_trans _ _ _ Hle Hc2)].
           ++ now apply Hall.
        -- destruct Hone as [Hone|(s' & m & Hs' & Hm & Hone)].
           ++ destruct Hc3 as [Hc3|Hc3]; rewrite Hc3 in Hone; [now left|].
              right. exists s, d. split; [now left | split; assumption].
           ++ right. exists s', m. split; [now right | split; assumption].
      * right. exists e, s'. split; [exact Hres|].
        split; [now right | exact Hnone]. }
    right. exists e, s. split; [reflexivity|]. split; [now left | exact Hd].
Qed.

(** The inner loop from [float('inf')] over one station or more. *)
Lemma scan_stations_least (fl : floats) (df : DataFrame) (crash : row)
    (lon lat : Q) (valid : list dict) :
  col_count (PStr "lon") df = 1%nat -> col_count (PStr "lat") df = 1%nat ->
  cell (PStr "lon") crash = PNum lon -> cell (PStr "lat") crash = PNum lat ->
  Forall (fun s => valid_station s = true) valid ->
  valid <> [] ->
  (exists m : R,
     scan_stations fl df crash valid Infinity = inr (Finite m)
     /\ least_distance fl (Q2R lon) (Q2R lat) valid m)
  \/ (exists e s,
        scan_stations fl df crash valid Infinity = inl e
        /\ In s valid /\ measured fl (Q2R lon) (Q2R lat) s = inl e).
Proof.
  intros Hclon Hclat Hlon Hlat Hvalid Hne.
  destruct (scan_stations_spec fl _ _ _ _ _ Hclon Hclat Hlon Hlat Hvalid Infinity)
    as [(res & Hres & _ & Hall & Hone)|Hraise]; [|now right].
  left. destruct valid as [|s0 valid]; [congruence|].
  destruct res as [m|].
  - exists m. split; [exact Hres|]. split.
    + destruct Hone as [Hone|(s & m' & Hs & Hm & Hone)]; [discriminate|].
      exists s. split; [exact Hs|]. now injection Hone as ->.
    + intros s Hs. exact (Hall s Hs).
  - exfalso. destruct (Hall s0 (or_introl eq_refl)) as (m & _ & H). exact H.
Qed.

Lemma scan_crashes_spec (fl : floats) (df : DataFrame) (valid : list dict)
    (crashes : list row) :
  col_count (PStr "lon") df = 1%nat -> col_count (PStr "lat") df = 1%nat ->
  Forall (fun s => valid_station s = true) valid ->
  valid <> [] ->
  Forall cleaned_row crashes ->
  (exists distances : list dist,
     scan_crashes fl df crashes valid = inr distances
     /\ Forall2 (nearest_recorded fl valid) crashes distances)
  \/ (exists e : exn,
        scan_crashes fl df crashes valid = inl e
        /\ Exists (haversine_raises fl valid e) crashes).
Proof.
  intros Hclon Hclat Hvalid Hne.
  induction crashes as [|crash rest IH]; intros Hrows; simpl.
  - left. exists []. split; [reflexivity | constructor].
  - inversion Hrows as [|? ? Hrow Hrest]; subst.
    destruct (row_lon _ Hrow) as (lon & Hlon).
    destruct (row_lat _ Hrow) as (lat & Hlat).
    destruct (scan_stations_least fl _ _ _ _ _ Hclon Hclat Hlon Hlat Hvalid Hne)
      as [(m & Hm & Hleast)|(e & s & Hm & Hs & Hnone)].
    + rewrite Hm. simpl ebind.
      destruct (IH Hrest) as [(distances & Hd & Hall)|(e & Hd & Hex)].
      * rewrite Hd. simpl ebind. left.
        exists (Finite m :: distances). split; [reflexivity|].
        constructor; [|exact Hall].
        now exists lon, lat, m.
      * rewrite Hd. simpl ebind. right. exists e. split; [reflexivity|].
        now apply Exists_cons_tl.
    + rewrite Hm. simpl ebind. right. exists e. split; [reflexivity|].
      apply Exists_cons_hd. now exists s, lon, lat.
Qed.

Lemma valid_stations_valid (stations : list dict) :
  Forall (fun s => valid_station s = true) (valid_stations stations).
Proof.
  apply Forall_forall. intros s Hs.
  unfold valid_stations in Hs. now apply filter_In in Hs.
Qed.

Lemma scan_crashes_length (fl : floats) (df : DataFrame) (valid : list dict)
    (crashes : list row) (distances : list dist) :
  scan_crashes fl df crashes valid = inr distances ->
  List.length distances = List.length crashes.
Proof.
  revert distances. induction crashes as [|crash rest IH]; intros distances; simpl.
  - now intros [= <-].
  - destruct (scan_stations fl df crash valid Infinity) as [e|c]; [discriminate|].
    simpl. destruct (scan_crashes fl df rest valid) as [e|ds]; [discriminate|].
    simpl. intros [= <-]. simpl. now rewrite (IH ds).
Qed.

(** The counts of the three bands. *)
Lemma within_le_length (meters : nat) (distances : list dist) :
  (within meters distances <= List.length distances)%nat.
Proof. unfold within. apply filter_length_le. Qed.

Lemma within_mono (n m : nat) (distances : list dist) :
  (n <= m)%nat -> (within n distances <= within m distances)%nat.
Proof.
  intros Hnm. unfold within.
  induction distances as [|d ds IH]; simpl; [lia|].
  destruct d as [r|]; [|exact IH].
  destruct (Rle_dec r (INR n)) as [Hn|Hn]; destruct (Rle_dec r (INR m)) as [Hm|Hm];
    simpl; try lia.
  exfalso. apply Hm. apply Rle_trans with (INR n); [exact Hn | now apply le_INR].
Qed.

(** The count of a band is the number of distances at most its
    threshold. *)
Lemma within_band_count (meters : nat) (distances : list dist) :
  band_count meters distances (within meters distances).
Proof.
  unfold within.
  induction distances as [|d ds IH]; simpl; [constructor|].
  destruct d as [r|]; [|now constructor].
  destruct (Rle_dec r (INR meters)) as [H|H]; simpl; now constructor.
Qed.

End Proximity.

(** ** The proximity analysis *)

(** C7. Without a valid station the analysis prints that there is none
    and returns at once: the crash table is as it was, so no distance is
    computed and [distance_to_nearest_station] stays unset, and nothing is
    raised. *)
Theorem C7_no_valid_station_nothing_computed :
  forall (fl : floats) (crashes_df : crash_frame) (stations : list dict),
    valid_stations stations = [] ->
    analyze_proximity fl crashes_df stations
    = ([MsgProximityHeader; MsgNoValidStations], inr (crashes_df, None)).
Proof.
  intros fl crashes_df stations Hnone.
  unfold analyze_proximity. now rewrite Hnone.
Qed.

Lemma C7_witness_unusable_stations :
  analyze_proximity exact_floats (cleaned example_cleaned_frame)
    example_unusable_stations
  = ([MsgProximityHeader; MsgNoValidStations],
     inr (cleaned example_cleaned_frame, None)).
Proof.
  apply (C7_no_valid_station_nothing_computed exact_floats
           (cleaned example_cleaned_frame) example_unusable_stations).
  reflexivity.
Defined.

(** What the analysis prints and returns once the distances are there. *)
Lemma analyze_proximity_returns (fl : floats)
    (crashes_df state returned : crash_frame)
    (stations : list dict) (out : list message) :
  analyze_proximity fl crashes_df stations = (out, inr (state, Some returned)) ->
  exists distances : list dist,
    scan_crashes fl (table crashes_df) (rows (table crashes_df))
                 (valid_stations stations) = inr distances
    /\ state = mkCrashes (table crashes_df) (Some distances)
    /\ returned = state
    /\ out = [ MsgProximityHeader; MsgAverageDistance; MsgMedianDistance;
               MsgWithin 100 (within 100 distances) (frame_len (table crashes_df));
               MsgWithin 250 (within 250 distances) (frame_len (table crashes_df));
               MsgWithin 500 (within 500 distances) (frame_len (table crashes_df)) ].
Proof.
  unfold analyze_proximity. intros H.
  apply bind_print in H. destruct H as (o & H & ->).
  destruct (valid_stations stations) as [|s valid] eqn:Hv; [discriminate H|].
  apply bind_inr in H. destruct H as (o1 & distances & o2 & Hscan & H & ->).
  injection Hscan as <- Hscan.
  exists distances. split; [exact Hscan|].
  cbv zeta in H. cbn in H. injection H as <- <- <-. auto.
Qed.

(** C6. Whenever the analysis returns a table, it has recorded one
    distance for each crash, and its last three lines give, for 100, 250
    and 500 m, the number of recorded distances that are at most the
    threshold, each counted against the threshold itself, and the number
    of crashes.  So the count within 100 m is at most the count within
    250 m, which is at most the count within 500 m, which is at most the
    number of crashes. *)
Theorem C6_band_counts_are_cumulative :
  forall (fl : floats) (crashes_df state returned : crash_frame)
         (stations : list dict) (out : list message),
    analyze_proximity fl crashes_df stations
    = (out, inr (state, Some returned)) ->
    exists (distances : list dist) (n100 n250 n500 : nat),
      distance_to_nearest_station state = Some distances
      /\ List.length distances = frame_len (table state)
      /\ out = [ MsgProximityHeader; MsgAverageDistance; MsgMedianDistance;
                 MsgWithin 100 n100 (frame_len (table state));
                 MsgWithin 250 n250 (frame_len (table state));
                 MsgWithin 500 n500 (frame_len (table state)) ]
      /\ band_count 100 distances n100
      /\ band_count 250 distances n250
      /\ band_count 500 distances n500
      /\ (n100 <= n250 <= n500)%nat
      /\ (n500 <= frame_len (table state))%nat.
Proof.
  intros fl crashes_df state returned stations out H.
  destruct (analyze_proximity_returns _ _ _ _ _ _ H)
    as (distances & Hscan & -> & _ & ->).
  pose proof (scan_crashes_length _ _ _ _ _ Hscan) as Hlen.
  exists distances, (within 100 distances), (within 250 distances),
    (within 500 distances).
  simpl. unfold frame_len.
  split; [reflexivity|]. split; [exact Hlen|]. split; [reflexivity|].
  split; [apply within_band_count|]. split; [apply within_band_count|].
  split; [apply within_band_count|].
  split; [split; apply within_mono; lia|].
  rewrite <- Hlen. apply within_le_length.
Qed.

(** The analysis of a cleaned frame: it records the least distances, or a
    call of [haversine] raises and so does the analysis, before anything
    is recorded. *)
Lemma analyze_cleaned (fl : floats) (pd : pandas) (crashes : pyval)
    (out : list message) (df : DataFrame) (stations : list dict) :
  clean_crash_data pd crashes = (out, inr df) ->
  valid_stations stations <> [] ->
  (exists distances : list dist,
     analyze_proximity fl (cleaned df) stations
     = ([ MsgProximityHeader; MsgAverageDistance; MsgMedianDistance;
          MsgWithin 100 (within 100 distances) (frame_len df);
          MsgWithin 250 (within 250 distances) (frame_len df);
          MsgWithin 500 (within 500 distances) (frame_len df) ],
        inr (mkCrashes df (Some distances),
             Some (mkCrashes df (Some distances))))
     /\ Forall2 (nearest_recorded fl (valid_stations stations))
                (rows df) distances)
  \/ (exists e : exn,
        analyze_proximity fl (cleaned df) stations
        = ([MsgProximityHeader], inl e)
        /\ Exists (haversine_raises fl (valid_stations stations) e) (rows df)).
Proof.
  intros Hclean Hvalid.
  destruct (clean_crash_data_inr _ _ _ _ Hclean) as (Hrows & Hcols).
  assert (Hscan :
            (exists distances,
               scan_crashes fl df (rows df) (valid_stations stations)
               = inr distances
               /\ Forall2 (nearest_recorded fl (valid_stations stations))
                          (rows df) distances)
            \/ (exists e : exn,
                  scan_crashes fl df (rows df) (valid_stations stations)
                  = inl e
                  /\ Exists (haversine_raises fl (valid_stations stations) e)
                            (rows df))).
  { destruct (rows df) as [|r rs] eqn:Hr.
    - left. exists []. split; [reflexivity | constructor].
    - destruct Hcols as (Hlat & Hlon); [discriminate|].
      rewrite <- Hr in *.
      apply scan_crashes_spec; auto using valid_stations_valid. }
  unfold analyze_proximity, cleaned. simpl table.
  destruct (valid_stations stations) as [|s valid] eqn:Hv; [congruence|].
  destruct Hscan as [(distances & Hscan & Hall)|(e & Hscan & Hex)];
    rewrite Hscan.
  - left. exists distances. split; [reflexivity | exact Hall].
  - right. exists e. split; [reflexivity | exact Hex].
Qed.

(** C1 (amended). For the crashes [clean_crash_data] returns and a
    collection with one valid station or more: when every call of
    [haversine] returns, the analysis records for every crash the least of
    the distances returned for the crash and the valid stations; when a
    call raises, the analysis raises what the call raises, after its
    header line, and records nothing. *)
Theorem C1_nearest_distance_is_the_minimum :
  forall (fl : floats) (pd : pandas) (crashes : pyval) (out : list message)
         (df : DataFrame) (stations : list dict),
    clean_crash_data pd crashes = (out, inr df) ->
    valid_stations stations <> [] ->
    (exists (distances : list dist) (out' : list message),
       analyze_proximity fl (cleaned df) stations
       = (out', inr (mkCrashes df (Some distances),
                     Some (mkCrashes df (Some distances))))
       /\ Forall2 (nearest_recorded fl (valid_stations stations))
                  (rows df) distances)
    \/ (exists e : exn,
          analyze_proximity fl (cleaned df) stations
          = ([MsgProximityHeader], inl e)
          /\ Exists (haversine_raises fl (valid_stations stations) e) (rows df)).
Proof.
  intros fl pd crashes out df stations Hclean Hvalid.
  destruct (analyze_cleaned fl _ _ _ _ _ Hclean Hvalid)
    as [(distances & Hrun & Hall)|Hraise]; [|now right].
  left. exists distances. eexists. split; [exact Hrun | exact Hall].
Qed.

Lemma C6_witness_sample_table :
  exists (distances : list dist) (n100 n250 n500 : nat),
    distance_to_nearest_station example_annotated = Some distances
    /\ List.length distances = frame_len (table example_annotated)
    /\ example_report
       = [ MsgProximityHeader; MsgAverageDistance; MsgMedianDistance;
           MsgWithin 100 n100 (frame_len (table example_annotated));
           MsgWithin 250 n250 (frame_len (table example_annotated));
           MsgWithin 500 n500 (frame_len (table example_annotated)) ]
    /\ band_count 100 distances n100
    /\ band_count 250 distances n250
    /\ band_count 500 distances n500
    /\ (n100 <= n250 <= n500)%nat
    /\ (n500 <= frame_len (table example_annotated))%nat.
Proof.
  apply (C6_band_counts_are_cumulative exact_floats
           (cleaned example_cleaned_frame) example_annotated example_annotated
           example_stations example_report).
  reflexivity.
Defined.

Lemma C1_witness_sample_crashes :
  (exists (distances : list dist) (out' : list message),
     analyze_proximity exact_floats (cleaned example_cleaned_frame)
       example_stations
     = (out', inr (mkCrashes example_cleaned_frame (Some distances),
                   Some (mkCrashes example_cleaned_frame (Some distances))))
     /\ Forall2 (nearest_recorded exact_floats (valid_stations example_stations))
                (rows example_cleaned_frame) distances)
  \/ (exists e : exn,
        analyze_proximity exact_floats (cleaned example_cleaned_frame)
          example_stations
        = ([MsgProximityHeader], inl e)
        /\ Exists (haversine_raises exact_floats
                     (valid_stations example_stations) e)
                  (rows example_cleaned_frame)).
Proof.
  eapply (C1_nearest_distance_is_the_minimum exact_floats
            pandas_digits example_crashes _ example_cleaned_frame example_stations).
  - vm_compute. reflexivity.
  - vm_compute. discriminate.
Defined.

(** C1, as stated, fails: for a crash recorded at latitude 90.1 and a
    station at latitude 89.9 half a turn away, the call of [haversine]
    raises, and the analysis ends with [ValueError] without a distance
    for the crash. *)
Lemma C1_counterexample_rounding_beyond_the_pole :
  snd (clean_crash_data pandas_digits example_polar_crashes)
  = inr example_polar_frame
  /\ valid_stations example_polar_stations <> []
  /\ analyze_proximity polar_floats (cleaned example_polar_frame)
       example_polar_stations
     = ([MsgProximityHeader], inl ValueError).
Proof.
  split; [vm_compute; reflexivity|]. split; [vm_compute; discriminate|].
  unfold analyze_proximity, example_polar_stations, example_polar_frame,
    valid_stations.
  cbn [filter valid_station dict_has dict_get item is_number andb String.eqb
       Ascii.eqb Bool.eqb cleaned table rows scan_crashes scan_stations].
  unfold station_distance, crash_item, col_count.
  cbn [columns filter key_eqb String.eqb Ascii.eqb Bool.eqb List.length cell
       row_get to_float number_of item dict_get ebind haversine_nan
       polar_floats float_haversine].
  repeat (match goal with
          | |- context [Req_dec_T ?x ?y] =>
              destruct (Req_dec_T x y) as [_|H]; [|now exfalso; apply H]
          end).
  reflexivity.
Qed.

(** ** The end-to-end scenario *)

Section Scenario.

Local Open Scope R_scope.

Lemma asin_nonneg (x : R) : 0 <= x -> 0 <= asin x.
Proof.
  intros Hx. unfold asin. pose proof PI_RGT_0 as Hpi.
  destruct (Rle_dec x (-1)); [lra|].
  destruct (Rle_dec 1 x); [lra|].
  destruct (Req_dec x 0) as [-> |Hne].
  - unfold Rdiv. rewrite Rmult_0_l, atan_0. lra.
  - rewrite <- atan_0. apply Rlt_le, atan_increasing.
    apply Rdiv_lt_0_compat; [lra|].
    apply sqrt_lt_R0. rewrite Rsqr_def. nra.
Qed.

Lemma haversine_nonneg (a b c d : R) : 0 <= haversine a b c d.
Proof.
  unfold haversine. cbv zeta.
  match goal with |- 0 <= 2 * asin (sqrt ?x) * _ * _ =>
    pose proof (asin_nonneg (sqrt x) (sqrt_pos x)) end.
  nra.
Qed.

(** The crash is at the first station: its nearest distance is 0, the
    second station being no nearer. *)
Lemma example_distances_zero : example_distances = [Finite 0].
Proof.
  unfold example_distances, example_stations. cbn [fold_left].
  match goal with |- [closer (Some ?db) (closer (Some ?da) Infinity)] = _ =>
    assert (Ha : da = 0) by (apply haversine_same);
    pose proof (haversine_nonneg (Q2R (-74)) (Q2R 40)
                  (coordinate "lon" (nth 1 example_stations []))
                  (coordinate "lat" (nth 1 example_stations []))) as Hb;
    change (0 <= db) in Hb; rewrite Ha
  end.
  cbn [closer].
  match goal with |- [if Rlt_dec ?x 0 then _ else _] = _ =>
    destruct (Rlt_dec x 0); [lra | reflexivity] end.
Qed.

(** Two stations at (40.0, -74.0) and (40.01, -74.0), one crash at
    (40.0, -74.0) with one injured cyclist: the crash is retained, its
    nearest-station distance is 0 and it counts in the 100 m band. *)
Lemma end_to_end_scenario :
  snd (clean_crash_data pandas_digits example_crashes) = inr example_cleaned_frame
  /\ snd (analyze_proximity exact_floats (cleaned example_cleaned_frame)
            example_stations)
     = inr (mkCrashes example_cleaned_frame (Some [Finite 0]),
            Some (mkCrashes example_cleaned_frame (Some [Finite 0])))
  /\ within 100 [Finite 0] = 1%nat.
Proof.
  split; [vm_compute; reflexivity|]. split.
  - rewrite <- example_distances_zero. reflexivity.
  - unfold within. cbn [filter].
    destruct (Rle_dec 0 (INR 100)) as [H|H]; [reflexivity|].
    exfalso. apply H. apply pos_INR.
Qed.

End Scenario.

(** * Further properties *)

(** ** Bounds on the distance *)

Section DistanceBounds.

Local Open Scope R_scope.

Lemma haversine_range (lon1 lat1 lon2 lat2 : R) :
  0 <= haversine lon1 lat1 lon2 lat2 <= PI * 6371000.
Proof.
  split; [apply haversine_nonneg|].
  unfold haversine. cbv zeta.
  match goal with |- 2 * asin ?x * _ * _ <= _ =>
    pose proof (asin_bound x) as [_ Hup] end.
  lra.
Qed.

Lemma half_circumference : PI * 6371000 < 20015088.
Proof. pose proof PI_upper. lra. Qed.

(** [haversine] is never negative and never more than half the
    circumference of the sphere, PI * 6371 km, which is below 20015088 m. *)
Theorem haversine_bounds :
  forall lon1 lat1 lon2 lat2 : R,
    0 <= haversine lon1 lat1 lon2 lat2 <= PI * 6371000
    /\ PI * 6371000 < 20015088.
Proof.
  intros lon1 lat1 lon2 lat2.
  split; [apply haversine_range | apply half_circumference].
Qed.

End DistanceBounds.

(** ** More on the nearest-station scan *)

Section ScanProperties.

Local Open Scope R_scope.

Lemma Forall2_common_left {A B C : Type} (R : A -> B -> Prop) (S : A -> C -> Prop)
    (T : B -> C -> Prop) (l : list A) (lb : list B) (lc : list C) :
  (forall a b c, R a b -> S a c -> T b c) ->
  Forall2 R l lb -> Forall2 S l lc -> Forall2 T lb lc.
Proof.
  intros Himp HR. revert lc.
  induction HR; intros lc HS; inversion HS; subst; constructor; eauto.
Qed.

Lemma PNum_inj (x y : Q) : PNum x = PNum y -> x = y.
Proof. now intros [= ->]. Qed.

(** A crash whose distances are all returned over the stations [valid']
    cannot make a call raise over stations that are among them. *)
Lemma recorded_not_raising (fl : floats) (valid valid' : list dict)
    (crashes : list row) (distances : list dist) :
  incl valid valid' ->
  Forall2 (nearest_recorded fl valid') crashes distances ->
  forall e : exn, ~ Exists (haversine_raises fl valid e) crashes.
Proof.
  intros Hincl Hall e Hex. induction Hall as [|r d rs ds Hrd _ IH].
  - inversion Hex.
  - inversion Hex as [? ? Hr|? ? Hrs]; subst; [|now apply IH].
    destruct Hr as (s & lon & lat & Hs & Elon & Elat & Hnone).
    destruct Hrd as (lon' & lat' & m & Elon' & Elat' & _ & _ & Hmin).
    rewrite Elon in Elon'. rewrite Elat in Elat'.
    apply PNum_inj in Elon', Elat'. subst lon' lat'.
    destruct (Hmin s (Hincl s Hs)) as (m' & Hm' & _). congruence.
Qed.

(** More stations can only bring the nearest one closer: if every valid
    station of [stations] is a valid station of [stations'] and the
    analysis returns for [stations'], it returns for [stations] too, and no
    crash is recorded farther from [stations'] than from [stations]. *)
Theorem nearest_distance_antitone :
  forall (fl : floats) (pd : pandas) (crashes : pyval) (out : list message)
         (df : DataFrame) (stations stations' : list dict)
         (distances' : list dist),
    clean_crash_data pd crashes = (out, inr df) ->
    valid_stations stations <> [] ->
    incl (valid_stations stations) (valid_stations stations') ->
    snd (analyze_proximity fl (cleaned df) stations')
    = inr (mkCrashes df (Some distances'),
           Some (mkCrashes df (Some distances'))) ->
    exists distances : list dist,
      snd (analyze_proximity fl (cleaned df) stations)
      = inr (mkCrashes df (Some distances), Some (mkCrashes df (Some distances)))
      /\ Forall2 dist_le distances' distances.
Proof.
  intros fl pd crashes out df stations stations' distances' Hclean Hvalid Hincl
         Hrun'.
  assert (Hvalid' : valid_stations stations' <> []).
  { destruct (valid_stations stations) as [|s v]; [congruence|].
    intros E. rewrite E in Hincl. exact (Hincl s (or_introl eq_refl)). }
  destruct (analyze_cleaned fl _ _ _ _ _ Hclean Hvalid')
    as [(ds' & E' & Hall')|(e' & E' & _)]; rewrite E' in Hrun'; [|discriminate].
  injection Hrun' as <-.
  destruct (analyze_cleaned fl _ _ _ _ _ Hclean Hvalid)
    as [(ds & E & Hall)|(e & _ & Hex)].
  - exists ds. rewrite E. split; [reflexivity|].
    apply (Forall2_common_left (nearest_recorded fl (valid_stations stations'))
             (nearest_recorded fl (valid_stations stations)) dist_le (rows df));
      [|exact Hall' | exact Hall].
    intros r d' d (lon' & lat' & m' & Elon' & Elat' & -> & _ & Hmin')
                  (lon & lat & m & Elon & Elat & -> & ((s & Hs & Hm) & _)).
    rewrite Elon in Elon'. rewrite Elat in Elat'.
    apply PNum_inj in Elon', Elat'. subst lon' lat'.
    destruct (Hmin' s (Hincl s Hs)) as (m0 & Hm0 & Hle).
    rewrite Hm in Hm0. injection Hm0 as <-. exact Hle.
  - exfalso. exact (recorded_not_raising _ _ _ _ _ Hincl Hall' e Hex).
Qed.

(** What the analysis returns depends on the set of valid stations only:
    the order of the stations, and stations listed twice, change neither
    whether it returns nor the distances it records. *)
Theorem nearest_distance_of_station_set :
  forall (fl : floats) (pd : pandas) (crashes : pyval) (out : list message)
         (df : DataFrame) (stations stations' : list dict),
    clean_crash_data pd crashes = (out, inr df) ->
    valid_stations stations <> [] ->
    incl (valid_stations stations) (valid_stations stations') ->
    incl (valid_stations stations') (valid_stations stations) ->
    forall result : crash_frame * option crash_frame,
      snd (analyze_proximity fl (cleaned df) stations') = inr result
      <-> snd (analyze_proximity fl (cleaned df) stations) = inr result.
Proof.
  intros fl pd crashes out df stations stations' Hclean Hvalid Hincl Hincl'
         result.
  assert (Hvalid' : valid_stations stations' <> []).
  { destruct (valid_stations stations) as [|s v]; [congruence|].
    intros E. rewrite E in Hincl. exact (Hincl s (or_introl eq_refl)). }
  destruct (analyze_cleaned fl _ _ _ _ _ Hclean Hvalid)
    as [(ds & E & Hall)|(e & E & Hex)];
    destruct (analyze_cleaned fl _ _ _ _ _ Hclean Hvalid')
      as [(ds' & E' & Hall')|(e' & E' & Hex')]; rewrite E, E'; cbn [snd].
  - assert (Eds : ds' = ds); [|now rewrite Eds].
    assert (H2 : Forall2 eq ds' ds).
    { apply (Forall2_common_left (nearest_recorded fl (valid_stations stations'))
               (nearest_recorded fl (valid_stations stations)) eq (rows df));
        [|exact Hall' | exact Hall].
      intros r d' d
        (lon' & lat' & m' & Elon' & Elat' & -> & ((s' & Hs' & Em') & Hmin'))
        (lon & lat & m & Elon & Elat & -> & ((s & Hs & Em) & Hmin)).
      rewrite Elon in Elon'. rewrite Elat in Elat'.
      apply PNum_inj in Elon', Elat'. subst lon' lat'.
      f_equal. apply Rle_antisym.
      - destruct (Hmin' s (Hincl s Hs)) as (m0 & Hm0 & Hle).
        rewrite Em in Hm0. now injection Hm0 as <-.
      - destruct (Hmin s' (Hincl' s' Hs')) as (m0 & Hm0 & Hle).
        rewrite Em' in Hm0. now injection Hm0 as <-. }
    clear -H2. induction H2; [reflexivity | now subst].
  - exfalso. exact (recorded_not_raising _ _ _ _ _ Hincl' Hall e' Hex').
  - exfalso. exact (recorded_not_raising _ _ _ _ _ Hincl Hall' e Hex).
  - split; discriminate.
Qed.

(** With a valid station and a crash to scan, a table without a [lon] or
    a [lat] column makes the analysis raise [KeyError] after its header
    line, for [lon] when both are absent. *)
Theorem analyze_proximity_missing_coordinate_column :
  forall (fl : floats) (crashes_df : crash_frame) (stations : list dict)
         (c : string),
    valid_stations stations <> [] ->
    rows (table crashes_df) <> [] ->
    find (fun c => Nat.eqb (col_count (PStr c) (table crashes_df)) 0)
         ["lon"; "lat"] = Some c ->
    analyze_proximity fl crashes_df stations
    = ([MsgProximityHeader], inl (KeyError (PStr c))).
Proof.
  intros fl crashes_df stations c Hvalid Hrows Hc.
  unfold analyze_proximity.
  destruct (valid_stations stations) as [|s valid]; [congruence|].
  destruct (rows (table crashes_df)) as [|r rs]; [congruence|].
  simpl in Hc. simpl. unfold station_distance, crash_item.
  destruct (col_count (PStr "lon") (table crashes_df)) as [|[|n]];
    simpl in Hc.
  - now injection Hc as <-.
  - destruct (col_count (PStr "lat") (table crashes_df)) as [|m];
      simpl in Hc; [now injection Hc as <- | discriminate].
  - destruct (col_count (PStr "lat") (table crashes_df)) as [|m];
      simpl in Hc; [now injection Hc as <- | discriminate].
Qed.

End ScanProperties.

Lemma example_crashes_cleaned :
  clean_crash_data pandas_digits example_crashes
  = ([MsgCleaning; MsgDataIsList 2;
      MsgAvailableColumns [PStr "date"; PStr "lat"; PStr "lon";
                           PStr "cyclists_injured"; PStr "cyclists_killed"];
      MsgCleaned 1],
     inr example_cleaned_frame).
Proof. vm_compute. reflexivity. Defined.

Lemma nearest_distance_antitone_witness :
  exists distances : list dist,
    snd (analyze_proximity exact_floats (cleaned example_cleaned_frame)
           (firstn 1 example_stations))
    = inr (mkCrashes example_cleaned_frame (Some distances),
           Some (mkCrashes example_cleaned_frame (Some distances)))
    /\ Forall2 dist_le example_distances distances.
Proof.
  apply (nearest_distance_antitone exact_floats pandas_digits example_crashes _
           example_cleaned_frame (firstn 1 example_stations) example_stations
           example_distances example_crashes_cleaned).
  - vm_compute. discriminate.
  - intros s Hs. vm_compute in Hs. destruct Hs as [<-|[]].
    vm_compute. left. reflexivity.
  - reflexivity.
Defined.

Lemma nearest_distance_of_station_set_witness :
  snd (analyze_proximity exact_floats (cleaned example_cleaned_frame)
         (rev example_stations ++ example_stations))
  = inr (example_annotated, Some example_annotated)
  <-> snd (analyze_proximity exact_floats (cleaned example_cleaned_frame)
             example_stations)
      = inr (example_annotated, Some example_annotated).
Proof.
  apply (nearest_distance_of_station_set exact_floats pandas_digits
           example_crashes _ example_cleaned_frame example_stations
           (rev example_stations ++ example_stations) example_crashes_cleaned).
  - vm_compute. discriminate.
  - intros s Hs. vm_compute in Hs. vm_compute.
    destruct Hs as [<-|[<-|[]]]; auto.
  - intros s Hs. vm_compute in Hs. vm_compute.
    destruct Hs as [<-|[<-|[<-|[<-|[]]]]]; auto.
Defined.

Lemma analyze_proximity_missing_coordinate_column_witness :
  analyze_proximity exact_floats
    (cleaned (mkFrame [PStr "lon"; PStr "borough"]
                      [[(PStr "lon", PNum (-74)); (PStr "borough", PStr "QUEENS")]]))
    example_stations
  = ([MsgProximityHeader], inl (KeyError (PStr "lat"))).
Proof.
  apply (analyze_proximity_missing_coordinate_column exact_floats
           (cleaned (mkFrame [PStr "lon"; PStr "borough"]
                      [[(PStr "lon", PNum (-74)); (PStr "borough", PStr "QUEENS")]]))
           example_stations "lat").
  - vm_compute. discriminate.
  - discriminate.
  - reflexivity.
Defined.

(** ** More on the station join *)

Lemma station_info_dict_ok (info : list dict) :
  forall acc d : id_dict,
    station_info_dict info acc = inr d -> info_feed_ok info.
Proof.
  unfold info_feed_ok.
  induction info as [|station rest IH]; intros acc d H; [constructor|].
  simpl in H.
  destruct (dict_get "station_id" station) as [sid|] eqn:Hsid; [|discriminate].
  destruct (hashable sid) eqn:Hh; [|discriminate].
  constructor; [now exists sid | exact (IH _ _ H)].
Qed.

Lemma station_info_dict_error (info : list dict) :
  forall (acc : id_dict) (e : exn),
    station_info_dict info acc = inl e ->
    e = KeyError (PStr "station_id") \/ e = TypeError.
Proof.
  induction info as [|station rest IH]; intros acc e H; simpl in H; [discriminate|].
  destruct (dict_get "station_id" station) as [sid|];
    [|injection H as <-; now left].
  destruct (hashable sid); [exact (IH _ _ H) | injection H as <-; now right].
Qed.

(** One information record without a usable [station_id] is enough for the
    join to raise, whatever the status feed: there is no combined dataset. *)
Theorem join_raises_on_bad_information_record :
  forall info status : list dict,
    ~ info_feed_ok info ->
    exists e : exn,
      combined_stations info status = inl e
      /\ (e = KeyError (PStr "station_id") \/ e = TypeError).
Proof.
  intros info status Hbad. unfold combined_stations.
  destruct (station_info_dict info []) as [e|d] eqn:Hd.
  - exists e. split; [reflexivity|]. exact (station_info_dict_error _ _ _ Hd).
  - exfalso. apply Hbad. exact (station_info_dict_ok _ _ _ Hd).
Qed.

Lemma join_raises_on_bad_information_record_witness :
  exists e : exn,
    combined_stations
      (example_info ++ [[("name", PStr "Depot"); ("capacity", PNum 0)]])
      example_status = inl e
    /\ (e = KeyError (PStr "station_id") \/ e = TypeError).
Proof.
  apply (join_raises_on_bad_information_record
           (example_info ++ [[("name", PStr "Depot"); ("capacity", PNum 0)]])
           example_status).
  unfold info_feed_ok. intros H. apply Forall_app in H. destruct H as (_ & H).
  inversion H as [|? ? (v & Hv & _) _]; subst. discriminate Hv.
Defined.

Lemma combine_loop_flat (info : id_dict) (sts : list dict) :
  forall acc res : list dict,
    combine_loop info sts acc = inr res ->
    res = acc ++ flat_map (combine_step info) sts.
Proof.
  induction sts as [|status rest IH]; intros acc res H; simpl in H.
  - injection H as <-. simpl. now rewrite app_nil_r.
  - simpl. unfold combine_step at 1.
    destruct (truthy (item "station_id" status)).
    + destruct (hashable (item "station_id" status)); [|discriminate].
      destruct (id_get (item "station_id" status) info) as [station|].
      * rewrite (IH _ _ H). now rewrite <- app_assoc.
      * exact (IH _ _ H).
    + exact (IH _ _ H).
Qed.

Lemma has_station_existsb (q : pyval) (info : list dict) :
  has_station q info <->
  existsb (fun i => match dict_get "station_id" i with
                    | Some v => key_eqb q v
                    | None => false
                    end) info = true.
Proof.
  rewrite existsb_exists. split.
  - intros (s & v & Hs & Hv & Hk). exists s. split; [exact Hs|]. now rewrite Hv.
  - intros (s & Hs & H). destruct (dict_get "station_id" s) as [v|] eqn:Hv;
      [|discriminate]. now exists s, v.
Qed.

Lemma combine_step_matched (info : list dict) (d : id_dict) (status : dict) :
  station_info_dict info [] = inr d ->
  NoDup (dict_keys status) ->
  map (item "station_id") (combine_step d status)
  = if matched info status then [item "station_id" status] else [].
Proof.
  intros Hd Hnd. unfold combine_step, matched.
  destruct (truthy (item "station_id" status)) eqn:Ht; [|reflexivity]. simpl.
  destruct (id_get (item "station_id" status) d) as [station|] eqn:Hg.
  - assert (Hin : has_station (item "station_id" status) info).
    { destruct (station_info_dict_sound _ _ _ _ _ Hd Hg) as [[Hin (v & Hv & Hk)]|H];
        [now exists station, v | discriminate]. }
    apply has_station_existsb in Hin. rewrite Hin. simpl.
    unfold item at 1. rewrite (dict_get_merge _ _ _ Hnd).
    now rewrite (truthy_item _ _ Ht).
  - destruct (existsb _ info) eqn:E; [|reflexivity].
    apply has_station_existsb in E.
    exfalso. apply (station_info_dict_complete _ _ _ _ Hd (or_introl E)). exact Hg.
Qed.

(** The combined dataset follows the status feed: one record for each
    status record with a truthy identifier of the information feed, in the
    order of the status feed, a repeated status record giving two. *)
Theorem join_follows_status_order :
  forall info status combined : list dict,
    mappings status ->
    combined_stations info status = inr combined ->
    map (item "station_id") combined
    = map (item "station_id") (filter (matched info) status)
    /\ (List.length combined <= List.length status)%nat.
Proof.
  intros info status combined Hmap Hc. unfold combined_stations in Hc.
  destruct (station_info_dict info []) as [e|d] eqn:Hd; [discriminate|].
  apply combine_loop_flat in Hc. simpl in Hc. subst combined.
  assert (Hids : map (item "station_id") (flat_map (combine_step d) status)
                 = map (item "station_id") (filter (matched info) status)).
  { unfold mappings in Hmap.
    induction status as [|s rest IH]; [reflexivity|].
    inversion Hmap as [|? ? Hnd Hrest]; subst.
    simpl. rewrite map_app, (combine_step_matched _ _ _ Hd Hnd), (IH Hrest).
    now destruct (matched info s). }
  split; [exact Hids|].
  rewrite <- (length_map (item "station_id")), Hids, length_map.
  apply filter_length_le.
Qed.

Lemma join_follows_status_order_witness :
  map (item "station_id") example_combined
  = map (item "station_id") (filter (matched example_info) example_status)
  /\ (List.length example_combined <= List.length example_status)%nat.
Proof.
  apply (join_follows_status_order example_info example_status example_combined).
  - exact example_status_mappings.
  - reflexivity.
Defined.

Lemma station_info_dict_app (a b : list dict) :
  forall acc : id_dict,
    station_info_dict (a ++ b) acc
    = match station_info_dict a acc with
      | inl e => inl e
      | inr d => station_info_dict b d
      end.
Proof.
  induction a as [|station rest IH]; intros acc; simpl; [reflexivity|].
  destruct (dict_get "station_id" station) as [sid|]; [|reflexivity].
  destruct (hashable sid); [apply IH | reflexivity].
Qed.

Lemma station_info_dict_untouched (post : list dict) (q : pyval) :
  forall acc d : id_dict,
    station_info_dict post acc = inr d ->
    ~ has_station q post ->
    id_get q d = id_get q acc.
Proof.
  induction post as [|station rest IH]; intros acc d Hd Hno; simpl in Hd.
  - now injection Hd as <-.
  - destruct (dict_get "station_id" station) as [sid|] eqn:Hsid; [|discriminate].
    destruct (hashable sid); [|discriminate].
    rewrite (IH _ _ Hd).
    + rewrite id_get_set. destruct (key_eqb q sid) eqn:E; [|reflexivity].
      exfalso. apply Hno. exists station, sid. repeat split; auto. now left.
    + intros (s & v & Hs & Hv & Hk). apply Hno. exists s, v.
      repeat split; auto. now right.
Qed.

(** When several information records carry one identifier, the last one
    is the one merged. *)
Theorem join_uses_last_information_record :
  forall (before after status combined : list dict) (i s : dict) (v : pyval),
    combined_stations (before ++ i :: after) status = inr combined ->
    dict_get "station_id" i = Some v ->
    ~ has_station v after ->
    In s status ->
    truthy (item "station_id" s) = true ->
    key_eqb (item "station_id" s) v = true ->
    mappings status ->
    In (dict_merge i s) combined
    /\ forall c, In c combined ->
         key_eqb (item "station_id" s) (item "station_id" c) = true ->
         exists s', In s' status /\ c = dict_merge i s'.
Proof.
  intros before after status combined i s v Hc Hv Hafter Hs Ht Hk Hmap.
  unfold combined_stations in Hc.
  destruct (station_info_dict (before ++ i :: after) []) as [e|d] eqn:Hd;
    [discriminate|].
  rewrite station_info_dict_app in Hd.
  destruct (station_info_dict before []) as [e|d0] eqn:Hd0; [discriminate|].
  simpl in Hd. rewrite Hv in Hd.
  destruct (hashable v); [|discriminate].
  assert (Hlast : forall q, key_eqb q v = true -> id_get q d = Some i).
  { intros q Hq.
    rewrite (station_info_dict_untouched _ q _ _ Hd).
    - rewrite id_get_set. now rewrite Hq.
    - intros (s0 & v0 & Hs0 & Hv0 & Hk0). apply Hafter. exists s0, v0.
      repeat split; auto. rewrite key_eqb_sym in Hq.
      exact (key_eqb_trans _ _ _ Hq Hk0). }
  split.
  - exact (proj2 (combine_loop_complete _ _ _ _ Hc) s i Hs Ht (Hlast _ Hk)).
  - intros c Hin Hkc.
    destruct (combine_loop_sound _ _ _ _ _ Hc Hin) as [[]|(s' & i' & Hs' & Ht' & Hg' & ->)].
    exists s'. split; [exact Hs'|]. f_equal.
    assert (Hnd' : NoDup (dict_keys s'))
      by (unfold mappings in Hmap; rewrite Forall_forall in Hmap; auto).
    assert (E : item "station_id" (dict_merge i' s') = item "station_id" s').
    { unfold item at 1. rewrite (dict_get_merge _ _ _ Hnd').
      now rewrite (truthy_item _ _ Ht'). }
    rewrite E in Hkc.
    assert (Hq : key_eqb (item "station_id" s') v = true).
    { apply key_eqb_trans with (item "station_id" s); [|exact Hk].
      now rewrite key_eqb_sym. }
    rewrite (Hlast _ Hq) in Hg'. now injection Hg'.
Qed.

Lemma join_uses_last_information_record_witness :
  In (dict_merge example_newer_info (hd [] example_status))
     [[("station_id", PStr "72"); ("name", PStr "W 52 St & 11 Ave");
       ("capacity", PNum 55); ("num_bikes_available", PNum 5);
       ("last_updated", PNum 2)]]
  /\ forall c,
      In c [[("station_id", PStr "72"); ("name", PStr "W 52 St & 11 Ave");
             ("capacity", PNum 55); ("num_bikes_available", PNum 5);
             ("last_updated", PNum 2)]] ->
      key_eqb (item "station_id" (hd [] example_status)) (item "station_id" c)
      = true ->
      exists s', In s' example_status /\ c = dict_merge example_newer_info s'.
Proof.
  apply (join_uses_last_information_record
           [hd [] example_info] (tl example_info) example_status _
           example_newer_info (hd [] example_status) (PStr "72")).
  - reflexivity.
  - reflexivity.
  - intros (s & v & Hs & Hv & Hk).
    destruct Hs as [<-|[]]. injection Hv as <-. discriminate Hk.
  - left. reflexivity.
  - reflexivity.
  - reflexivity.
  - exact example_status_mappings.
Defined.

(** ** The cleaner on a frame with its four columns *)

Lemma has_col_of_count (c : label) (df : DataFrame) :
  col_count c df = 1%nat -> has_col c df = true.
Proof.
  intros H. destruct (has_col c df) eqn:E; [reflexivity|].
  apply col_count_absent in E. lia.
Qed.

Lemma to_numeric_column_run (pd : pandas) (col : string) (df : DataFrame) :
  col_count (PStr col) df = 1%nat ->
  to_numeric_column pd col df
  = ret (mkFrame (columns df) (map (row_map_at (PStr col) (coerce pd)) (rows df))).
Proof.
  intros H. unfold to_numeric_column.
  now rewrite (has_col_of_count _ _ H), H.
Qed.

Lemma convert_numeric_run (pd : pandas) (df : DataFrame) :
  Forall (fun c => col_count (PStr c) df = 1%nat) required_columns ->
  convert_numeric pd df
  = ret (mkFrame (columns df) (map (coerce_row pd) (rows df))).
Proof.
  intros H. unfold required_columns in H.
  inversion H as [|? ? H1 H']; subst. inversion H' as [|? ? H2 H'']; subst.
  inversion H'' as [|? ? H3 H''']; subst. inversion H''' as [|? ? H4 _]; subst.
  unfold convert_numeric.
  rewrite (to_numeric_column_run _ _ _ H1), bind_ret.
  rewrite to_numeric_column_run, bind_ret by exact H2.
  rewrite to_numeric_column_run, bind_ret by exact H3.
  rewrite to_numeric_column_run by exact H4.
  simpl. unfold coerce_row. now rewrite !map_map.
Qed.

Lemma filter_filter {A : Type} (p q : A -> bool) (l : list A) :
  filter q (filter p l) = filter (fun x => p x && q x) l.
Proof.
  induction l as [|a l IH]; simpl; [reflexivity|].
  destruct (p a); simpl; [destruct (q a); now rewrite IH | exact IH].
Qed.

Lemma convert_dates_returns (pd : pandas) (df : DataFrame) :
  exists out df', convert_dates pd df = (out, inr df').
Proof.
  unfold convert_dates.
  destruct (has_col (PStr "date") df); [|now eexists; eexists].
  destruct (Nat.eqb (col_count (PStr "date") df) 1); [|now eexists; eexists].
  destruct (to_datetime pd _) as [vs|]; [|now eexists; eexists].
  destruct (Nat.eqb (List.length vs) (frame_len df)); now eexists; eexists.
Qed.

Lemma report_still_missing_returns (df : DataFrame) :
  exists out, report_still_missing df = (out, inr tt).
Proof.
  unfold report_still_missing.
  destruct (missing_columns df); [now exists []|].
  destruct (rows df); eexists; reflexivity.
Qed.

Lemma Forall2_compose {A B C : Type} (R1 : A -> B -> Prop)
    (R2 : B -> C -> Prop) (R3 : A -> C -> Prop)
    (l1 : list A) (l2 : list B) (l3 : list C) :
  (forall a b c, R1 a b -> R2 b c -> R3 a c) ->
  Forall2 R1 l1 l2 -> Forall2 R2 l2 l3 -> Forall2 R3 l1 l3.
Proof.
  intros H H1. revert l3.
  induction H1; intros l3 H2; inversion H2; subst; constructor; eauto.
Qed.

(** When each of the four columns is there once after the renaming, the
    cleaner returns, and its rows are those of the renamed frame, converted
    and filtered, in the same order, up to the total and the dates. *)
Lemma clean_frame_run (pd : pandas) (df : DataFrame) :
  Forall (fun c => col_count (PStr c) (rename_columns df) = 1%nat)
         required_columns ->
  exists out df',
    clean_frame pd df = (out, inr df')
    /\ Forall2 (fun r r' =>
                  forall c, In c required_columns ->
                            cell (PStr c) r' = cell (PStr c) r)
         (filter row_kept (map (coerce_row pd) (rows (rename_columns df))))
         (rows df').
Proof.
  intros Hcols.
  destruct (infer_missing_after_rename df) as (o1 & Hinfer).
  destruct (report_still_missing_returns (rename_columns df)) as (o2 & Hrep).
  pose proof (convert_numeric_run pd _ Hcols) as Hnum.
  set (df1 := rename_columns df) in *.
  set (df3 := mkFrame (columns df1) (map (coerce_row pd) (rows df1))) in *.
  assert (Hc : forall c, In c required_columns -> has_col (PStr c) df3 = true).
  { intros c Hc. rewrite Forall_forall in Hcols.
    apply (has_col_of_count _ df1). now apply Hcols. }
  assert (Hfil : filter_cyclists df3
                 = ret (mkFrame (columns df1)
                          (filter (fun r => positive (cell (PStr "cyclists_injured") r)
                                            || positive (cell (PStr "cyclists_killed") r))
                                  (rows df3)))).
  { unfold filter_cyclists.
    rewrite (Hc "cyclists_injured"), (Hc "cyclists_killed")
      by (unfold required_columns; simpl; auto).
    reflexivity. }
  set (df4 := mkFrame (columns df1) (filter _ (rows df3))) in *.
  assert (Hdrop : dropna_lat_lon df4
                  = ret (mkFrame (columns df1)
                           (filter (fun r => negb (is_missing (cell (PStr "lat") r))
                                             && negb (is_missing (cell (PStr "lon") r)))
                                   (rows df4)))).
  { unfold dropna_lat_lon. simpl filter at 1.
    change (has_col (PStr "lat") df4) with (has_col (PStr "lat") df3).
    change (has_col (PStr "lon") df4) with (has_col (PStr "lon") df3).
    rewrite (Hc "lat"), (Hc "lon") by (unfold required_columns; simpl; auto).
    reflexivity. }
  set (df5 := mkFrame (columns df1) (filter _ (rows df4))) in *.
  destruct (convert_dates_returns pd (add_total pd df5)) as (o6 & df7 & Hdate).
  exists (fst (clean_frame pd df)), df7.
  split.
  - rewrite (surjective_pairing (clean_frame pd df)) at 1. f_equal.
    unfold clean_frame. cbv zeta. fold df1.
    rewrite (bind_value _ _ _ _ (eq_refl : print _ = (_, inr tt))). cbn [snd].
    rewrite (bind_value _ _ _ _ Hinfer). cbn [snd].
    rewrite (bind_value _ _ _ _ Hrep). cbn [snd].
    rewrite Hnum, bind_ret. fold df3.
    rewrite Hfil, bind_ret. fold df4.
    rewrite Hdrop, bind_ret. fold df5.
    rewrite (bind_value _ _ _ _ Hdate). cbn [snd].
    reflexivity.
  - destruct (convert_dates_inr _ _ _ _ Hdate) as (_ & Hsame).
    unfold add_total in Hsame. simpl rows in Hsame.
    pose proof (put_column_same_but (PStr "total_cyclist_casualties")
                  (series_add pd
                     (map (cell (PStr "cyclists_injured")) (rows df5))
                     (map (cell (PStr "cyclists_killed")) (rows df5)))
                  (rows df5)) as Hput.
    assert (Hcomp : forall a b c,
               same_but (PStr "total_cyclist_casualties") a b ->
               same_cells b c ->
               forall k, In k required_columns ->
                         cell (PStr k) c = cell (PStr k) a).
    { intros a b c H1 H2 k Hk. unfold required_columns in Hk. simpl in Hk.
      destruct Hk as [<-|[<-|[<-|[<-|[]]]]];
        (rewrite H2 by reflexivity; apply H1; reflexivity). }
    pose proof (Forall2_compose _ _ _ _ _ _ Hcomp Hput Hsame) as Hall.
    unfold df5, df4, df3 in Hall. simpl rows in Hall.
    rewrite filter_filter in Hall. exact Hall.
Qed.

(** ** The cleaner on uniform records *)

Lemma find_filter {A : Type} (p q : A -> bool) (l : list A) :
  (forall x, p x = true -> q x = true) ->
  find p (filter q l) = find p l.
Proof.
  intros H. induction l as [|a l IH]; simpl; [reflexivity|].
  destruct (q a) eqn:Q; simpl.
  - now rewrite IH.
  - destruct (p a) eqn:P; [|exact IH].
    apply H in P. congruence.
Qed.

Lemma rename_columns_as_rename (df : DataFrame) :
  rename_columns df = rename (rename_dict_of df) df.
Proof.
  unfold rename_columns.
  destruct (rename_dict_of df) as [|e rd]; [|reflexivity].
  destruct df as [cols rws]. unfold rename. simpl. f_equal.
  - rewrite <- (map_id cols) at 1. apply map_ext.
    intros c. now rewrite rename_label_nil.
  - rewrite <- (map_id rws) at 1. apply map_ext. intros r.
    rewrite <- (map_id r) at 1. apply map_ext. intros [c v].
    now rewrite rename_label_nil.
Qed.

Lemma rename_label_of_key (ks : list string) (rws : list row) (k : string) :
  In k ks ->
  rename_label (rename_dict_of (mkFrame (map PStr ks) rws)) (PStr k)
  = PStr (canonical_name k).
Proof.
  intros Hin. unfold rename_label, canonical_name, rename_dict_of.
  rewrite find_filter; [now destruct (find _ column_mapping)|].
  intros e He. apply String.eqb_eq in He. subst k.
  apply has_col_In. simpl. now apply in_map.
Qed.

(** The frame of uniform records after the renaming. *)
Lemma rename_columns_records (ks : list string) (ds : list dict) :
  rename_columns (mkFrame (map PStr ks) (map (record_row (map PStr ks)) ds))
  = mkFrame (map (fun k => PStr (canonical_name k)) ks)
            (map (fun d => map (fun k => (PStr (canonical_name k), item k d)) ks)
                 ds).
Proof.
  rewrite rename_columns_as_rename. unfold rename. simpl. f_equal.
  - rewrite map_map. apply map_ext_in. intros k Hk.
    now apply rename_label_of_key.
  - rewrite map_map. apply map_ext. intros d.
    rewrite record_row_strings, map_map. apply map_ext_in. intros k Hk.
    simpl. f_equal. now apply rename_label_of_key.
Qed.

Lemma col_count_records (ks : list string) (rws : list row) (c : string) :
  col_count (PStr c) (mkFrame (map (fun k => PStr (canonical_name k)) ks) rws)
  = name_count ks c.
Proof.
  unfold col_count, name_count. simpl.
  induction ks as [|k ks IH]; simpl; [reflexivity|].
  destruct (String.eqb c (canonical_name k)); simpl; now rewrite IH.
Qed.

Lemma row_get_records (ks : list string) (d : dict) (c : string) :
  row_get (PStr c) (map (fun k => (PStr (canonical_name k), item k d)) ks)
  = option_map (fun k => item k d)
               (find (fun k => String.eqb c (canonical_name k)) ks).
Proof.
  induction ks as [|k ks IH]; simpl; [reflexivity|].
  destruct (String.eqb c (canonical_name k)); [reflexivity | exact IH].
Qed.

Lemma cell_records (ks : list string) (d : dict) (c : string) :
  name_count ks c = 1%nat ->
  cell (PStr c) (map (fun k => (PStr (canonical_name k), item k d)) ks)
  = item (source ks c) d.
Proof.
  intros Hc. unfold cell, source. rewrite row_get_records.
  destruct (find (fun k => String.eqb c (canonical_name k)) ks) as [k|] eqn:F;
    [reflexivity|].
  exfalso. unfold name_count in Hc.
  assert (E : filter (fun k => String.eqb c (canonical_name k)) ks = []).
  { clear Hc. induction ks as [|a ks IH]; simpl in *; [reflexivity|].
    destruct (String.eqb c (canonical_name a)); [discriminate | now apply IH]. }
  rewrite E in Hc. discriminate.
Qed.

Lemma cell_coerce_row (pd : pandas) (r : row) (c : string) :
  In c required_columns ->
  cell (PStr c) (coerce_row pd r) = coerce pd (cell (PStr c) r).
Proof.
  assert (Hsame : forall c r, cell (PStr c) (row_map_at (PStr c) (coerce pd) r)
                              = coerce pd (cell (PStr c) r)).
  { intros c0 r0. rewrite cell_map_at. unfold cell.
    now destruct (row_get (PStr c0) r0). }
  unfold required_columns, coerce_row.
  intros [<-|[<-|[<-|[<-|[]]]]].
  - rewrite !cell_map_at_other by reflexivity. apply Hsame.
  - rewrite !cell_map_at_other by reflexivity. rewrite Hsame.
    now rewrite cell_map_at_other by reflexivity.
  - rewrite cell_map_at_other by reflexivity. rewrite Hsame.
    now rewrite !cell_map_at_other by reflexivity.
  - rewrite Hsame. now rewrite !cell_map_at_other by reflexivity.
Qed.

Lemma normalize_uniform (pd : pandas) (ks : list string) (ds : list dict) :
  NoDup ks -> ds <> [] ->
  Forall (fun d => dict_keys d = ks) ds ->
  normalize pd (PList (map PDict ds))
  = ([MsgDataIsList (List.length ds)],
     inr (Resolved (mkFrame (map PStr ks) (map (record_row (map PStr ks)) ds)))).
Proof.
  intros Hnd Hne Hall. unfold normalize. rewrite length_map.
  destruct ds as [|d rest]; [congruence|].
  unfold DataFrame_new.
  cbn [negb map]. rewrite <- (map_cons PDict), as_dicts_map.
  rewrite (union_keys_uniform ks) by (auto; discriminate).
  reflexivity.
Qed.

Lemma filter_map_swap {A B : Type} (f : A -> B) (p : B -> bool) (l : list A) :
  filter p (map f l) = map f (filter (fun x => p (f x)) l).
Proof.
  induction l as [|a l IH]; simpl; [reflexivity|].
  destruct (p (f a)); simpl; now rewrite IH.
Qed.

Lemma Forall2_map_left {A B C : Type} (f : A -> B) (R : B -> C -> Prop)
    (l : list A) (l' : list C) :
  Forall2 R (map f l) l' -> Forall2 (fun a c => R (f a) c) l l'.
Proof.
  revert l'. induction l as [|a l IH]; intros l' H; inversion H; subst;
    constructor; auto.
Qed.

(** On uniform records in which each of the four required fields has
    exactly one name, its own or its alias, the cleaner returns; the rows of
    its frame are, in the order of the input, the records with a positive
    count of injured or of killed cyclists and both coordinates numeric, and
    each row holds the four converted fields. *)
Theorem uniform_records_cleaned :
  forall (pd : pandas) (ks : list string) (ds : list dict),
    NoDup ks -> ds <> [] ->
    Forall (fun d => dict_keys d = ks) ds ->
    Forall (fun c => name_count ks c = 1%nat) required_columns ->
    exists (out : list message) (df : DataFrame),
      clean_crash_data pd (PList (map PDict ds)) = (out, inr df)
      /\ Forall2 (cleaned_from pd ks) (filter (kept pd ks) ds) (rows df).
Proof.
  intros pd ks ds Hnd Hne Hall Hreq.
  set (df0 := mkFrame (map PStr ks) (map (record_row (map PStr ks)) ds)).
  assert (Hcols : Forall (fun c => col_count (PStr c) (rename_columns df0) = 1%nat)
                         required_columns).
  { unfold df0. rewrite rename_columns_records.
    eapply Forall_impl; [|exact Hreq]. intros c Hc. simpl in Hc.
    now rewrite col_count_records. }
  destruct (clean_frame_run pd df0 Hcols) as (out & df & Hrun & Hrows).
  exists (fst (clean_crash_data pd (PList (map PDict ds)))), df. split.
  - rewrite (surjective_pairing (clean_crash_data pd (PList (map PDict ds)))) at 1.
    f_equal. unfold clean_crash_data.
    rewrite (bind_value _ _ _ _ (eq_refl : print _ = (_, inr tt))). cbn [snd].
    rewrite (bind_value _ _ _ _ (normalize_uniform pd ks ds Hnd Hne Hall)).
    cbn [snd]. fold df0. now rewrite Hrun.
  - unfold df0 in Hrows. rewrite rename_columns_records in Hrows.
    simpl rows in Hrows.
    rewrite map_map, filter_map_swap in Hrows.
    apply Forall2_map_left in Hrows.
    assert (Hcell : forall c d, In c required_columns ->
              cell (PStr c)
                (coerce_row pd
                   (map (fun k => (PStr (canonical_name k), item k d)) ks))
              = coerced pd ks c d).
    { intros c d Hc. rewrite cell_coerce_row by exact Hc.
      rewrite cell_records; [reflexivity|].
      rewrite Forall_forall in Hreq. now apply Hreq. }
    assert (Hkept : forall d,
              row_kept (coerce_row pd
                 (map (fun k => (PStr (canonical_name k), item k d)) ks))
              = kept pd ks d).
    { intros d. unfold row_kept, kept.
      now rewrite !Hcell by (unfold required_columns; simpl; auto 6). }
    rewrite (filter_ext _ _ Hkept) in Hrows.
    eapply Forall2_impl; [|exact Hrows].
    intros d r Hsame. cbv beta in Hsame.
    assert (Hin : forall c, In c required_columns ->
                            cell (PStr c) r = coerced pd ks c d).
    { intros c Hc. rewrite (Hsame c Hc). now apply Hcell. }
    unfold cleaned_from.
    repeat split; apply Hin; unfold required_columns; simpl; auto 6.
Qed.

Lemma uniform_records_cleaned_witness :
  exists (out : list message) (df : DataFrame),
    clean_crash_data pandas_digits (PList (map PDict example_crash_records))
    = (out, inr df)
    /\ Forall2 (cleaned_from pandas_digits
                  ["crash_date"; "latitude"; "longitude";
                   "number_of_cyclist_injured"; "number_of_cyclist_killed"])
               (filter (kept pandas_digits
                          ["crash_date"; "latitude"; "longitude";
                           "number_of_cyclist_injured"; "number_of_cyclist_killed"])
                       example_crash_records)
               (rows df).
Proof.
  apply (uniform_records_cleaned pandas_digits
           ["crash_date"; "latitude"; "longitude";
            "number_of_cyclist_injured"; "number_of_cyclist_killed"]
           example_crash_records).
  - repeat (constructor; [simpl; intuition discriminate|]). constructor.
  - discriminate.
  - repeat constructor.
  - repeat constructor.
Defined.

(** ** The cleaner without one of its columns *)

Lemma col_count_present (c : label) (df : DataFrame) :
  has_col c df = true -> (1 <= col_count c df)%nat.
Proof.
  unfold has_col, col_count.
  induction (columns df) as [|a l IH]; simpl; [discriminate|].
  destruct (key_eqb c a); simpl; [lia | exact IH].
Qed.

Lemma has_col_columns (c : label) (df df' : DataFrame) :
  columns df' = columns df -> has_col c df' = has_col c df.
Proof. unfold has_col. now intros ->. Qed.

Lemma col_count_columns (c : label) (df df' : DataFrame) :
  columns df' = columns df -> col_count c df' = col_count c df.
Proof. unfold col_count. now intros ->. Qed.

Lemma to_numeric_column_single (pd : pandas) (col : string) (df : DataFrame) :
  (col_count (PStr col) df <= 1)%nat ->
  exists df', to_numeric_column pd col df = ret df' /\ columns df' = columns df.
Proof.
  intros H. unfold to_numeric_column.
  destruct (has_col (PStr col) df) eqn:E; [|now exists df].
  apply col_count_present in E.
  replace (col_count (PStr col) df) with 1%nat by lia.
  simpl. eexists. split; reflexivity.
Qed.

Lemma convert_numeric_single (pd : pandas) (df : DataFrame) :
  Forall (fun c => (col_count (PStr c) df <= 1)%nat) required_columns ->
  exists df', convert_numeric pd df = ret df' /\ columns df' = columns df.
Proof.
  intros H. unfold required_columns in H.
  inversion H as [|? ? H1 H']; subst. inversion H' as [|? ? H2 H'']; subst.
  inversion H'' as [|? ? H3 H''']; subst. inversion H''' as [|? ? H4 _]; subst.
  unfold convert_numeric.
  destruct (to_numeric_column_single pd "lat" df H1) as (d1 & -> & C1).
  rewrite bind_ret.
  destruct (to_numeric_column_single pd "lon" d1) as (d2 & -> & C2);
    [now rewrite (col_count_columns _ _ _ C1)|].
  rewrite bind_ret.
  destruct (to_numeric_column_single pd "cyclists_injured" d2) as (d3 & -> & C3);
    [now rewrite (col_count_columns _ df) by congruence|].
  rewrite bind_ret.
  destruct (to_numeric_column_single pd "cyclists_killed" d3) as (d4 & -> & C4);
    [now rewrite (col_count_columns _ df) by congruence|].
  exists d4. split; [reflexivity | congruence].
Qed.

Lemma report_still_missing_reports (df : DataFrame) :
  missing_columns df <> [] ->
  exists out,
    report_still_missing df = (ErrStillMissing (missing_columns df) :: out, inr tt).
Proof.
  intros H. unfold report_still_missing.
  destruct (missing_columns df) as [|m ms]; [congruence|].
  destruct (rows df); eexists; reflexivity.
Qed.

(** Without one of the four columns after the renaming, and with none of
    them repeated, the cleaner names the absent ones and raises. *)
Lemma clean_frame_missing (pd : pandas) (df : DataFrame) :
  Forall (fun c => (col_count (PStr c) (rename_columns df) <= 1)%nat)
         required_columns ->
  missing_columns (rename_columns df) <> [] ->
  exists (out : list message) (k : pyval),
    clean_frame pd df = (out, inl (KeyError k))
    /\ In (ErrStillMissing (missing_columns (rename_columns df))) out.
Proof.
  intros Hone Hmiss.
  destruct (infer_missing_after_rename df) as (o1 & Hinfer).
  destruct (report_still_missing_reports _ Hmiss) as (o2 & Hrep).
  destruct (convert_numeric_single pd _ Hone) as (df3 & Hnum & C3).
  set (df1 := rename_columns df) in *.
  unfold clean_frame. cbv zeta. fold df1.
  rewrite (bind_value _ _ _ _ (eq_refl : print _ = (_, inr tt))).
  rewrite (bind_value _ _ _ _ Hinfer).
  rewrite (bind_value _ _ _ _ Hrep).
  rewrite Hnum, bind_ret.
  set (T := bind (filter_cyclists df3) _).
  assert (HT : exists oT k, T = (oT, inl (KeyError k))).
  { unfold T, filter_cyclists.
    destruct (has_col (PStr "cyclists_injured") df3) eqn:Ei;
      [|now eexists; eexists].
    destruct (has_col (PStr "cyclists_killed") df3) eqn:Ek;
      [|now eexists; eexists].
    cbn [negb]. rewrite bind_ret. unfold dropna_lat_lon.
    set (f := fun c => negb (has_col (PStr c) _)).
    assert (Hf : filter f ["lat"; "lon"] = missing_columns df1).
    { unfold missing_columns, required_columns.
      rewrite (has_col_columns _ df1 df3 C3) in Ei.
      rewrite (has_col_columns _ df1 df3 C3) in Ek.
      change ["lat"; "lon"; "cyclists_injured"; "cyclists_killed"]
        with (["lat"; "lon"] ++ ["cyclists_injured"; "cyclists_killed"]).
      rewrite filter_app.
      replace (filter (fun c => negb (has_col (PStr c) df1))
                      ["cyclists_injured"; "cyclists_killed"]) with (@nil string)
        by (simpl; now rewrite Ei, Ek).
      rewrite app_nil_r. apply filter_ext. intros c. unfold f.
      f_equal. apply has_col_columns. simpl. exact C3. }
    rewrite Hf. destruct (missing_columns df1); [congruence|].
    now eexists; eexists. }
  destruct HT as (oT & k & ->). cbn [fst snd].
  eexists. exists k. split; [reflexivity|].
  apply in_or_app. right. apply in_or_app. right.
  apply in_or_app. left. now left.
Qed.

(** On uniform records that lack one of the four required fields under
    both its names, none of the four being there twice, the cleaner reports
    the fields still missing, the absent one among them, and raises
    [KeyError]. *)
Theorem uniform_records_missing_field_raises :
  forall (pd : pandas) (ks : list string) (ds : list dict) (c : string),
    NoDup ks -> ds <> [] ->
    Forall (fun d => dict_keys d = ks) ds ->
    Forall (fun c => (name_count ks c <= 1)%nat) required_columns ->
    In c required_columns -> name_count ks c = 0%nat ->
    exists (out : list message) (k : pyval) (missing : list string),
      clean_crash_data pd (PList (map PDict ds)) = (out, inl (KeyError k))
      /\ In (ErrStillMissing missing) out /\ In c missing.
Proof.
  intros pd ks ds c Hnd Hne Hall Hone Hc H0.
  set (df0 := mkFrame (map PStr ks) (map (record_row (map PStr ks)) ds)).
  assert (Hin : In c (missing_columns (rename_columns df0))).
  { unfold missing_columns. apply filter_In. split; [exact Hc|].
    destruct (has_col (PStr c) (rename_columns df0)) eqn:E; [|reflexivity].
    apply col_count_present in E. unfold df0 in E.
    rewrite rename_columns_records, col_count_records in E. lia. }
  destruct (clean_frame_missing pd df0) as (out & k & Hrun & Hout).
  - unfold df0. rewrite rename_columns_records.
    eapply Forall_impl; [|exact Hone]. intros c' Hc'. simpl in Hc'.
    now rewrite col_count_records.
  - intros E. now rewrite E in Hin.
  - exists (MsgCleaning :: MsgDataIsList (List.length ds) :: out), k,
      (missing_columns (rename_columns df0)).
    split; [|split; [now do 2 right | exact Hin]].
    unfold clean_crash_data.
    rewrite (bind_value _ _ _ _ (eq_refl : print _ = (_, inr tt))).
    rewrite (bind_value _ _ _ _ (normalize_uniform pd ks ds Hnd Hne Hall)).
    cbn [fst snd]. fold df0. now rewrite Hrun.
Qed.

Lemma uniform_records_missing_field_raises_witness :
  exists (out : list message) (k : pyval) (missing : list string),
    clean_crash_data pandas_digits (PList (map PDict example_no_counts))
    = (out, inl (KeyError k))
    /\ In (ErrStillMissing missing) out /\ In "cyclists_killed" missing.
Proof.
  apply (uniform_records_missing_field_raises pandas_digits
           ["latitude"; "longitude"] example_no_counts "cyclists_killed").
  - repeat (constructor; [simpl; intuition discriminate|]). constructor.
  - discriminate.
  - repeat constructor.
  - repeat constructor.
  - simpl. auto.
  - reflexivity.
Defined.

(** ** The cleaner on the open-data export *)

Lemma as_dicts_lists (rws : list (list pyval)) :
  rws <> [] -> as_dicts (map PList rws) = None.
Proof. destruct rws; [congruence | reflexivity]. Qed.

Lemma as_lists_map (rws : list (list pyval)) :
  as_lists (map PList rws) = Some rws.
Proof.
  induction rws as [|r rws IH]; simpl; [reflexivity|]. now rewrite IH.
Qed.

Lemma DataFrame_new_lists (pd : pandas) (names : list label)
    (rws : list (list pyval)) :
  forallb hashable names = true -> rws <> [] ->
  DataFrame_new pd (PList (map PList rws)) (Some names)
  = if Nat.eqb (List.length names) (max_width rws)
    then inr (mkFrame names (map (values_row names) rws))
    else inl ValueError.
Proof.
  intros Hh Hne. unfold DataFrame_new. rewrite Hh. cbn [negb].
  rewrite (as_dicts_lists rws Hne), as_lists_map.
  destruct rws; [congruence | reflexivity].
Qed.

(** The inspection of an export with a list of rows and a list of named
    columns. *)
Lemma normalize_export (pd : pandas) (d : dict) (cs names : list pyval)
    (rws : list (list pyval)) :
  dict_get "data" d = None ->
  dict_get "rows" d = Some (PList (map PList rws)) ->
  dict_get "columns" d = Some (PList cs) ->
  extract_names cs = Some names ->
  forallb hashable names = true -> rws <> [] ->
  normalize pd (PDict d)
  = ([MsgDataIsDict (dict_keys d); MsgOpenDataFormat;
      MsgFoundRows (List.length rws); MsgFoundColumnNames names],
     if Nat.eqb (List.length names) (max_width rws)
     then inr (Resolved (mkFrame names (map (values_row names) rws)))
     else inl ValueError).
Proof.
  intros Hdata Hrows Hcols Hnames Hh Hne.
  unfold normalize, dict_has. rewrite Hdata, Hrows, Hcols, Hnames.
  cbn [orb]. rewrite length_map.
  rewrite (bind_value _ _ _ _ (eq_refl : print _ = (_, inr tt))).
  rewrite (bind_value _ _ _ _ (eq_refl : print _ = (_, inr tt))).
  rewrite (bind_value _ _ _ _ (eq_refl : print _ = (_, inr tt))).
  rewrite (bind_value _ _ _ _
             (eq_refl : (print (MsgFoundColumnNames names) ;;; ret (Some names))
                        = ([MsgFoundColumnNames names], inr (Some names)))).
  rewrite DataFrame_new_lists by assumption. unfold label.
  destruct (Nat.eqb (List.length names) (max_width rws)); reflexivity.
Qed.

Lemma max_width_full (n : nat) (rws : list (list pyval)) :
  rws <> [] -> Forall (fun r => List.length r = n) rws -> max_width rws = n.
Proof.
  intros Hne Hall. induction Hall as [|r rws Hr Hall IH]; [congruence|].
  simpl. destruct rws as [|r' rws'].
  - simpl. lia.
  - rewrite IH by discriminate. lia.
Qed.

Lemma hashable_strings (names : list string) :
  forallb hashable (map PStr names) = true.
Proof. induction names; simpl; auto. Qed.

Lemma dict_keys_combine (names : list string) (r : list pyval) :
  List.length r = List.length names -> dict_keys (combine names r) = names.
Proof.
  revert r. induction names as [|k names IH]; intros [|v r] H; simpl in *;
    try discriminate; [reflexivity|].
  f_equal. apply IH. lia.
Qed.

(** A row of values under distinct names is the row of the record that
    pairs the names with the values. *)
Lemma values_row_record (names : list string) (r : list pyval) :
  NoDup names -> List.length r = List.length names ->
  values_row (map PStr names) r
  = record_row (map PStr names) (combine names r).
Proof.
  rewrite record_row_strings.
  intros Hnd. revert r.
  induction Hnd as [|k names Hk Hnd IH]; intros [|v r] H; simpl in *;
    try discriminate; [reflexivity|].
  unfold item at 1. simpl. rewrite String.eqb_refl. f_equal.
  rewrite IH by lia. apply map_ext_in. intros k' Hk'.
  unfold item. simpl.
  destruct (String.eqb k' k) eqn:E; [|reflexivity].
  apply String.eqb_eq in E. subst. contradiction.
Qed.

(** An export whose rows all have one value per column name is cleaned as
    the list of the records that pair the names with the values of each
    row: same exception or same frame. *)
Theorem export_cleaned_as_records :
  forall (pd : pandas) (d : dict) (cs : list pyval) (names : list string)
         (rws : list (list pyval)),
    dict_get "data" d = None ->
    dict_get "rows" d = Some (PList (map PList rws)) ->
    dict_get "columns" d = Some (PList cs) ->
    extract_names cs = Some (map PStr names) ->
    NoDup names -> rws <> [] ->
    Forall (fun r => List.length r = List.length names) rws ->
    snd (clean_crash_data pd (PDict d))
    = snd (clean_crash_data pd (PList (map PDict (map (combine names) rws)))).
Proof.
  intros pd d cs names rws Hdata Hrows Hcols Hnames Hnd Hne Hall.
  pose proof (normalize_export pd d cs (map PStr names) rws Hdata Hrows Hcols
                Hnames (hashable_strings names) Hne) as Hnorm.
  rewrite length_map, (max_width_full _ _ Hne Hall), Nat.eqb_refl in Hnorm.
  assert (Hrec : normalize pd (PList (map PDict (map (combine names) rws)))
                 = ([MsgDataIsList (List.length (map (combine names) rws))],
                    inr (Resolved
                           (mkFrame (map PStr names)
                              (map (record_row (map PStr names))
                                   (map (combine names) rws)))))).
  { apply normalize_uniform; [exact Hnd | now destruct rws |].
    apply Forall_map. eapply Forall_impl; [|exact Hall].
    intros r Hr. now apply dict_keys_combine. }
  assert (Hframe : map (values_row (map PStr names)) rws
                   = map (record_row (map PStr names)) (map (combine names) rws)).
  { rewrite map_map. apply map_ext_in. intros r Hr.
    apply values_row_record; [exact Hnd|].
    rewrite Forall_forall in Hall. now apply Hall. }
  unfold clean_crash_data.
  rewrite !(bind_value _ _ _ _ (eq_refl : print MsgCleaning = (_, inr tt))).
  cbn [snd].
  rewrite (bind_value _ _ _ _ Hnorm), (bind_value _ _ _ _ Hrec). cbn [snd].
  now rewrite Hframe.
Qed.

Lemma export_cleaned_as_records_witness :
  snd (clean_crash_data pandas_digits (PDict example_export))
  = snd (clean_crash_data pandas_digits
           (PList (map PDict
              (map (combine ["latitude"; "longitude";
                             "number_of_cyclist_injured";
                             "number_of_cyclist_killed"])
                   [ [PStr "40"; PNum (-74); PNum 1; PNum 0];
                     [PNum 40.01; PNum (-74); PNum 0; PNum 0] ])))).
Proof.
  apply (export_cleaned_as_records pandas_digits example_export
           [ PDict [("name", PStr "latitude")];
             PDict [("name", PStr "longitude")];
             PDict [("name", PStr "number_of_cyclist_injured")];
             PDict [("name", PStr "number_of_cyclist_killed")] ]).
  - reflexivity.
  - reflexivity.
  - reflexivity.
  - reflexivity.
  - repeat (constructor; [simpl; intuition discriminate|]). constructor.
  - discriminate.
  - repeat constructor.
Defined.

(** An export in which the widest row has not as many values as there are
    column names makes the cleaner raise [ValueError], after it has
    reported the rows and the names it found. *)
Theorem export_width_mismatch_raises :
  forall (pd : pandas) (d : dict) (cs names : list pyval)
         (rws : list (list pyval)),
    dict_get "data" d = None ->
    dict_get "rows" d = Some (PList (map PList rws)) ->
    dict_get "columns" d = Some (PList cs) ->
    extract_names cs = Some names ->
    forallb hashable names = true -> rws <> [] ->
    max_width rws <> List.length names ->
    exists out,
      clean_crash_data pd (PDict d) = (out, inl ValueError)
      /\ In (MsgFoundRows (List.length rws)) out
      /\ In (MsgFoundColumnNames names) out.
Proof.
  intros pd d cs names rws Hdata Hrows Hcols Hnames Hh Hne Hw.
  pose proof (normalize_export pd d cs names rws Hdata Hrows Hcols Hnames
                Hh Hne) as Hnorm.
  destruct (Nat.eqb (List.length names) (max_width rws)) eqn:E.
  - apply Nat.eqb_eq in E. congruence.
  - unfold clean_crash_data.
    rewrite (bind_value _ _ _ _ (eq_refl : print MsgCleaning = (_, inr tt))).
    rewrite (bind_raise _ _ _ _ Hnorm). cbn [fst snd].
    eexists. split; [reflexivity|].
    split; simpl; auto 6.
Qed.

Lemma export_width_mismatch_raises_witness :
  exists out,
    clean_crash_data pandas_digits (PDict example_wide_export)
    = (out, inl ValueError)
    /\ In (MsgFoundRows 2) out
    /\ In (MsgFoundColumnNames
             [PStr "latitude"; PStr "longitude";
              PStr "number_of_cyclist_injured";
              PStr "number_of_cyclist_killed"]) out.
Proof.
  apply (export_width_mismatch_raises pandas_digits example_wide_export
           [ PDict [("name", PStr "latitude")];
             PDict [("name", PStr "longitude")];
             PDict [("name", PStr "number_of_cyclist_injured")];
             PDict [("name", PStr "number_of_cyclist_killed")] ]
           _
           [ [PStr "40"; PNum (-74); PNum 1; PNum 0; PStr "Brooklyn"];
             [PNum 40.01; PNum (-74); PNum 0; PNum 0] ]).
  - reflexivity.
  - reflexivity.
  - reflexivity.
  - reflexivity.
  - reflexivity.
  - discriminate.
  - simpl. lia.
Defined.

(** ** The loaders *)

Lemma loaded_inr (report : nat -> load_message) (data v : pyval)
    (out : list load_message) :
  loaded report data = (out, inr v) ->
  v = data /\ exists n, py_len data = inr n /\ out = [report n].
Proof.
  unfold loaded. destruct (py_len data) as [e|n]; [discriminate|].
  intros [= <- <-]. split; [reflexivity|]. now exists n.
Qed.

Lemma load_crash_file_inr (w : sources) (file_path : option string)
    (out : list load_message) (v : pyval) :
  load_crash_file w file_path = (out, inr v) ->
  v = PNone \/ exists n, py_len v = inr n /\ In (MsgLoadedCrashes n) out.
Proof.
  unfold load_crash_file.
  destruct (given file_path) as [path|]; [|intros [= <- <-]; now left].
  unfold after.
  destruct (read_json w path) as [data| | |f]; simpl.
  - destruct (loaded MsgLoadedCrashes data) as [o [f|v']] eqn:E;
      simpl; [discriminate|].
    intros [= <- <-]. apply loaded_inr in E. destruct E as (-> & n & Hn & ->).
    right. exists n. split; [exact Hn | simpl; auto].
  - intros [= <- <-]. now left.
  - intros [= <- <-]. now left.
  - discriminate.
Qed.

(** What [load_crash_data] returns is [None] or a document that has a
    length, the one the loader reported. *)
Theorem load_crash_data_returns_none_or_sized :
  forall (w : sources) (api_url file_path : option string)
         (out : list load_message) (v : pyval),
    load_crash_data w api_url file_path = (out, inr v) ->
    v = PNone
    \/ exists n, py_len v = inr n
                 /\ (In (MsgFetchedCrashes n) out \/ In (MsgLoadedCrashes n) out).
Proof.
  intros w api_url file_path out v. unfold load_crash_data.
  destruct (given api_url) as [url|].
  - unfold after. destruct (http_get w url) as [data| |f]; simpl.
    + destruct (loaded MsgFetchedCrashes data) as [o [f|v']] eqn:E;
        simpl; [discriminate|].
      intros [= <- <-]. apply loaded_inr in E. destruct E as (-> & n & Hn & ->).
      right. exists n. split; [exact Hn | left; simpl; auto].
    + destruct (load_crash_file w file_path) as [o [f|v']] eqn:E;
        simpl; [discriminate|].
      intros [= <- <-]. apply load_crash_file_inr in E.
      destruct E as [-> |(n & Hn & Hin)]; [now left|].
      right. exists n. split; [exact Hn | right; simpl; auto].
    + discriminate.
  - intros H. apply load_crash_file_inr in H.
    destruct H as [-> |(n & Hn & Hin)]; [now left|].
    right. exists n. split; [exact Hn | now right].
Qed.

Lemma load_crash_data_returns_none_or_sized_witness :
  example_crashes = PNone
  \/ exists n, py_len example_crashes = inr n
               /\ (In (MsgFetchedCrashes n)
                      [MsgFetchingCrashes "https://data.example/crashes";
                       ErrFetchingCrashes; MsgLoadingCrashFile "crashes.json";
                       MsgLoadedCrashes 2]
                   \/ In (MsgLoadedCrashes n)
                         [MsgFetchingCrashes "https://data.example/crashes";
                          ErrFetchingCrashes; MsgLoadingCrashFile "crashes.json";
                          MsgLoadedCrashes 2]).
Proof.
  apply (load_crash_data_returns_none_or_sized example_sources
           (Some "https://data.example/crashes") (Some "crashes.json")).
  reflexivity.
Defined.

(** When the request does not end in a [RequestException], neither the
    file path nor what the files hold changes what [load_crash_data] prints
    and returns. *)
Theorem load_crash_data_answered_request_ignores_file :
  forall (w w' : sources) (url : string) (file_path file_path' : option string),
    url <> ""%string ->
    http_get w url <> RequestFailed ->
    http_get w' url = http_get w url ->
    load_crash_data w' (Some url) file_path'
    = load_crash_data w (Some url) file_path.
Proof.
  intros w w' url fp fp' Hurl Hget Hsame. unfold load_crash_data, given.
  destruct (String.eqb url "") eqn:E;
    [apply String.eqb_eq in E; contradiction|].
  rewrite Hsame. destruct (http_get w url); [reflexivity | congruence | reflexivity].
Qed.

Lemma load_crash_data_answered_request_ignores_file_witness :
  load_crash_data example_online (Some "https://data.example/crashes")
    (Some "crashes.json")
  = load_crash_data example_online (Some "https://data.example/crashes") None.
Proof.
  apply (load_crash_data_answered_request_ignores_file
           example_online example_online "https://data.example/crashes").
  - discriminate.
  - discriminate.
  - reflexivity.
Defined.

(** A file whose document has no length (a number, [true], [null]) makes
    [load_crash_data] and [load_citibike_data] raise [TypeError] after the
    line that announces the file, while [load_combined_data] reports an
    error and returns [None]. *)
Theorem unsized_document_raises_or_is_caught :
  forall (w : sources) (path : string) (data : pyval),
    path <> ""%string ->
    read_json w path = FileLoaded data ->
    py_len data = inl TypeError ->
    load_crash_data w None (Some path)
    = ([MsgLoadingCrashFile path], inl (Raised TypeError))
    /\ load_citibike_data w path
       = ([MsgLoadingStations path], inl (Raised TypeError))
    /\ load_combined_data w path
       = ([MsgLoadingCombined path; ErrLoading], inr PNone).
Proof.
  intros w path data Hpath Hread Hlen.
  unfold load_crash_data, load_crash_file, load_citibike_data,
    load_combined_data, given, caught, loaded, after.
  destruct (String.eqb path "") eqn:E;
    [apply String.eqb_eq in E; contradiction|].
  rewrite Hread, Hlen. simpl. auto.
Qed.

Lemma unsized_document_raises_or_is_caught_witness :
  load_crash_data example_sources None (Some "count.json")
  = ([MsgLoadingCrashFile "count.json"], inl (Raised TypeError))
  /\ load_citibike_data example_sources "count.json"
     = ([MsgLoadingStations "count.json"], inl (Raised TypeError))
  /\ load_combined_data example_sources "count.json"
     = ([MsgLoadingCombined "count.json"; ErrLoading], inr PNone).
Proof.
  apply (unsized_document_raises_or_is_caught example_sources "count.json"
           (PNum 42)).
  - discriminate.
  - reflexivity.
  - reflexivity.
Defined.

(** [load_combined_data] lets no [Exception] through: it returns, unless
    reading the file is interrupted. *)
Theorem load_combined_data_returns :
  forall (w : sources) (path : string),
    read_json w path <> ReadRaised Interrupted ->
    exists (out : list load_message) (v : pyval),
      load_combined_data w path = (out, inr v)
      /\ (v = PNone \/ read_json w path = FileLoaded v).
Proof.
  intros w path Hint. unfold load_combined_data, after, caught, loaded.
  destruct (read_json w path) as [data| | |f] eqn:E.
  - destruct (py_len data) as [e|n]; simpl; eexists; eexists;
      (split; [reflexivity|]); auto.
  - eexists; eexists; split; [reflexivity | now left].
  - eexists; eexists; split; [reflexivity | now left].
  - destruct f; try congruence; simpl; eexists; eexists;
      (split; [reflexivity | now left]).
Qed.

Lemma load_combined_data_returns_witness :
  exists (out : list load_message) (v : pyval),
    load_combined_data example_online "stations.json" = (out, inr v)
    /\ (v = PNone \/ read_json example_online "stations.json" = FileLoaded v).
Proof.
  apply (load_combined_data_returns example_online "stations.json").
  discriminate.
Defined.

(** ** The station analyzer *)

Lemma is_number_number_of (v : pyval) :
  is_number v = true <-> exists q, number_of v = Some q.
Proof.
  destruct v as [|[]| | | |]; simpl; split; intros H;
    try discriminate; try reflexivity; try (now eexists);
    destruct H as (q & H); discriminate.
Qed.

(** A sum goes through over numbers, raises [TypeError] at a value that
    is no number, or leaves the range. *)
Lemma sum_field_cases (k : string) (stations : list dict) (acc : Q) :
  (exists q, sum_field k stations acc = inr q
             /\ Forall (fun s => is_number (get_or k (PNum 0) s) = true) stations)
  \/ (sum_field k stations acc = inl (Raises TypeError)
      /\ exists s, In s stations /\ is_number (get_or k (PNum 0) s) = false)
  \/ sum_field k stations acc = inl OutOfRange.
Proof.
  revert acc. induction stations as [|s rest IH]; intros acc; simpl.
  - left. exists acc. split; [reflexivity | constructor].
  - destruct (number_of (get_or k (PNum 0) s)) as [q|] eqn:E.
    + destruct (in_range q && in_range (acc + q)); [|now right; right].
      destruct (IH (acc + q)%Q) as [(q' & Hq & Hall)|[(Hq & s' & Hin & Hs')|Hq]].
      * left. exists q'. split; [exact Hq|]. constructor; [|exact Hall].
        apply is_number_number_of. now exists q.
      * right. left. split; [exact Hq|]. exists s'. split; [now right | exact Hs'].
      * now right; right.
    + right. left. split; [reflexivity|]. exists s. split; [now left|].
      destruct (is_number (get_or k (PNum 0) s)) eqn:N; [|reflexivity].
      apply is_number_number_of in N. destruct N as (q & N). congruence.
Qed.

Lemma uncountable_field (stations : list dict) (s : dict) (k : string) :
  In s stations -> In k count_fields ->
  is_number (get_or k (PNum 0) s) = false ->
  ~ Forall countable stations.
Proof.
  intros Hs Hk Hn H. rewrite Forall_forall in H.
  specialize (H s Hs k Hk). congruence.
Qed.

(** The four sums: they go through over countable stations, raise
    [TypeError] when a station is not countable, or leave the range. *)
Lemma network_totals_cases (stations : list dict) :
  (exists t, network_totals stations = inr t /\ Forall countable stations)
  \/ (network_totals stations = inl (Raises TypeError)
      /\ ~ Forall countable stations)
  \/ network_totals stations = inl OutOfRange.
Proof.
  unfold network_totals.
  destruct (sum_field_cases "capacity" stations 0)
    as [(c & -> & Hc)|[(-> & s & Hs & Hn)| ->]]; simpl;
    [|right; left; split; [reflexivity|];
      apply (uncountable_field _ s "capacity"); simpl; auto
     |now right; right].
  destruct (sum_field_cases "num_bikes_available" stations 0)
    as [(b & -> & Hb)|[(-> & s & Hs & Hn)| ->]]; simpl;
    [|right; left; split; [reflexivity|];
      apply (uncountable_field _ s "num_bikes_available"); simpl; auto
     |now right; right].
  destruct (sum_field_cases "num_ebikes_available" stations 0)
    as [(e & -> & He)|[(-> & s & Hs & Hn)| ->]]; simpl;
    [|right; left; split; [reflexivity|];
      apply (uncountable_field _ s "num_ebikes_available"); simpl; auto
     |now right; right].
  destruct (sum_field_cases "num_docks_available" stations 0)
    as [(d & -> & Hd)|[(-> & s & Hs & Hn)| ->]]; simpl;
    [|right; left; split; [reflexivity|];
      apply (uncountable_field _ s "num_docks_available"); simpl; auto 6
     |now right; right].
  left. eexists. split; [reflexivity|].
  apply Forall_forall. intros s Hs k Hk.
  rewrite Forall_forall in Hc, Hb, He, Hd.
  unfold count_fields in Hk. simpl in Hk.
  destruct Hk as [<-|[<-|[<-|[<-|[]]]]]; auto.
Qed.

(** *** The stored utilization and the other fields *)

Lemma same_fields_store (s : dict) : same_fields s (store_utilization s).
Proof.
  intros k Hk. unfold store_utilization, with_utilization.
  destruct (in_service s); [|reflexivity].
  apply dict_get_set_other. congruence.
Qed.

Lemma get_or_same (s s' : dict) (k : string) (default : pyval) :
  same_fields s s' -> k <> "utilization"%string ->
  get_or k default s' = get_or k default s.
Proof. intros H Hk. unfold get_or. now rewrite (H k Hk). Qed.

Lemma item_same (s s' : dict) (k : string) :
  same_fields s s' -> k <> "utilization"%string -> item k s' = item k s.
Proof. intros H Hk. unfold item. now rewrite (H k Hk). Qed.

Lemma dict_has_same (s s' : dict) (k : string) :
  same_fields s s' -> k <> "utilization"%string -> dict_has k s' = dict_has k s.
Proof. intros H Hk. unfold dict_has. now rewrite (H k Hk). Qed.

Lemma field_number_same (s s' : dict) (k : string) :
  same_fields s s' -> k <> "utilization"%string ->
  field_number k s' = field_number k s.
Proof. intros H Hk. unfold field_number. now rewrite (get_or_same s s'). Qed.

Lemma installed_same (s s' : dict) :
  same_fields s s' -> installed s' = installed s.
Proof. intros H. unfold installed. now rewrite (get_or_same s s'). Qed.

Lemma in_service_same (s s' : dict) :
  same_fields s s' -> in_service s' = in_service s.
Proof.
  intros H. unfold in_service, installed, renting.
  now rewrite !(get_or_same s s') by (auto; discriminate).
Qed.

Lemma valid_station_same (s s' : dict) :
  same_fields s s' -> valid_station s' = valid_station s.
Proof.
  intros H. unfold valid_station.
  now rewrite !(dict_has_same s s'), !(item_same s s') by (auto; discriminate).
Qed.

Lemma utilization_of_same (s s' : dict) :
  same_fields s s' -> utilization_of s' = utilization_of s.
Proof.
  intros H. unfold utilization_of.
  now rewrite !(field_number_same s s') by (auto; discriminate).
Qed.

Lemma utilization_in_range_same (s s' : dict) :
  same_fields s s' -> utilization_in_range s' = utilization_in_range s.
Proof.
  intros H. unfold utilization_in_range.
  now rewrite !(field_number_same s s') by (auto; discriminate).
Qed.

Lemma region_of_same (s s' : dict) :
  same_fields s s' -> region_of s' = region_of s.
Proof. intros H. unfold region_of. now rewrite (get_or_same s s'). Qed.

Lemma dict_set_twice (k : string) (v : pyval) (d : dict) :
  dict_set k v (dict_set k v d) = dict_set k v d.
Proof.
  induction d as [|[k' v'] d IH]; simpl.
  - now rewrite String.eqb_refl.
  - destruct (String.eqb k k') eqn:E; simpl; rewrite E; [reflexivity|].
    now rewrite IH.
Qed.

Lemma with_utilization_store (s : dict) :
  with_utilization (store_utilization s) = with_utilization s.
Proof.
  unfold with_utilization at 1.
  rewrite (utilization_of_same s) by apply same_fields_store.
  unfold store_utilization. destruct (in_service s); [|reflexivity].
  unfold with_utilization. apply dict_set_twice.
Qed.

Lemma store_utilization_twice (s : dict) :
  store_utilization (store_utilization s) = store_utilization s.
Proof.
  unfold store_utilization at 1.
  rewrite (in_service_same s) by apply same_fields_store.
  destruct (in_service s) eqn:E.
  - rewrite with_utilization_store. unfold store_utilization. now rewrite E.
  - unfold store_utilization. now rewrite E.
Qed.

Lemma store_utilization_in_service (s : dict) :
  in_service s = true -> store_utilization s = with_utilization s.
Proof. intros H. unfold store_utilization. now rewrite H. Qed.

Lemma filter_map_same {A : Type} (p : A -> bool) (g : A -> A) (l : list A) :
  (forall a, p (g a) = p a) -> filter p (map g l) = map g (filter p l).
Proof.
  intros H. rewrite filter_map_swap. f_equal. apply filter_ext. exact H.
Qed.

Lemma forallb_map_same {A : Type} (p : A -> bool) (g : A -> A) (l : list A) :
  (forall a, p (g a) = p a) -> forallb p (map g l) = forallb p l.
Proof.
  intros H. induction l as [|a l IH]; simpl; [reflexivity|].
  now rewrite H, IH.
Qed.

(** Without a station in service nothing is stored. *)
Lemma store_utilization_none (stations : list dict) :
  filter in_service stations = [] -> map store_utilization stations = stations.
Proof.
  intros E. rewrite <- (map_id stations) at 2. apply map_ext_in.
  intros s Hs. unfold store_utilization.
  destruct (in_service s) eqn:Es; [|reflexivity].
  assert (H : In s (filter in_service stations)) by (apply filter_In; auto).
  rewrite E in H. contradiction.
Qed.

(** The report on the stations in service leaves the range, or it leaves
    the stations with their utilization stored. *)
Lemma service_report_cases (stations : list dict) :
  service_report stations = inl OutOfRange
  \/ exists service,
       service_report stations = inr (service, map store_utilization stations).
Proof.
  unfold service_report.
  destruct (filter in_service stations) as [|first rest] eqn:E.
  - right. exists []. now rewrite store_utilization_none.
  - destruct (forallb utilization_in_range (first :: rest));
      [right; eexists; reflexivity | now left].
Qed.

Lemma sum_field_map_same (k : string) (g : dict -> dict) (stations : list dict)
    (acc : Q) :
  (forall s, get_or k (PNum 0) (g s) = get_or k (PNum 0) s) ->
  sum_field k (map g stations) acc = sum_field k stations acc.
Proof.
  intros H. revert acc.
  induction stations as [|s rest IH]; intros acc; simpl; [reflexivity|].
  rewrite H. destruct (number_of (get_or k (PNum 0) s)); [|reflexivity].
  destruct (in_range q && in_range (acc + q)); [apply IH | reflexivity].
Qed.

Lemma network_totals_store (stations : list dict) :
  network_totals (map store_utilization stations) = network_totals stations.
Proof.
  unfold network_totals.
  now rewrite !sum_field_map_same
    by (intros s; apply get_or_same; [apply same_fields_store | discriminate]).
Qed.

Lemma first_max_map (key : dict -> Q) (g : dict -> dict) (rest : list dict)
    (best : dict) :
  (forall s, key (g s) = key s) ->
  first_max key (g best) (map g rest) = g (first_max key best rest).
Proof.
  intros H. revert best. induction rest as [|s rest IH]; intros best; simpl;
    [reflexivity|].
  rewrite !H, <- IH. now destruct (negb (Qle_bool (key s) (key best))).
Qed.

Lemma first_min_map (key : dict -> Q) (g : dict -> dict) (rest : list dict)
    (best : dict) :
  (forall s, key (g s) = key s) ->
  first_min key (g best) (map g rest) = g (first_min key best rest).
Proof.
  intros H. revert best. induction rest as [|s rest IH]; intros best; simpl;
    [reflexivity|].
  rewrite !H, <- IH. now destruct (negb (Qle_bool (key best) (key s))).
Qed.

Lemma service_report_store (stations : list dict) :
  service_report (map store_utilization stations) = service_report stations.
Proof.
  unfold service_report.
  rewrite filter_map_same
    by (intros s; apply in_service_same, same_fields_store).
  destruct (filter in_service stations) as [|first rest] eqn:E.
  - simpl. now rewrite store_utilization_none.
  - cbn [map].
    change (forallb utilization_in_range
              (store_utilization first :: map store_utilization rest))
      with (forallb utilization_in_range
              (map store_utilization (first :: rest))).
    rewrite forallb_map_same
      by (intros s; apply utilization_in_range_same, same_fields_store).
    destruct (forallb utilization_in_range (first :: rest)); [|reflexivity].
    cbv zeta.
    assert (Hbikes : forall s, field_number "num_bikes_available"
                                 (store_utilization s)
                               = field_number "num_bikes_available" s).
    { intros s. apply field_number_same;
        [apply same_fields_store | discriminate]. }
    assert (Hget : forall k default s, k <> "utilization"%string ->
              get_or k default (store_utilization s) = get_or k default s).
    { intros k default s Hk. apply get_or_same;
        [apply same_fields_store | exact Hk]. }
    rewrite (first_max_map _ _ _ _ Hbikes), (first_min_map _ _ _ _ Hbikes).
    rewrite !Hget by discriminate.
    rewrite with_utilization_store, !map_map.
    rewrite (map_ext _ _ with_utilization_store).
    rewrite (map_ext _ _ store_utilization_twice).
    reflexivity.
Qed.

Lemma count_regions_map (g : dict -> dict) (stations : list dict)
    (regions : list (pyval * nat)) :
  (forall s, region_of (g s) = region_of s) ->
  count_regions (map g stations) regions = count_regions stations regions.
Proof.
  intros H. revert regions.
  induction stations as [|s rest IH]; intros regions; simpl; [reflexivity|].
  fold (region_of (g s)). fold (region_of s). rewrite H.
  destruct (hashable (region_of s)); [apply IH | reflexivity].
Qed.

Lemma existsb_map_same {A : Type} (p : A -> bool) (g : A -> A) (l : list A) :
  (forall a, p (g a) = p a) -> existsb p (map g l) = existsb p l.
Proof.
  intros H. induction l as [|a l IH]; simpl; [reflexivity|].
  now rewrite H, IH.
Qed.

Lemma region_report_store (stations : list dict) :
  region_report (map store_utilization stations) = region_report stations.
Proof.
  unfold region_report.
  rewrite existsb_map_same
    by (intros s; apply dict_has_same; [apply same_fields_store | discriminate]).
  rewrite count_regions_map
    by (intros s; apply region_of_same, same_fields_store).
  reflexivity.
Qed.

(** The three ways of a run: it leaves the range; a station is not
    countable and it raises before anything else; the stations are
    countable, the utilization is stored and the regions decide. *)
Lemma analyze_stations_cases (stations : list dict) :
  analyze_stations stations = mkAnalysis [] stations (Some OutOfRange)
  \/ (~ Forall countable stations
      /\ analyze_stations stations
         = mkAnalysis [] stations (Some (Raises TypeError)))
  \/ (Forall countable stations
      /\ exists (t : Q * Q * Q * Q) (totals service : list station_message),
           network_totals stations = inr t
           /\ service_report stations
              = inr (service, map store_utilization stations)
           /\ analyze_stations stations
              = match region_report stations with
                | inr regions =>
                    mkAnalysis (totals ++ service ++ regions)
                               (map store_utilization stations) None
                | inl e =>
                    mkAnalysis (totals ++ service)
                               (map store_utilization stations)
                               (Some (Raises e))
                end).
Proof.
  unfold analyze_stations.
  destruct (network_totals_cases stations)
    as [(t & Ht & Hc)|[(Ht & Hno)|Ht]]; rewrite Ht;
    [|right; left; now split | now left].
  destruct t as [[[c b] e] d].
  destruct (service_report_cases stations) as [Hs|(service & Hs)]; rewrite Hs;
    [now left|].
  right. right. split; [exact Hc|].
  exists (c, b, e, d). eexists. exists service.
  split; [reflexivity|]. split; [reflexivity|].
  rewrite region_report_store. reflexivity.
Qed.

(** *** The two maps after the analysis *)

Lemma traverse_map_same {E A B : Type} (f : A -> E + B) (g : A -> A)
    (l : list A) :
  (forall a, f (g a) = f a) -> traverse f (map g l) = traverse f l.
Proof.
  intros H. induction l as [|a l IH]; simpl; [reflexivity|].
  now rewrite H, IH.
Qed.

Lemma checked_utilization_same (s s' : dict) :
  same_fields s s' -> checked_utilization s' = checked_utilization s.
Proof.
  intros H. unfold checked_utilization.
  now rewrite !(get_or_same s s') by (auto; discriminate).
Qed.

Lemma map_entry_same (s s' : dict) :
  same_fields s s' -> map_entry s' = map_entry s.
Proof.
  intros H. unfold map_entry.
  rewrite (checked_utilization_same s s' H), (in_service_same s s' H).
  now rewrite !(get_or_same s s'), !(item_same s s') by (auto; discriminate).
Qed.

Lemma plot_marker_same (s s' : dict) :
  same_fields s s' -> plot_marker s' = plot_marker s.
Proof.
  intros H. unfold plot_marker, marker_size.
  rewrite (checked_utilization_same s s' H).
  now rewrite !(get_or_same s s') by (auto; discriminate).
Qed.

Lemma map_data_store (stations : list dict) :
  map_data (map store_utilization stations) = map_data stations.
Proof.
  unfold map_data, valid_stations.
  rewrite filter_map_same
    by (intros s; apply valid_station_same, same_fields_store).
  destruct (filter valid_station stations) as [|s valid]; [reflexivity|].
  cbn [map]. rewrite <- !map_cons, length_map, traverse_map_same;
    [reflexivity|].
  intros a. apply map_entry_same, same_fields_store.
Qed.

Lemma plot_data_store (stations : list dict) :
  plot_data (map store_utilization stations) = plot_data stations.
Proof.
  unfold plot_data.
  rewrite filter_map_same.
  2:{ intros s. unfold plotted.
      now rewrite (installed_same s), (valid_station_same s)
        by apply same_fields_store. }
  destruct (filter plotted stations) as [|s valid]; [reflexivity|].
  cbn [map]. rewrite <- !map_cons, length_map, traverse_map_same
    by (intros a; apply plot_marker_same, same_fields_store).
  rewrite !map_map.
  rewrite (map_ext (fun x => item "lon" (store_utilization x)) (item "lon"))
    by (intros a; apply item_same; [apply same_fields_store | discriminate]).
  rewrite (map_ext (fun x => item "lat" (store_utilization x)) (item "lat"))
    by (intros a; apply item_same; [apply same_fields_store | discriminate]).
  reflexivity.
Qed.

(** The stations after the analysis are the stations, with or without
    the utilization stored. *)
Lemma stations_after_analysis (stations : list dict) :
  stations_after (analyze_stations stations) = stations
  \/ stations_after (analyze_stations stations)
     = map store_utilization stations.
Proof.
  destruct (analyze_stations_cases stations)
    as [-> |[(_ & ->)|(_ & t & totals & service & _ & _ & ->)]];
    [now left | now left | right].
  now destruct (region_report stations).
Qed.

(** The analysis, which writes into the stations, changes neither map:
    what [create_interactive_map] and [plot_stations] build from the
    stations after [analyze_stations] is what they build before it. *)
Theorem maps_unchanged_by_analysis :
  forall stations : list dict,
    map_data (stations_after (analyze_stations stations)) = map_data stations
    /\ plot_data (stations_after (analyze_stations stations))
       = plot_data stations.
Proof.
  intros stations.
  destruct (stations_after_analysis stations) as [-> | ->].
  - split; reflexivity.
  - split; [apply map_data_store | apply plot_data_store].
Qed.

(** *** When the analysis raises *)

Lemma count_regions_cases (stations : list dict) (regions : list (pyval * nat)) :
  (exists counted, count_regions stations regions = inr counted
                   /\ Forall (fun s => hashable (region_of s) = true) stations)
  \/ (count_regions stations regions = inl TypeError
      /\ ~ Forall (fun s => hashable (region_of s) = true) stations).
Proof.
  revert regions. induction stations as [|s rest IH]; intros regions; simpl.
  - left. exists regions. split; [reflexivity | constructor].
  - fold (region_of s). destruct (hashable (region_of s)) eqn:E.
    + destruct (IH (count_region (region_of s) regions))
        as [(counted & Hc & Hall)|(Hc & Hno)].
      * left. exists counted. split; [exact Hc | now constructor].
      * right. split; [exact Hc|]. intros H. inversion H; subst. contradiction.
    + right. split; [reflexivity|]. intros H. inversion H; subst. congruence.
Qed.

(** As long as the numbers stay within range, [analyze_stations] raises
    nothing but [TypeError], and it raises exactly when one of the four
    summed fields of a station is not a number, or when some station has a
    region and the region of a station cannot be a key. *)
Theorem analyze_stations_raises_exactly_when :
  forall stations : list dict,
    raised (analyze_stations stations) <> Some OutOfRange ->
    (raised (analyze_stations stations) = None
     <-> Forall countable stations
         /\ (existsb (dict_has "region_id") stations = true ->
             Forall (fun s => hashable (region_of s) = true) stations))
    /\ (raised (analyze_stations stations) = None
        \/ raised (analyze_stations stations) = Some (Raises TypeError)).
Proof.
  intros stations Hrange.
  destruct (analyze_stations_cases stations)
    as [E|[(Hno & E)|(Hc & t & totals & service & _ & _ & E)]];
    rewrite E in *; clear E.
  - now contradiction Hrange.
  - simpl. split; [|now right].
    split; [discriminate | intros (H & _); contradiction].
  - unfold region_report in *.
    destruct (existsb (dict_has "region_id") stations).
    + destruct (count_regions_cases stations [])
        as [(counted & -> & Hall)|(-> & Hnot)]; simpl.
      * split; [|now left]. split; [now intros _ | reflexivity].
      * split; [|now right].
        split; [discriminate | intros (_ & H); now specialize (H eq_refl)].
    + simpl. split; [|now left].
      split; [intros _; split; [exact Hc | discriminate] | reflexivity].
Qed.

Lemma example_network_in_range :
  raised (analyze_stations example_network) <> Some OutOfRange.
Proof. vm_compute. discriminate. Defined.

Lemma analyze_stations_raises_exactly_when_witness :
  (raised (analyze_stations example_network) = None
   <-> Forall countable example_network
       /\ (existsb (dict_has "region_id") example_network = true ->
           Forall (fun s => hashable (region_of s) = true) example_network))
  /\ (raised (analyze_stations example_network) = None
      \/ raised (analyze_stations example_network) = Some (Raises TypeError)).
Proof.
  apply (analyze_stations_raises_exactly_when example_network).
  exact example_network_in_range.
Defined.

(** A summed field that is not a number stops the analysis before it
    prints or stores anything: with [TypeError], unless a number has left
    the range before. *)
Theorem analyze_stations_rejects_uncountable_field :
  forall (stations : list dict) (s : dict) (k : string),
    In s stations -> In k count_fields ->
    is_number (get_or k (PNum 0) s) = false ->
    printed (analyze_stations stations) = []
    /\ stations_after (analyze_stations stations) = stations
    /\ (raised (analyze_stations stations) = Some (Raises TypeError)
        \/ raised (analyze_stations stations) = Some OutOfRange).
Proof.
  intros stations s k Hs Hk Hn.
  destruct (analyze_stations_cases stations) as [-> |[(_ & ->)|(Hc & _)]].
  - simpl. auto.
  - simpl. auto.
  - exfalso. exact (uncountable_field _ _ _ Hs Hk Hn Hc).
Qed.

Lemma analyze_stations_rejects_uncountable_field_witness :
  printed (analyze_stations example_bad_capacity) = []
  /\ stations_after (analyze_stations example_bad_capacity)
     = example_bad_capacity
  /\ (raised (analyze_stations example_bad_capacity) = Some (Raises TypeError)
      \/ raised (analyze_stations example_bad_capacity) = Some OutOfRange).
Proof.
  apply (analyze_stations_rejects_uncountable_field example_bad_capacity
           (hd [] example_bad_capacity) "capacity").
  - simpl. auto.
  - simpl. auto.
  - reflexivity.
Defined.

(** *** What the analysis stores *)

Lemma utilization_stored_store (s : dict) :
  utilization_stored s (store_utilization s).
Proof.
  unfold utilization_stored. destruct (in_service s) eqn:E.
  - split; [|apply same_fields_store].
    rewrite store_utilization_in_service by exact E.
    apply dict_get_set_same.
  - unfold store_utilization. now rewrite E.
Qed.

(** The run of countable stations that stays within range. *)
Lemma analyze_stations_countable (stations : list dict) :
  Forall countable stations ->
  raised (analyze_stations stations) <> Some OutOfRange ->
  exists service : list station_message,
    service_report stations = inr (service, map store_utilization stations)
    /\ stations_after (analyze_stations stations)
       = map store_utilization stations
    /\ forall m, In m service -> In m (printed (analyze_stations stations)).
Proof.
  intros Hc Hrange.
  destruct (analyze_stations_cases stations)
    as [E|[(Hno & _)|(_ & t & totals & service & _ & Hs & E)]].
  - rewrite E in Hrange. now contradiction Hrange.
  - contradiction.
  - exists service. split; [exact Hs|]. rewrite E.
    destruct (region_report stations); simpl; (split; [reflexivity|]);
      intros m Hm; apply in_or_app; right;
      [exact Hm | apply in_or_app; now left].
Qed.

(** After an analysis whose sums go through and whose numbers stay within
    range, every station in service holds its utilization, [0] for a
    capacity that is not positive and bikes over capacity otherwise, with
    its other fields as they were, and the other stations are as they
    were. *)
Theorem analysis_stores_utilization :
  forall stations : list dict,
    Forall countable stations ->
    raised (analyze_stations stations) <> Some OutOfRange ->
    Forall2 utilization_stored stations
            (stations_after (analyze_stations stations)).
Proof.
  intros stations H Hrange.
  destruct (analyze_stations_countable stations H Hrange) as (_ & _ & -> & _).
  clear. induction stations as [|s rest IH]; simpl; constructor.
  - apply utilization_stored_store.
  - exact IH.
Qed.

Lemma example_network_countable : Forall countable example_network.
Proof.
  repeat constructor;
    intros k [<-|[<-|[<-|[<-|[]]]]]; reflexivity.
Defined.

Lemma analysis_stores_utilization_witness :
  Forall2 utilization_stored example_network
          (stations_after (analyze_stations example_network)).
Proof.
  apply (analysis_stores_utilization example_network).
  - exact example_network_countable.
  - exact example_network_in_range.
Defined.

(** *** The extremes the analysis reports *)

Lemma first_max_spec (key : dict -> Q) (rest : list dict) (best : dict) :
  In (first_max key best rest) (best :: rest)
  /\ forall s, In s (best :: rest) -> (key s <= key (first_max key best rest))%Q.
Proof.
  revert best. induction rest as [|s rest IH]; intros best; simpl.
  - split; [now left|]. intros s [<-|[]]. apply Qle_refl.
  - destruct (IH (if negb (Qle_bool (key s) (key best)) then s else best))
      as (Hin & Hmax).
    destruct (Qle_bool (key s) (key best)) eqn:E; simpl in *.
    + apply Qle_bool_iff in E. split.
      * destruct Hin as [<-|Hin]; auto.
      * intros x [<-|[<-|Hx]]; auto.
        apply Qle_trans with (key best); auto.
    + assert (Hlt : (key best < key s)%Q).
      { apply Qnot_le_lt. intros H. apply Qle_bool_iff in H. congruence. }
      split.
      * destruct Hin as [<-|Hin]; auto.
      * intros x [<-|[<-|Hx]]; auto.
        apply Qle_trans with (key s); auto using Qlt_le_weak.
Qed.

Lemma first_min_spec (key : dict -> Q) (rest : list dict) (best : dict) :
  In (first_min key best rest) (best :: rest)
  /\ forall s, In s (best :: rest) -> (key (first_min key best rest) <= key s)%Q.
Proof.
  revert best. induction rest as [|s rest IH]; intros best; simpl.
  - split; [now left|]. intros s [<-|[]]. apply Qle_refl.
  - destruct (IH (if negb (Qle_bool (key best) (key s)) then s else best))
      as (Hin & Hmin).
    destruct (Qle_bool (key best) (key s)) eqn:E; simpl in *.
    + apply Qle_bool_iff in E. split.
      * destruct Hin as [<-|Hin]; auto.
      * intros x [<-|[<-|Hx]]; auto.
        apply Qle_trans with (key best); auto.
    + assert (Hlt : (key s < key best)%Q).
      { apply Qnot_le_lt. intros H. apply Qle_bool_iff in H. congruence. }
      split.
      * destruct Hin as [<-|Hin]; auto.
      * intros x [<-|[<-|Hx]]; auto.
        apply Qle_trans with (key s); auto using Qlt_le_weak.
Qed.

(** The four lines of a report on stations in service. *)
Lemma service_report_lines (stations : list dict) (first : dict)
    (rest : list dict) (service : list station_message) (after : list dict) :
  filter in_service stations = first :: rest ->
  service_report stations = inr (service, after) ->
  let bikes := field_number "num_bikes_available" in
  let stored := field_number "utilization" in
  let most_bikes := first_max bikes first rest in
  let least_bikes := first_min bikes first rest in
  let most_utilized :=
    first_max stored (with_utilization first) (map with_utilization rest) in
  let least_utilized :=
    first_min stored (with_utilization first) (map with_utilization rest) in
  service
  = [ MsgMostBikes (get_or "name" (PStr "Unknown") most_bikes)
                   (get_or "num_bikes_available" (PNum 0) most_bikes);
      MsgLeastBikes (get_or "name" (PStr "Unknown") least_bikes)
                    (get_or "num_bikes_available" (PNum 0) least_bikes);
      MsgMostUtilized (get_or "name" (PStr "Unknown") most_utilized)
                      (stored most_utilized * 100);
      MsgLeastUtilized (get_or "name" (PStr "Unknown") least_utilized)
                       (stored least_utilized * 100) ].
Proof.
  intros E H. unfold service_report in H. rewrite E in H.
  destruct (forallb utilization_in_range (first :: rest)); [|discriminate].
  cbv zeta in *. now injection H as <- _.
Qed.

Lemma in_service_listed (stations : list dict) (s : dict) :
  In s (filter in_service stations) <-> In s stations /\ in_service s = true.
Proof. apply filter_In. Qed.

(** With a station in service and numbers within range, the analysis
    names a station in service with the most bikes and one with the
    fewest: no station in service has more bikes than the first, or fewer
    than the second. *)
Theorem most_and_least_bikes_reported :
  forall stations : list dict,
    Forall countable stations ->
    raised (analyze_stations stations) <> Some OutOfRange ->
    filter in_service stations <> [] ->
    exists most least : dict,
      (In most stations /\ in_service most = true)
      /\ (In least stations /\ in_service least = true)
      /\ In (MsgMostBikes (station_name most)
                          (get_or "num_bikes_available" (PNum 0) most))
            (printed (analyze_stations stations))
      /\ In (MsgLeastBikes (station_name least)
                           (get_or "num_bikes_available" (PNum 0) least))
            (printed (analyze_stations stations))
      /\ Forall (fun s =>
                   (bikes_available least <= bikes_available s)%Q
                   /\ (bikes_available s <= bikes_available most)%Q)
                (filter in_service stations).
Proof.
  intros stations H Hrange Hne.
  destruct (analyze_stations_countable stations H Hrange)
    as (service & Hs & _ & Hprinted).
  destruct (filter in_service stations) as [|first rest] eqn:E; [congruence|].
  pose proof (service_report_lines _ _ _ _ _ E Hs) as Hlines.
  cbv zeta in Hlines. subst service.
  destruct (first_max_spec (field_number "num_bikes_available") rest first)
    as (Hmost & Hmax).
  destruct (first_min_spec (field_number "num_bikes_available") rest first)
    as (Hleast & Hmin).
  exists (first_max (field_number "num_bikes_available") first rest),
         (first_min (field_number "num_bikes_available") first rest).
  rewrite <- E in Hmost, Hleast.
  split; [now apply in_service_listed|].
  split; [now apply in_service_listed|].
  split; [apply Hprinted; simpl; auto|].
  split; [apply Hprinted; simpl; auto|].
  apply Forall_forall. intros s Hs'. split; [now apply Hmin | now apply Hmax].
Qed.

Lemma most_and_least_bikes_reported_witness :
  exists most least : dict,
    (In most example_network /\ in_service most = true)
    /\ (In least example_network /\ in_service least = true)
    /\ In (MsgMostBikes (station_name most)
                        (get_or "num_bikes_available" (PNum 0) most))
          (printed (analyze_stations example_network))
    /\ In (MsgLeastBikes (station_name least)
                         (get_or "num_bikes_available" (PNum 0) least))
          (printed (analyze_stations example_network))
    /\ Forall (fun s =>
                 (bikes_available least <= bikes_available s)%Q
                 /\ (bikes_available s <= bikes_available most)%Q)
              (filter in_service example_network).
Proof.
  apply (most_and_least_bikes_reported example_network).
  - exact example_network_countable.
  - exact example_network_in_range.
  - discriminate.
Defined.

Lemma stored_utilization_of (s : dict) :
  utilization_of s = PNum (stored_utilization s).
Proof.
  unfold stored_utilization, field_number, with_utilization, get_or.
  rewrite dict_get_set_same.
  unfold utilization_of.
  now destruct (negb (Qle_bool (field_number "capacity" s) 0)).
Qed.

(** With a station in service and numbers within range, the analysis
    names a station in service of greatest stored utilization and one of
    least, with one hundred times the utilization of each. *)
Theorem most_and_least_utilized_reported :
  forall stations : list dict,
    Forall countable stations ->
    raised (analyze_stations stations) <> Some OutOfRange ->
    filter in_service stations <> [] ->
    exists most least : dict,
      (In most stations /\ in_service most = true)
      /\ (In least stations /\ in_service least = true)
      /\ In (MsgMostUtilized (station_name most) (stored_utilization most * 100))
            (printed (analyze_stations stations))
      /\ In (MsgLeastUtilized (station_name least)
                              (stored_utilization least * 100))
            (printed (analyze_stations stations))
      /\ Forall (fun s =>
                   (stored_utilization least <= stored_utilization s)%Q
                   /\ (stored_utilization s <= stored_utilization most)%Q)
                (filter in_service stations).
Proof.
  intros stations H Hrange Hne.
  destruct (analyze_stations_countable stations H Hrange)
    as (service & Hs & _ & Hprinted).
  destruct (filter in_service stations) as [|first rest] eqn:E; [congruence|].
  pose proof (service_report_lines _ _ _ _ _ E Hs) as Hlines.
  cbv zeta in Hlines. subst service.
  destruct (first_max_spec (field_number "utilization")
              (map with_utilization rest) (with_utilization first))
    as (Hmost & Hmax).
  destruct (first_min_spec (field_number "utilization")
              (map with_utilization rest) (with_utilization first))
    as (Hleast & Hmin).
  rewrite <- map_cons in Hmost, Hleast, Hmax, Hmin.
  apply in_map_iff in Hmost. destruct Hmost as (most & Emost & Hmost).
  apply in_map_iff in Hleast. destruct Hleast as (least & Eleast & Hleast).
  assert (Hname : forall s, get_or "name" (PStr "Unknown") (with_utilization s)
                            = station_name s).
  { intros s. unfold with_utilization, station_name, get_or.
    now rewrite dict_get_set_other by discriminate. }
  exists most, least.
  rewrite <- E in Hmost, Hleast.
  split; [now apply in_service_listed|].
  split; [now apply in_service_listed|].
  split.
  { apply Hprinted. right. right. left.
    rewrite <- Emost, Hname. reflexivity. }
  split.
  { apply Hprinted. right. right. right. left.
    rewrite <- Eleast, Hname. reflexivity. }
  apply Forall_forall. intros s Hs'. unfold stored_utilization.
  rewrite Emost, Eleast.
  split; [apply Hmin | apply Hmax]; now apply in_map.
Qed.

Lemma most_and_least_utilized_reported_witness :
  exists most least : dict,
    (In most example_network /\ in_service most = true)
    /\ (In least example_network /\ in_service least = true)
    /\ In (MsgMostUtilized (station_name most) (stored_utilization most * 100))
          (printed (analyze_stations example_network))
    /\ In (MsgLeastUtilized (station_name least)
                            (stored_utilization least * 100))
          (printed (analyze_stations example_network))
    /\ Forall (fun s =>
                 (stored_utilization least <= stored_utilization s)%Q
                 /\ (stored_utilization s <= stored_utilization most)%Q)
              (filter in_service example_network).
Proof.
  apply (most_and_least_utilized_reported example_network).
  - exact example_network_countable.
  - exact example_network_in_range.
  - discriminate.
Defined.

(** *** The regions *)

Lemma key_eqb_congr (a b x : pyval) :
  key_eqb a b = true -> key_eqb a x = key_eqb b x.
Proof.
  intros H.
  destruct (key_eqb a x) eqn:A, (key_eqb b x) eqn:B; try reflexivity.
  - rewrite key_eqb_sym in H.
    rewrite (key_eqb_trans b a x H A) in B. discriminate.
  - rewrite (key_eqb_trans a b x H B) in A. discriminate.
Qed.

Lemma region_count_count_region (r k : pyval) (regions : list (pyval * nat)) :
  region_count (count_region r regions) k
  = (region_count regions k + if key_eqb k r then 1 else 0)%nat.
Proof.
  unfold region_count.
  induction regions as [|[k0 n] rest IH]; simpl.
  - now destruct (key_eqb k r).
  - destruct (key_eqb r k0) eqn:R; simpl.
    + destruct (key_eqb k k0) eqn:K.
      * rewrite (key_eqb_congr k k0 r K), (key_eqb_sym k0 r), R. simpl. lia.
      * destruct (key_eqb k r) eqn:KR; [|lia].
        rewrite (key_eqb_congr k r k0 KR), R in K. discriminate.
    + destruct (key_eqb k k0) eqn:K; [|exact IH].
      destruct (key_eqb k r) eqn:KR; [|simpl; lia].
      rewrite (key_eqb_congr k r k0 KR), R in K. discriminate.
Qed.

Lemma region_count_count_regions (stations : list dict)
    (regions counted : list (pyval * nat)) (k : pyval) :
  count_regions stations regions = inr counted ->
  region_count counted k = (region_count regions k + stations_in stations k)%nat.
Proof.
  revert regions. unfold stations_in.
  induction stations as [|s rest IH]; intros regions; simpl.
  - intros [= ->]. lia.
  - fold (region_of s). destruct (hashable (region_of s)); [|discriminate].
    intros H. rewrite (IH _ H), region_count_count_region.
    rewrite (key_eqb_sym k (region_of s)).
    destruct (key_eqb (region_of s) k); simpl; lia.
Qed.

Lemma count_region_keys (r : pyval) (regions : list (pyval * nat))
    (e : pyval * nat) :
  In e (count_region r regions) ->
  fst e = r \/ exists e', In e' regions /\ fst e' = fst e.
Proof.
  induction regions as [|[k0 n] rest IH]; simpl.
  - intros [<-|[]]. now left.
  - destruct (key_eqb r k0) eqn:R; simpl.
    + intros [<-|H]; right; [exists (k0, n) | exists e]; auto.
    + intros [<-|H]; [right; exists (k0, n); auto|].
      destruct (IH H) as [-> |(e' & He' & Hk)]; [now left|].
      right. exists e'. auto.
Qed.

Lemma distinct_count_region (r : pyval) (regions : list (pyval * nat)) :
  hashable r = true -> distinct_regions regions ->
  distinct_regions (count_region r regions).
Proof.
  intros Hr (Hd & Hh). unfold distinct_regions.
  induction regions as [|[k0 n] rest IH]; simpl.
  - split; repeat constructor. exact Hr.
  - inversion Hd as [|? ? Hk0 Hrest]; subst.
    inversion Hh as [|? ? Hh0 Hhrest]; subst.
    destruct (key_eqb r k0) eqn:R.
    + split; constructor; assumption.
    + destruct (IH Hrest Hhrest) as (IHd & IHh).
      split; constructor; try assumption.
      apply Forall_forall. intros e He.
      destruct (count_region_keys _ _ _ He) as [-> |(e' & He' & <-)].
      * simpl. now rewrite key_eqb_sym.
      * rewrite Forall_forall in Hk0. now apply Hk0.
Qed.

Lemma distinct_count_regions (stations : list dict)
    (regions counted : list (pyval * nat)) :
  count_regions stations regions = inr counted ->
  distinct_regions regions -> distinct_regions counted.
Proof.
  revert regions. induction stations as [|s rest IH]; intros regions; simpl.
  - now intros [= ->].
  - fold (region_of s). destruct (hashable (region_of s)) eqn:E; [|discriminate].
    intros H Hd. apply (IH _ H). now apply distinct_count_region.
Qed.

Lemma region_count_own (regions : list (pyval * nat)) (e : pyval * nat) :
  distinct_regions regions -> In e regions ->
  region_count regions (fst e) = snd e.
Proof.
  unfold region_count. intros (Hd & Hh).
  induction regions as [|a rest IH]; [intros []|].
  inversion Hd as [|? ? Ha Hrest]; subst.
  inversion Hh as [|? ? Hha Hhrest]; subst.
  intros [-> |He]; simpl.
  - now rewrite key_eqb_refl.
  - rewrite Forall_forall in Ha.
    rewrite key_eqb_sym, (Ha e He). now apply IH.
Qed.

Lemma sum_count_region (r : pyval) (regions : list (pyval * nat)) :
  list_sum (map snd (count_region r regions))
  = S (list_sum (map snd regions)).
Proof.
  induction regions as [|[k0 n] rest IH]; simpl; [reflexivity|].
  destruct (key_eqb r k0); simpl; [reflexivity|]. rewrite IH. lia.
Qed.

Lemma sum_count_regions (stations : list dict)
    (regions counted : list (pyval * nat)) :
  count_regions stations regions = inr counted ->
  list_sum (map snd counted)
  = (list_sum (map snd regions) + List.length stations)%nat.
Proof.
  revert regions. induction stations as [|s rest IH]; intros regions; simpl.
  - intros [= ->]. lia.
  - destruct (hashable _); [|discriminate].
    intros H. rewrite (IH _ H), sum_count_region. lia.
Qed.

Lemma in_insert_by_count (x e : pyval * nat) (l : list (pyval * nat)) :
  In e (insert_by_count x l) <-> e = x \/ In e l.
Proof.
  induction l as [|y l IH]; simpl; [intuition|].
  destruct (Nat.leb (snd y) (snd x)); simpl; [intuition|].
  rewrite IH. intuition.
Qed.

Lemma in_sorted_by_count (e : pyval * nat) (l : list (pyval * nat)) :
  In e (sorted_by_count l) <-> In e l.
Proof.
  unfold sorted_by_count. induction l as [|x l IH]; simpl; [reflexivity|].
  rewrite in_insert_by_count, IH. intuition.
Qed.

Lemma sum_insert_by_count (x : pyval * nat) (l : list (pyval * nat)) :
  list_sum (map snd (insert_by_count x l))
  = (snd x + list_sum (map snd l))%nat.
Proof.
  induction l as [|y l IH]; simpl; [reflexivity|].
  destruct (Nat.leb (snd y) (snd x)); simpl; [reflexivity|]. rewrite IH. lia.
Qed.

Lemma sum_sorted_by_count (l : list (pyval * nat)) :
  list_sum (map snd (sorted_by_count l)) = list_sum (map snd l).
Proof.
  unfold sorted_by_count. induction l as [|x l IH]; simpl; [reflexivity|].
  now rewrite sum_insert_by_count, IH.
Qed.

Lemma falling_insert_by_count (x : pyval * nat) (l : list (pyval * nat)) :
  ForallOrdPairs (fun a b => (snd b <= snd a)%nat) l ->
  ForallOrdPairs (fun a b => (snd b <= snd a)%nat) (insert_by_count x l).
Proof.
  induction 1 as [|y l Hy Hl IH]; simpl; [repeat constructor|].
  destruct (Nat.leb (snd y) (snd x)) eqn:E.
  - apply Nat.leb_le in E. constructor; [|now constructor].
    constructor; [exact E|].
    eapply Forall_impl; [|exact Hy]. intros z Hz. simpl in Hz. lia.
  - apply Nat.leb_gt in E. constructor; [|exact IH].
    apply Forall_forall. intros z Hz.
    apply (proj1 (in_insert_by_count _ _ _)) in Hz.
    destruct Hz as [-> |Hz]; [lia|].
    rewrite Forall_forall in Hy. now apply Hy.
Qed.

Lemma falling_sorted_by_count (l : list (pyval * nat)) :
  ForallOrdPairs (fun a b => (snd b <= snd a)%nat) (sorted_by_count l).
Proof.
  unfold sorted_by_count. induction l as [|x l IH]; simpl; [constructor|].
  now apply falling_insert_by_count.
Qed.

(** When some station has a region and the analysis returns, its last
    lines are the header of the regions and one line for each region, by
    falling count; each count is the number of stations of the region, a
    station without [region_id] being of the region [Unknown]; every
    station is in a listed region and the counts add up to the number of
    stations. *)
Theorem regions_reported :
  forall stations : list dict,
    raised (analyze_stations stations) = None ->
    existsb (dict_has "region_id") stations = true ->
    exists (before : list station_message) (regions : list (pyval * nat)),
      printed (analyze_stations stations)
      = before ++ MsgRegionsHeader
               :: map (fun e => MsgRegion (fst e) (snd e)) regions
      /\ Forall (fun e => snd e = stations_in stations (fst e)) regions
      /\ Forall (fun s => exists e, In e regions
                                    /\ key_eqb (region_of s) (fst e) = true)
                stations
      /\ list_sum (map snd regions) = List.length stations
      /\ ForallOrdPairs (fun a b => (snd b <= snd a)%nat) regions.
Proof.
  intros stations Hraised Hany.
  destruct (analyze_stations_cases stations)
    as [E|[(_ & E)|(Hc & t & totals & service & _ & _ & E)]];
    rewrite E in *; clear E; try discriminate Hraised.
  unfold region_report in *. rewrite Hany in *.
  destruct (count_regions stations []) as [e|counted] eqn:Hcount;
    [discriminate|].
  simpl printed.
  assert (Hd : distinct_regions counted).
  { apply (distinct_count_regions _ _ _ Hcount). split; constructor. }
  assert (Hn : forall k, region_count counted k = stations_in stations k).
  { intros k. now rewrite (region_count_count_regions _ _ _ k Hcount). }
  exists (totals ++ service), (sorted_by_count counted).
  split; [now rewrite app_assoc|].
  split.
  { apply Forall_forall. intros e He.
    apply (proj1 (in_sorted_by_count _ _)) in He.
    rewrite <- Hn. symmetry. now apply region_count_own. }
  split.
  { destruct (count_regions_cases stations [])
      as [(c & _ & Hall)|(Hno & _)]; [|congruence].
    apply Forall_forall. intros s Hs.
    rewrite Forall_forall in Hall. specialize (Hall s Hs).
    assert (Hpos : (1 <= region_count counted (region_of s))%nat).
    { rewrite Hn. unfold stations_in.
      assert (In s (filter (fun s' => key_eqb (region_of s') (region_of s))
                           stations))
        by (apply filter_In; split; [exact Hs | now apply key_eqb_refl]).
      destruct (filter _ stations); [contradiction | simpl; lia]. }
    unfold region_count in Hpos.
    destruct (find (fun e => key_eqb (region_of s) (fst e)) counted)
      as [e|] eqn:F; [|lia].
    apply find_some in F. destruct F as (He & Hk).
    exists e. split; [now apply (proj2 (in_sorted_by_count _ _)) | exact Hk]. }
  split.
  { rewrite sum_sorted_by_count, (sum_count_regions _ _ _ Hcount). reflexivity. }
  apply falling_sorted_by_count.
Qed.

Lemma regions_reported_witness :
  exists (before : list station_message) (regions : list (pyval * nat)),
    printed (analyze_stations example_network)
    = before ++ MsgRegionsHeader
             :: map (fun e => MsgRegion (fst e) (snd e)) regions
    /\ Forall (fun e => snd e = stations_in example_network (fst e)) regions
    /\ Forall (fun s => exists e, In e regions
                                  /\ key_eqb (region_of s) (fst e) = true)
              example_network
    /\ list_sum (map snd regions) = List.length example_network
    /\ ForallOrdPairs (fun a b => (snd b <= snd a)%nat) regions.
Proof.
  apply (regions_reported example_network); reflexivity.
Defined.

(** *** The analysis run again *)

(** The analysis run again on the stations it has written into prints the
    same lines, ends the same way and leaves the stations as they are. *)
Theorem analysis_repeats :
  forall stations : list dict,
    analyze_stations (stations_after (analyze_stations stations))
    = analyze_stations stations.
Proof.
  intros stations.
  destruct (analyze_stations_cases stations)
    as [E|[(_ & E)|(_ & t & totals & service & Ht & Hs & E)]].
  - now rewrite E.
  - now rewrite E.
  - assert (Eafter : stations_after (analyze_stations stations)
                     = map store_utilization stations).
    { rewrite E. now destruct (region_report stations). }
    rewrite Eafter. unfold analyze_stations.
    rewrite network_totals_store, service_report_store, length_map.
    rewrite filter_map_same
      by (intros s; apply installed_same, same_fields_store).
    rewrite length_map, Ht, Hs.
    destruct t as [[[c b] e] d].
    now rewrite !region_report_store.
Qed.

(** *** The data of the two maps *)

Lemma traverse_inr {E A B : Type} (f : A -> E + B) (l : list A) (bs : list B) :
  traverse f l = inr bs -> Forall2 (fun a b => f a = inr b) l bs.
Proof.
  revert bs. induction l as [|a l IH]; intros bs; simpl.
  - intros [= <-]. constructor.
  - destruct (f a) as [e|b] eqn:Ea; simpl; [discriminate|].
    destruct (traverse f l) as [e|bs'] eqn:T; simpl; [discriminate|].
    intros [= <-]. constructor; [exact Ea | now apply IH].
Qed.

Lemma traverse_inl {E A B : Type} (f : A -> E + B) (l : list A) (e : E) :
  traverse f l = inl e -> exists a, In a l /\ f a = inl e.
Proof.
  induction l as [|a l IH]; simpl; [discriminate|].
  destruct (f a) as [e'|b] eqn:Ea; simpl.
  - intros [= <-]. exists a. auto.
  - destruct (traverse f l) as [e'|bs'] eqn:T; simpl; [|discriminate].
    intros [= <-]. destruct (IH eq_refl) as (a' & Ha' & Hf). exists a'. auto.
Qed.

Lemma traverse_fails {E A B : Type} (f : A -> E + B) (l : list A) :
  Exists (fun a => exists e, f a = inl e) l -> exists e, traverse f l = inl e.
Proof.
  induction 1 as [a l (e & He)|a l _ (e & IH)]; simpl.
  - rewrite He. now exists e.
  - destruct (f a) as [e'|b]; simpl; [now exists e'|].
    rewrite IH. now exists e.
Qed.

Lemma checked_utilization_cases (s : dict) :
  (checked_utilization s = inl (Raises TypeError) /\ uncoloured s = true)
  \/ (checked_utilization s = inl OutOfRange /\ uncoloured s = false)
  \/ (exists u, checked_utilization s = inr u /\ uncoloured s = false).
Proof.
  unfold checked_utilization, uncoloured, py_positive, py_div, positive.
  destruct (number_of (get_or "capacity" (PNum 0) s)) as [c|] eqn:Ec.
  - assert (Hc : is_number (get_or "capacity" (PNum 0) s) = true)
      by (apply is_number_number_of; now exists c).
    rewrite Hc. cbn [ebind negb orb].
    destruct (negb (Qle_bool c 0)).
    + destruct (number_of (get_or "num_bikes_available" (PNum 0) s))
        as [b|] eqn:Eb.
      * assert (Hb : is_number (get_or "num_bikes_available" (PNum 0) s) = true)
          by (apply is_number_number_of; now exists b).
        rewrite Hb. cbn [negb andb].
        destruct (in_range b && in_range c && in_range (b / c));
          [right; right; eexists; split; reflexivity | right; left; auto].
      * left. split; [reflexivity|].
        destruct (is_number (get_or "num_bikes_available" (PNum 0) s)) eqn:N;
          [|reflexivity].
        apply is_number_number_of in N. destruct N as (q & N). congruence.
    + right. right. eexists. split; reflexivity.
  - left. split; [reflexivity|].
    destruct (is_number (get_or "capacity" (PNum 0) s)) eqn:N; [|reflexivity].
    apply is_number_number_of in N. destruct N as (q & N). congruence.
Qed.

Lemma marker_size_cases (s : dict) :
  uncoloured s = false ->
  marker_size s = inl OutOfRange
  \/ exists size, marker_size s = inr size /\ (20 <= size)%Q.
Proof.
  unfold uncoloured, marker_size, py_div, get_or.
  intros H. apply orb_false_iff in H. destruct H as (H & _).
  apply negb_false_iff, is_number_number_of in H. destruct H as (q & H).
  assert (Hn : exists q', number_of match dict_get "capacity" s with
                                    | Some v => v
                                    | None => PNum 10
                                    end = Some q').
  { destruct (dict_get "capacity" s); [now exists q | now eexists]. }
  destruct Hn as (q' & ->). cbn [number_of].
  destruct (in_range q' && in_range 2 && in_range (q' / 2)); [|now left].
  right. simpl. eexists. split; [reflexivity|].
  destruct (Qle_bool (q' / 2) 20) eqn:E; simpl; [apply Qle_refl|].
  apply Qlt_le_weak, Qnot_le_lt. intros Hle.
  apply Qle_bool_iff in Hle. congruence.
Qed.

Lemma map_entry_cases (s : dict) :
  (map_entry s = inl (Raises TypeError) /\ uncoloured s = true)
  \/ (map_entry s = inl OutOfRange /\ uncoloured s = false)
  \/ (exists entry, map_entry s = inr entry /\ uncoloured s = false
                    /\ (valid_station s = true -> mapped s entry)).
Proof.
  unfold map_entry.
  destruct (checked_utilization_cases s)
    as [(-> & Hu)|[(-> & Hu)|(u & -> & Hu)]]; [now left | now right; left|].
  right. right. eexists. split; [reflexivity|]. split; [exact Hu|].
  intros Hv. unfold valid_station in Hv.
  apply andb_prop in Hv. destruct Hv as (Hv & Hlon).
  apply andb_prop in Hv. destruct Hv as (_ & Hlat).
  unfold mapped. cbn [ebind dict_keys map fst item dict_get String.eqb
                      Ascii.eqb Bool.eqb].
  repeat split; try reflexivity; try assumption.
  - destruct (in_service s); simpl; [|reflexivity].
    unfold availability_colour.
    destruct (negb (Qle_bool u (7 # 10))); [discriminate|].
    destruct (negb (Qle_bool (3 # 10) u)); discriminate.
  - intros ->. reflexivity.
Qed.

Lemma plot_marker_cases (s : dict) :
  (plot_marker s = inl (Raises TypeError) /\ uncoloured s = true)
  \/ (plot_marker s = inl OutOfRange /\ uncoloured s = false)
  \/ (exists colour size,
        plot_marker s = inr (colour, size) /\ uncoloured s = false
        /\ In colour ["green"; "red"; "orange"]%string /\ (20 <= size)%Q).
Proof.
  unfold plot_marker.
  destruct (checked_utilization_cases s)
    as [(-> & Hu)|[(-> & Hu)|(u & -> & Hu)]]; [now left | now right; left|].
  right. destruct (marker_size_cases s Hu) as [-> |(size & -> & Hsize)];
    [now left|].
  right. exists (availability_colour u), size.
  split; [reflexivity|]. split; [exact Hu|]. split; [|exact Hsize].
  unfold availability_colour.
  destruct (negb (Qle_bool u (7 # 10))); [simpl; auto|].
  destruct (negb (Qle_bool (3 # 10) u)); simpl; auto.
Qed.

(** A loop over the stations that stops at the first that cannot be
    coloured or whose numbers leave the range. *)
Lemma guarded_traverse_halts {B C : Type} (f : dict -> halt + B)
    (g : list B -> C) (l : list dict) :
  (forall s, (f s = inl (Raises TypeError) /\ uncoloured s = true)
             \/ (f s = inl OutOfRange /\ uncoloured s = false)
             \/ (exists b, f s = inr b /\ uncoloured s = false)) ->
  let r := match l with
           | [] => inr None
           | _ => ebind (traverse f l) (fun bs => inr (Some (g bs)))
           end in
  (r <> inl OutOfRange ->
   (r = inl (Raises TypeError) <-> Exists (fun s => uncoloured s = true) l))
  /\ (forall h, r = inl h -> h = Raises TypeError \/ h = OutOfRange).
Proof.
  intros Hf.
  assert (Hsrc : forall h, traverse f l = inl h ->
                           h = Raises TypeError \/ h = OutOfRange).
  { intros h H. apply traverse_inl in H. destruct H as (a & _ & Ha).
    destruct (Hf a) as [(Ha' & _)|[(Ha' & _)|(b & Ha' & _)]];
      rewrite Ha' in Ha; [left | right | discriminate]; congruence. }
  assert (Hto : traverse f l = inl (Raises TypeError) ->
                Exists (fun s => uncoloured s = true) l).
  { intros H. apply traverse_inl in H. destruct H as (a & Hin & Ha).
    apply Exists_exists. exists a. split; [exact Hin|].
    destruct (Hf a) as [(_ & Hu)|[(Ha' & _)|(b & Ha' & _)]];
      [exact Hu | congruence | congruence]. }
  assert (Hfrom : Exists (fun s => uncoloured s = true) l ->
                  exists h, traverse f l = inl h).
  { intros H. apply traverse_fails.
    eapply Exists_impl; [|exact H]. intros a Ha. cbv beta in Ha.
    destruct (Hf a) as [(Ha' & _)|[(_ & Hu)|(b & _ & Hu)]];
      [now exists (Raises TypeError) | congruence | congruence]. }
  destruct l as [|s l]; cbv zeta.
  - split; [|discriminate]. intros _.
    split; [discriminate | intros H; inversion H].
  - destruct (traverse f (s :: l)) as [h|bs] eqn:T; simpl.
    + split; [|intros h' [= <-]; now apply Hsrc].
      intros Hrange. split; [intros [= ->]; now apply Hto|].
      intros _. destruct (Hsrc h eq_refl) as [-> | ->];
        [reflexivity | now contradiction Hrange].
    + split; [|discriminate]. intros _. split; [discriminate|].
      intros H. destruct (Hfrom H) as (h & Hh). discriminate.
Qed.

(** As long as the numbers stay within range, the two maps raise nothing
    but [TypeError]: the interactive map exactly when a station with valid
    coordinates cannot be coloured, the plot exactly when such a station is
    installed. *)
Theorem maps_raise_exactly_when :
  forall stations : list dict,
    (snd (map_data stations) <> inl OutOfRange ->
     (snd (map_data stations) = inl (Raises TypeError)
      <-> Exists (fun s => uncoloured s = true) (valid_stations stations)))
    /\ (snd (plot_data stations) <> inl OutOfRange ->
        (snd (plot_data stations) = inl (Raises TypeError)
         <-> Exists (fun s => uncoloured s = true)
                    (filter installed (valid_stations stations))))
    /\ (forall h, snd (map_data stations) = inl h ->
                  h = Raises TypeError \/ h = OutOfRange)
    /\ (forall h, snd (plot_data stations) = inl h ->
                  h = Raises TypeError \/ h = OutOfRange).
Proof.
  intros stations.
  assert (Hplotted : filter installed (valid_stations stations)
                     = filter plotted stations).
  { unfold valid_stations, plotted. rewrite filter_filter.
    apply filter_ext. intros s. apply andb_comm. }
  rewrite Hplotted.
  destruct (guarded_traverse_halts map_entry (fun entries => entries)
              (valid_stations stations)) as (Hmap & Hmap').
  { intros s.
    destruct (map_entry_cases s) as [H|[H|(b & H & Hu & _)]]; eauto. }
  destruct (guarded_traverse_halts plot_marker
              (fun markers =>
                 mkScatter (map (item "lon") (filter plotted stations))
                           (map (item "lat") (filter plotted stations))
                           (map fst markers) (map snd markers))
              (filter plotted stations)) as (Hplot & Hplot').
  { intros s.
    destruct (plot_marker_cases s) as [H|[H|(c & z & H & Hu & _)]]; eauto. }
  assert (Emap : snd (map_data stations)
                 = match valid_stations stations with
                   | [] => inr None
                   | _ => ebind (traverse map_entry (valid_stations stations))
                                (fun entries => inr (Some entries))
                   end).
  { unfold map_data. now destruct (valid_stations stations). }
  assert (Eplot : snd (plot_data stations)
                  = match filter plotted stations with
                    | [] => inr None
                    | _ =>
                        ebind (traverse plot_marker (filter plotted stations))
                          (fun markers =>
                             inr (Some
                               (mkScatter
                                  (map (item "lon") (filter plotted stations))
                                  (map (item "lat") (filter plotted stations))
                                  (map fst markers) (map snd markers))))
                    end).
  { unfold plot_data. now destruct (filter plotted stations). }
  rewrite Emap, Eplot. auto.
Qed.

Lemma Forall2_impl_left {A B : Type} (P : A -> Prop) (R R' : A -> B -> Prop)
    (l : list A) (l' : list B) :
  (forall a b, P a -> R a b -> R' a b) ->
  Forall P l -> Forall2 R l l' -> Forall2 R' l l'.
Proof.
  intros H HP HR. induction HR as [|a b l l' Hab _ IH]; constructor.
  - apply H; [now inversion HP | exact Hab].
  - apply IH. now inversion HP.
Qed.

(** When [create_interactive_map] builds its list, the list has one entry
    for each station with valid coordinates, installed or not, in the
    order of the stations: ten fields, the two coordinates of the station,
    its identifier, and the colour gray exactly for a station that is not
    in service. *)
Theorem map_data_entry_per_valid_station :
  forall (stations : list dict) (out : list station_message)
         (entries : list dict),
    map_data stations = (out, inr (Some entries)) ->
    out = [MsgCreatingMap (List.length entries)]
    /\ Forall2 mapped (valid_stations stations) entries.
Proof.
  intros stations out entries. unfold map_data.
  pose proof (valid_stations_valid stations) as Hvalid.
  destruct (valid_stations stations) as [|s valid]; [discriminate|].
  destruct (traverse map_entry (s :: valid)) as [e|es] eqn:T; simpl;
    [discriminate|].
  intros [= <- <-]. apply traverse_inr in T.
  split; [do 2 f_equal; exact (Forall2_length T)|].
  apply (Forall2_impl_left (fun s => valid_station s = true)
           (fun a b => map_entry a = inr b)); [|exact Hvalid | exact T].
  intros a b Ha Hab.
  destruct (map_entry_cases a) as [(E & _)|[(E & _)|(entry & E & _ & Hm)]];
    [congruence | congruence |].
  rewrite E in Hab. injection Hab as <-. now apply Hm.
Qed.

Lemma map_data_entry_per_valid_station_witness :
  [MsgCreatingMap 2] = [MsgCreatingMap (List.length example_map_entries)]
  /\ Forall2 mapped (valid_stations example_network) example_map_entries.
Proof.
  apply (map_data_entry_per_valid_station example_network).
  reflexivity.
Defined.

(** When [plot_stations] draws, it draws the installed stations with
    valid coordinates, in the order of the stations: their coordinates,
    and for each a colour among green, red and orange and a size of 20 at
    least. *)
Theorem plot_data_of_installed_stations :
  forall (stations : list dict) (out : list station_message) (plot : scatter),
    plot_data stations = (out, inr (Some plot)) ->
    out = [MsgPlotting
             (List.length (filter installed (valid_stations stations)))]
    /\ filter installed (valid_stations stations) <> []
    /\ drawn (filter installed (valid_stations stations)) plot.
Proof.
  intros stations out plot.
  assert (Hplotted : filter installed (valid_stations stations)
                     = filter plotted stations).
  { unfold valid_stations, plotted. rewrite filter_filter.
    apply filter_ext. intros s. apply andb_comm. }
  rewrite Hplotted. unfold plot_data.
  destruct (filter plotted stations) as [|s valid]; [discriminate|].
  destruct (traverse plot_marker (s :: valid)) as [e|ms] eqn:T; simpl;
    [discriminate|].
  intros [= <- <-]. apply traverse_inr in T.
  split; [reflexivity|]. split; [discriminate|].
  pose proof (Forall2_length T) as Hlen.
  unfold drawn. cbn [lons lats colors sizes].
  repeat split; try reflexivity;
    try (rewrite length_map; symmetry; exact Hlen).
  - clear Hplotted Hlen. induction T as [|a [c z] l ms Ha _ IH]; simpl; constructor;
      [|exact IH].
    destruct (plot_marker_cases a)
      as [(E & _)|[(E & _)|(c' & z' & E & _ & Hc & _)]];
      [congruence | congruence |].
    rewrite E in Ha. now injection Ha as <- <-.
  - clear Hplotted Hlen. induction T as [|a [c z] l ms Ha _ IH]; simpl; constructor;
      [|exact IH].
    destruct (plot_marker_cases a)
      as [(E & _)|[(E & _)|(c' & z' & E & _ & _ & Hz)]];
      [congruence | congruence |].
    rewrite E in Ha. now injection Ha as <- <-.
Qed.

Lemma plot_data_of_installed_stations_witness :
  [MsgPlotting 1]
  = [MsgPlotting (List.length (filter installed (valid_stations example_network)))]
  /\ filter installed (valid_stations example_network) <> []
  /\ drawn (filter installed (valid_stations example_network)) example_plot.
Proof.
  apply (plot_data_of_installed_stations example_network).
  reflexivity.
Defined.
